(** * WORLD.AI, version 0.4: the simulation core

    A shallow embedding of [VERSIONS/V0.4.py]: the zone graph and its
    breadth-first route search ([PathGraph]), the needs-driven agent
    ([Agent]), the world that owns them ([World]) and the decision layer
    that turns a language-model reply into goal assignments ([Brain]).

    Modelling conventions.
    - Python floats are exact rationals ([Q]); every numeric constant of the
      source is the rational it is written as.  The rounding of float
      arithmetic is not modelled: what is stated about floats is about
      order, ranges and single steps, or is a bound with room for the
      rounding, and never an exact sum over several steps.  Python ints
      are [Z], the two counters [path_i] and [wait] (which only ever count
      up from 0) are [nat].
    - Python strings are [string] (UTF-8 bytes).
    - A [dict] is an association list in insertion order, with Python's
      assignment rule (an existing key keeps its place).
    - Library functions that are not part of the repository
      ([math.hypot], [pygame.Rect.collidepoint], [json.loads], [str] on a
      decoded JSON value, [str.strip], [str.lower] and [repr] of a
      string) are the fields of the class [PyLib]; the development holds
      for every implementation of them.  Of [str.strip], [str.lower] and
      [repr] the class fixes what they do to ASCII text; what they do to
      other text (Unicode white space, letters outside ASCII, characters
      that [repr] escapes) is left to the implementation.
    - An exception is a value: a method that can raise returns its state
      together with an [outcome]. *)

From Stdlib Require Import List String Ascii ZArith QArith Qminmax Lia Lqa Bool
  DecimalString PeanoNat Sorted.
Import ListNotations.

Local Open Scope string_scope.
Local Open Scope list_scope.

(** ** Python built-ins *)

Module Py.

(** [x < y] on floats. *)
Definition ltb (x y : Q) : bool := negb (Qle_bool y x).

(** [max(a, b)]: the first argument unless the second is strictly
    greater. *)
Definition max (a b : Q) : Q := if ltb a b then b else a.

(** [min(a, b)]: the first argument unless the second is strictly
    smaller. *)
Definition min (a b : Q) : Q := if ltb b a then b else a.

(** [min(xs, key=f)] on a sequence with first element [x]: the first
    element whose key is minimal (a later element replaces the current
    best only when its key is strictly smaller). *)
Fixpoint min_key_from {A : Type} (f : A -> Q) (best : A) (xs : list A) : A :=
  match xs with
  | [] => best
  | x :: r => min_key_from f (if ltb (f x) (f best) then x else best) r
  end.

Definition min_key {A : Type} (f : A -> Q) (x : A) (xs : list A) : A :=
  min_key_from f x xs.

(** [sorted(xs)] for a strict order [lt]: a stable insertion sort, which
    only ever asks [lt], as Python's sort does. *)
Fixpoint insert {A : Type} (lt : A -> A -> bool) (x : A) (l : list A) : list A :=
  match l with
  | [] => [x]
  | y :: r => if lt y x then y :: insert lt x r else x :: y :: r
  end.

Definition sorted {A : Type} (lt : A -> A -> bool) (l : list A) : list A :=
  fold_right (insert lt) [] l.

(** [x in xs] for a list or a set of strings. *)
Definition mem (x : string) (xs : list string) : bool :=
  existsb (String.eqb x) xs.

(** The ASCII characters for which [str.isspace] holds. *)
Definition is_space (c : ascii) : bool :=
  let n := nat_of_ascii c in
  ((9 <=? n) && (n <=? 13) || (28 <=? n) && (n <=? 32))%nat.

Fixpoint lstrip (s : string) : string :=
  match s with
  | String c r => if is_space c then lstrip r else s
  | EmptyString => EmptyString
  end.

Fixpoint rstrip (s : string) : string :=
  match s with
  | EmptyString => EmptyString
  | String c r =>
      match rstrip r with
      | EmptyString => if is_space c then EmptyString else String c EmptyString
      | r' => String c r'
      end
  end.

(** What [str.strip] does to ASCII text. *)
Definition ascii_strip (s : string) : string := rstrip (lstrip s).

Definition lower_ascii (c : ascii) : ascii :=
  let n := nat_of_ascii c in
  if ((65 <=? n) && (n <=? 90))%nat then ascii_of_nat (n + 32) else c.

(** What [str.lower] does to ASCII text. *)
Fixpoint ascii_lower (s : string) : string :=
  match s with
  | EmptyString => EmptyString
  | String c r => String (lower_ascii c) (ascii_lower r)
  end.

(** Text of ASCII characters only. *)
Fixpoint is_ascii (s : string) : bool :=
  match s with
  | EmptyString => true
  | String c r => (nat_of_ascii c <? 128)%nat && is_ascii r
  end.

(** Text of printable ASCII characters without the single quote and the
    backslash: [repr] puts it between single quotes as it is. *)
Fixpoint is_plain (s : string) : bool :=
  match s with
  | EmptyString => true
  | String c r =>
      let n := nat_of_ascii c in
      (32 <=? n)%nat && (n <=? 126)%nat
      && negb (n =? 39)%nat && negb (n =? 92)%nat && is_plain r
  end.

(** The double-quote character. *)
Definition dquote : ascii := ascii_of_nat 34.

(** [str(n)] for an int. *)
Definition str_int (n : Z) : string := NilZero.string_of_int (Z.to_int n).

(** How a call ended: normally, or by raising an exception whose
    [str(e)] is [err]. *)
Inductive outcome : Type :=
| Done
| Raised (err : string).

(** A value or a raised exception. *)
Inductive result (A : Type) : Type :=
| Ok (a : A)
| Exn (err : string).
Arguments Ok {A} a.
Arguments Exn {A} err.

End Py.

(** ** Dictionaries in insertion order *)

Module Dict.
Section Defs.
Context {V : Type}.

Definition t : Type := list (string * V).

Definition empty : t := [].

(** [d.get(k)] *)
Fixpoint get (k : string) (d : t) : option V :=
  match d with
  | [] => None
  | (k', v) :: r => if String.eqb k k' then Some v else get k r
  end.

(** [d[k] = v] *)
Fixpoint set (k : string) (v : V) (d : t) : t :=
  match d with
  | [] => [(k, v)]
  | (k', v') :: r =>
      if String.eqb k k' then (k', v) :: r else (k', v') :: set k v r
  end.

(** [k in d] *)
Definition mem (k : string) (d : t) : bool :=
  match get k d with Some _ => true | None => false end.

Definition keys (d : t) : list string := map fst d.
Definition values (d : t) : list V := map snd d.
Definition items (d : t) : list (string * V) := d.
End Defs.
Arguments t : clear implicits.
End Dict.

(** ** Configuration and enumerations *)

Module Config.
Definition AI_THINK_INTERVAL : Z := 90.
Definition MOVE_SPEED : Q := 5.0.
Definition NEED_DECAY : Q := 0.006.
Definition CRITICAL : Q := 2.5.
Definition LOW : Q := 4.0.
Definition MAX_HEALTH : Q := 100.0.
End Config.

Inductive ZoneType : Type := HOME | WORK | CAFE | PARK | ROAD.

Inductive Goal : Type := IDLE | GO_HOME | GO_WORK | GO_CAFE | GO_PARK.

Definition ZoneType_eqb (a b : ZoneType) : bool :=
  match a, b with
  | HOME, HOME | WORK, WORK | CAFE, CAFE | PARK, PARK | ROAD, ROAD => true
  | _, _ => false
  end.

Definition Goal_eqb (a b : Goal) : bool :=
  match a, b with
  | IDLE, IDLE | GO_HOME, GO_HOME | GO_WORK, GO_WORK
  | GO_CAFE, GO_CAFE | GO_PARK, GO_PARK => true
  | _, _ => false
  end.

(** [ZoneType.value] and [Goal.value] *)
Definition ZoneType_value (t : ZoneType) : string :=
  match t with
  | HOME => "home" | WORK => "work" | CAFE => "cafe"
  | PARK => "park" | ROAD => "road"
  end.

Definition Goal_value (g : Goal) : string :=
  match g with
  | IDLE => "idle" | GO_HOME => "go_home" | GO_WORK => "go_work"
  | GO_CAFE => "go_cafe" | GO_PARK => "go_park"
  end.

(** [ZONE_FOR_GOAL.get(goal)] *)
Definition ZONE_FOR_GOAL (g : Goal) : option ZoneType :=
  match g with
  | GO_HOME => Some HOME
  | GO_WORK => Some WORK
  | GO_CAFE => Some CAFE
  | GO_PARK => Some PARK
  | IDLE => None
  end.

(** The keys of the [needs] dict, which [__post_init__] always creates with
    these four keys in this order; no method adds or removes a key. *)
Inductive Need : Type := hunger | energy | social | work.

Definition NEEDS : list Need := [hunger; energy; social; work].

Definition Need_key (n : Need) : string :=
  match n with
  | hunger => "hunger" | energy => "energy"
  | social => "social" | work => "work"
  end.

Definition Need_eqb (a b : Need) : bool :=
  match a, b with
  | hunger, hunger | energy, energy | social, social | work, work => true
  | _, _ => false
  end.

(** [ZONE_EFFECTS.get(type, {}).items()] *)
Definition ZONE_EFFECTS (t : ZoneType) : list (Need * Q) :=
  match t with
  | HOME => [(energy, 0.12%Q)]
  | WORK => [(work, 0.15%Q)]
  | CAFE => [(hunger, 0.18%Q); (social, 0.08%Q)]
  | PARK => [(energy, 0.06%Q); (social, 0.10%Q)]
  | ROAD => []
  end.

Definition NEED_FIX (n : Need) : string :=
  match n with
  | hunger => "go_cafe"
  | energy => "go_home"
  | social => "go_park"
  | work => "go_work"
  end.

(** [NEED_NAMES.get(k, k)] for a key of the needs dict. *)
Definition NEED_NAMES (n : Need) : string :=
  match n with
  | hunger => "Голод"
  | energy => "Энергия"
  | social => "Общение"
  | work => "Работа"
  end.

(** ** Zones *)

(** [pygame.Rect(x, y, w, h)] *)
Record Rect : Type := mkRect { rx : Z; ry : Z; rw : Z; rh : Z }.

Definition Rect_center (r : Rect) : Z * Z :=
  ((rx r + rw r / 2)%Z, (ry r + rh r / 2)%Z).

Definition Rect_eqb (a b : Rect) : bool :=
  ((rx a =? rx b) && (ry a =? ry b) && (rw a =? rw b) && (rh a =? rh b))%Z.

Definition Color : Type := (Z * Z * Z)%type.

Definition Color_eqb (a b : Color) : bool :=
  let '(r1, g1, b1) := a in
  let '(r2, g2, b2) := b in
  ((r1 =? r2) && (g1 =? g2) && (b1 =? b2))%Z.

Module Zone.
Record t : Type := mk {
  name : string;
  type : ZoneType;
  rect : Rect;
  color : Color;
}.

Definition center (z : t) : Z * Z := Rect_center (rect z).

(** The dataclass's generated [__eq__]: field by field. *)
Definition eqb (a b : t) : bool :=
  String.eqb (name a) (name b) && ZoneType_eqb (type a) (type b)
  && Rect_eqb (rect a) (rect b) && Color_eqb (color a) (color b).
End Zone.

(** [a == b] on [Optional[Zone]] *)
Definition opt_Zone_eqb (a b : option Zone.t) : bool :=
  match a, b with
  | Some x, Some y => Zone.eqb x y
  | None, None => true
  | _, _ => false
  end.

(** ** Decoded JSON and the library interface *)

#[local] Set Warnings "-register-all".

Inductive JSON : Type :=
| JNull
| JBool (b : bool)
| JInt (n : Z)
| JFloat (text : string)
| JStr (s : string)
| JArr (xs : list JSON)
| JObj (members : list (string * JSON)).

(** [type(v).__name__] of a decoded value. *)
Definition JSON_type_name (v : JSON) : string :=
  match v with
  | JNull => "NoneType"
  | JBool _ => "bool"
  | JInt _ => "int"
  | JFloat _ => "float"
  | JStr _ => "str"
  | JArr _ => "list"
  | JObj _ => "dict"
  end.

Class PyLib : Type := {
  (** [math.hypot(dx, dy)] *)
  hypot : Q -> Q -> Q;
  (** [rect.collidepoint(x, y)] *)
  collidepoint : Rect -> Q -> Q -> bool;
  (** [json.loads(text)]; [None] stands for [JSONDecodeError]. *)
  json_loads : string -> option JSON;
  (** [str(v)] on a decoded value; on a string it is the string itself. *)
  py_str : JSON -> string;
  py_str_JStr : forall s, py_str (JStr s) = s;
  (** [s.strip()]; on ASCII text it removes the ASCII white space at both
      ends. *)
  str_strip : string -> string;
  str_strip_ascii : forall s, Py.is_ascii s = true -> str_strip s = Py.ascii_strip s;
  (** [s.lower()]; on ASCII text it lowers the letters A to Z. *)
  str_lower : string -> string;
  str_lower_ascii : forall s, Py.is_ascii s = true -> str_lower s = Py.ascii_lower s;
  (** [repr(s)] of a string. *)
  py_repr : string -> string;
  py_repr_plain : forall s, Py.is_plain s = true -> py_repr s = ("'" ++ s ++ "'")%string;
}.

(** ** The zone graph *)

Module PathGraph.

Definition point : Type := (Z * Z)%type.

Record t : Type := mk {
  pos : Dict.t point;
  adj : Dict.t (list string);
}.

(** [adj.get(n, [])] *)
Definition neighbours (adj : Dict.t (list string)) (n : string) : list string :=
  match Dict.get n adj with
  | Some l => l
  | None => []
  end.

(** [adj[a].append(x)]; [a] is a key whenever [__init__] does this. *)
Definition append (a x : string) (adj : Dict.t (list string)) :
  Dict.t (list string) :=
  Dict.set a (neighbours adj a ++ [x]) adj.

(** Body of the inner loop of [__init__] (lines 118-121). *)
Definition link (a nb : string) (adj : Dict.t (list string)) :
  Dict.t (list string) :=
  let adj1 := if Py.mem nb (neighbours adj a) then adj else append a nb adj in
  if Py.mem a (neighbours adj1 nb) then adj1 else append nb a adj1.

(** [(d1, n1) < (d2, n2)] on tuples of a float and a string. *)
Definition tuple_ltb (x y : Q * string) : bool :=
  if Qeq_bool (fst x) (fst y) then String.ltb (snd x) (snd y)
  else Py.ltb (fst x) (fst y).

(** First loop of [__init__] (lines 107-109). *)
Definition register (g : t) (z : Zone.t) : t :=
  mk (Dict.set (Zone.name z) (Zone.center z) (pos g))
     (Dict.set (Zone.name z) [] (adj g)).

Section WithLib.
Context `{PyLib}.

(** The distance of line 114 between two centres. *)
Definition distance (pa pb : point) : Q :=
  hypot (inject_Z (fst pa - fst pb)) (inject_Z (snd pa - snd pb)).

(** The sorted list of line 113, for the entry [(a, pa)] of [pos]:
    [names] are the keys of [pos], so [pos[b]] is the value stored
    with [b]. *)
Definition dists (p : Dict.t point) (a : string) (pa : point) :
  list (Q * string) :=
  Py.sorted tuple_ltb
    (map (fun bp : string * point => (distance pa (snd bp), fst bp))
         (filter (fun bp : string * point => negb (String.eqb a (fst bp)))
                 (Dict.items p))).

(** [dists[:4]], names only. *)
Definition nearest (p : Dict.t point) (a : string) (pa : point) :
  list string :=
  map snd (firstn 4 (dists p a pa)).

(** One round of the outer loop (lines 112-121). *)
Definition connect (p : Dict.t point) (adj : Dict.t (list string))
  (ap : string * point) : Dict.t (list string) :=
  fold_left (fun adj nb => link (fst ap) nb adj)
            (nearest p (fst ap) (snd ap)) adj.

(** [PathGraph(zones)] *)
Definition __init__ (zones : list Zone.t) : t :=
  let g := fold_left register zones (mk Dict.empty Dict.empty) in
  mk (pos g) (fold_left (connect (pos g)) (Dict.items (pos g)) (adj g)).
End WithLib.

Section Routes.
Context `{PyLib}.

(** [str(KeyError(k))]: the [repr] of the key. *)
Definition key_error (k : string) : string := py_repr k.

(** [[self.pos[n] for n in path]] *)
Fixpoint centers (p : Dict.t point) (path : list string) :
  Py.result (list point) :=
  match path with
  | [] => Py.Ok []
  | n :: r =>
      match Dict.get n p with
      | None => Py.Exn (key_error n)
      | Some c =>
          match centers p r with
          | Py.Ok cs => Py.Ok (c :: cs)
          | Py.Exn e => Py.Exn e
          end
      end
  end.

End Routes.

(** The [for nb in ...] loop of [find] (lines 134-137) for the path just
    taken off the queue. *)
Fixpoint expand (path : list string) (nbs : list string)
  (queue : list (list string)) (seen : list string) :
  list (list string) * list string :=
  match nbs with
  | [] => (queue, seen)
  | nb :: r =>
      if Py.mem nb seen then expand path r queue seen
      else expand path r (queue ++ [path ++ [nb]]) (nb :: seen)
  end.

Inductive search : Type :=
| Reached (path : list string)
| QueueEmpty
| NoFuel.

(** The [while queue] loop (lines 130-137), at most [fuel] rounds. *)
Fixpoint bfs (fuel : nat) (adj : Dict.t (list string)) (goal : string)
  (queue : list (list string)) (seen : list string) : search :=
  match fuel with
  | O => NoFuel
  | S fuel' =>
      match queue with
      | [] => QueueEmpty
      | path :: rest =>
          if String.eqb (last path "") goal then Reached path
          else
            let '(queue', seen') :=
              expand path (neighbours adj (last path "")) rest seen in
            bfs fuel' adj goal queue' seen'
      end
  end.

(** A number of rounds the loop cannot exceed: every round takes one path
    off the queue, and every path put on it marks a name of some
    adjacency list as seen. *)
Definition rounds (adj : Dict.t (list string)) : nat :=
  2 + List.length (List.concat (Dict.values adj)).

Section Find.
Context `{PyLib}.

(** [find(start, end)] *)
Definition find (g : t) (start goal : string) : Py.result (list point) :=
  if String.eqb start goal then centers (pos g) [start]
  else
    match bfs (rounds (adj g)) (adj g) goal [[start]] [start] with
    | Reached path => centers (pos g) path
    | QueueEmpty | NoFuel => centers (pos g) [start; goal]
    end.
End Find.

End PathGraph.

(** ** Agents *)

(** The [needs] dict: its four values, in key order. *)
Record Needs : Type := mkNeeds {
  n_hunger : Q;
  n_energy : Q;
  n_social : Q;
  n_work : Q;
}.

(** [needs[k]] *)
Definition Needs_get (ns : Needs) (k : Need) : Q :=
  match k with
  | hunger => n_hunger ns
  | energy => n_energy ns
  | social => n_social ns
  | work => n_work ns
  end.

(** [needs[k] = v] *)
Definition Needs_set (k : Need) (v : Q) (ns : Needs) : Needs :=
  match k with
  | hunger => mkNeeds v (n_energy ns) (n_social ns) (n_work ns)
  | energy => mkNeeds (n_hunger ns) v (n_social ns) (n_work ns)
  | social => mkNeeds (n_hunger ns) (n_energy ns) v (n_work ns)
  | work => mkNeeds (n_hunger ns) (n_energy ns) (n_social ns) v
  end.

(** [needs.values()] *)
Definition Needs_values (ns : Needs) : list Q := map (Needs_get ns) NEEDS.

(** [min(needs, key=needs.get)] *)
Definition Needs_min (ns : Needs) : Need :=
  Py.min_key (Needs_get ns) hunger [energy; social; work].

Module Agent.

Record t : Type := mk {
  id : string;
  name : string;
  color : Color;
  home : Zone.t;
  graph : PathGraph.t;
  zones : list Zone.t;
  pos : Q * Q;
  zone : option Zone.t;
  health : Q;
  alive : bool;
  death_reason : string;
  thought : string;
  needs : Needs;
  goal : Goal;
  target : option Zone.t;
  path : list PathGraph.point;
  path_i : nat;
  wait : nat;
}.

(** Attribute assignments. *)
Definition set_zones (v : list Zone.t) (a : t) : t :=
  mk (id a) (name a) (color a) (home a) (graph a) v (pos a) (zone a)
     (health a) (alive a) (death_reason a) (thought a) (needs a) (goal a)
     (target a) (path a) (path_i a) (wait a).
Definition set_pos (v : Q * Q) (a : t) : t :=
  mk (id a) (name a) (color a) (home a) (graph a) (zones a) v (zone a)
     (health a) (alive a) (death_reason a) (thought a) (needs a) (goal a)
     (target a) (path a) (path_i a) (wait a).
Definition set_zone (v : option Zone.t) (a : t) : t :=
  mk (id a) (name a) (color a) (home a) (graph a) (zones a) (pos a) v
     (health a) (alive a) (death_reason a) (thought a) (needs a) (goal a)
     (target a) (path a) (path_i a) (wait a).
Definition set_health (v : Q) (a : t) : t :=
  mk (id a) (name a) (color a) (home a) (graph a) (zones a) (pos a) (zone a)
     v (alive a) (death_reason a) (thought a) (needs a) (goal a)
     (target a) (path a) (path_i a) (wait a).
Definition set_alive (v : bool) (a : t) : t :=
  mk (id a) (name a) (color a) (home a) (graph a) (zones a) (pos a) (zone a)
     (health a) v (death_reason a) (thought a) (needs a) (goal a)
     (target a) (path a) (path_i a) (wait a).
Definition set_death_reason (v : string) (a : t) : t :=
  mk (id a) (name a) (color a) (home a) (graph a) (zones a) (pos a) (zone a)
     (health a) (alive a) v (thought a) (needs a) (goal a)
     (target a) (path a) (path_i a) (wait a).
Definition set_needs (v : Needs) (a : t) : t :=
  mk (id a) (name a) (color a) (home a) (graph a) (zones a) (pos a) (zone a)
     (health a) (alive a) (death_reason a) (thought a) v (goal a)
     (target a) (path a) (path_i a) (wait a).
Definition set_goal (v : Goal) (a : t) : t :=
  mk (id a) (name a) (color a) (home a) (graph a) (zones a) (pos a) (zone a)
     (health a) (alive a) (death_reason a) (thought a) (needs a) v
     (target a) (path a) (path_i a) (wait a).
Definition set_target (v : option Zone.t) (a : t) : t :=
  mk (id a) (name a) (color a) (home a) (graph a) (zones a) (pos a) (zone a)
     (health a) (alive a) (death_reason a) (thought a) (needs a) (goal a)
     v (path a) (path_i a) (wait a).
Definition set_path (v : list PathGraph.point) (a : t) : t :=
  mk (id a) (name a) (color a) (home a) (graph a) (zones a) (pos a) (zone a)
     (health a) (alive a) (death_reason a) (thought a) (needs a) (goal a)
     (target a) v (path_i a) (wait a).
Definition set_path_i (v : nat) (a : t) : t :=
  mk (id a) (name a) (color a) (home a) (graph a) (zones a) (pos a) (zone a)
     (health a) (alive a) (death_reason a) (thought a) (needs a) (goal a)
     (target a) (path a) v (wait a).
Definition set_wait (v : nat) (a : t) : t :=
  mk (id a) (name a) (color a) (home a) (graph a) (zones a) (pos a) (zone a)
     (health a) (alive a) (death_reason a) (thought a) (needs a) (goal a)
     (target a) (path a) (path_i a) v.

(** [Agent(id, name, color, home, graph)] followed by [__post_init__];
    [ns] are the four values drawn by [random.uniform]. *)
Definition __init__ (i n : string) (c : Color) (h : Zone.t)
  (g : PathGraph.t) (ns : Needs) : t :=
  let '(cx, cy) := Zone.center h in
  mk i n c h g [] (inject_Z cx, inject_Z cy) (Some h) 100.0%Q true "" "..."
     ns IDLE None [] 0 0.

Section Assign.
Context `{PyLib}.

(** [assign(goal, target)] (lines 175-199). *)
Definition assign (g : Goal) (tg : option Zone.t) (a : t) : t * Py.outcome :=
  if negb (alive a) then (a, Py.Done)
  else if Goal_eqb g IDLE then
    (set_path [] (set_target None (set_goal IDLE a)), Py.Done)
  else if match zone a, tg with
          | Some z, Some z' => String.eqb (Zone.name z) (Zone.name z')
          | _, _ => false
          end
  then (a, Py.Done)
  else if Goal_eqb (goal a) g && opt_Zone_eqb (target a) tg
          && negb (match path a with [] => true | _ => false end)
  then (a, Py.Done)
  else
    let a1 := set_wait 0 (set_target tg (set_goal g a)) in
    match tg with
    | None => (a1, Py.Done)
    | Some z' =>
        let start :=
          match zone a1 with
          | Some z => Zone.name z
          | None => Zone.name (home a1)
          end in
        match PathGraph.find (graph a1) start (Zone.name z') with
        | Py.Ok p => (set_path_i 0 (set_path p a1), Py.Done)
        | Py.Exn e => (a1, Py.Raised e)
        end
    end.
End Assign.

(** [_decay] *)
Definition _decay (a : t) : t :=
  set_needs
    (fold_left
       (fun ns k =>
          Needs_set k (Py.max 0.0%Q (Needs_get ns k - Config.NEED_DECAY)%Q) ns)
       NEEDS (needs a))
    a.

(** [_zone_effect] *)
Definition _zone_effect (a : t) : t :=
  match zone a with
  | None => a
  | Some z =>
      set_needs
        (fold_left
           (fun ns (e : Need * Q) =>
              Needs_set (fst e)
                (Py.min 10.0%Q (Needs_get ns (fst e) + snd e)%Q) ns)
           (ZONE_EFFECTS (Zone.type z)) (needs a))
        a
  end.

(** [sum(1 for v in needs.values() if v < CRITICAL)] *)
Definition crit_count (ns : Needs) : nat :=
  List.length (filter (fun v => Py.ltb v Config.CRITICAL) (Needs_values ns)).

(** [_health_check] *)
Definition _health_check (a : t) : t :=
  let n := crit_count (needs a) in
  let a1 :=
    if (0 <? n)%nat
    then set_health (health a - 0.03 * inject_Z (Z.of_nat n))%Q a
    else set_health (Py.min Config.MAX_HEALTH (health a + 0.01)%Q) a in
  if Qle_bool (health a1) 0 then
    let a2 := set_health 0%Q (set_alive false a1) in
    let worst := Needs_min (needs a2) in
    set_path [] (set_death_reason (NEED_NAMES worst) a2)
  else a1.

Section WithLib.
Context `{PyLib}.

(** [_move] *)
Definition _move (a : t) : t :=
  match nth_error (path a) (path_i a) with
  | None => a
  | Some (tx, ty) =>
      let dx := (inject_Z tx - fst (pos a))%Q in
      let dy := (inject_Z ty - snd (pos a))%Q in
      let dist := hypot dx dy in
      if Py.ltb dist Config.MOVE_SPEED then
        let a1 := set_path_i (path_i a + 1)
                    (set_pos (inject_Z tx, inject_Z ty) a) in
        if (List.length (path a1) <=? path_i a1)%nat
        then set_wait 0 (set_goal IDLE (set_path [] a1))
        else a1
      else
        set_pos ((fst (pos a) + (dx / dist) * Config.MOVE_SPEED)%Q,
                 (snd (pos a) + (dy / dist) * Config.MOVE_SPEED)%Q) a
  end.

(** [_detect_zone] *)
Definition _detect_zone (a : t) : t :=
  set_zone
    (List.find
       (fun z => collidepoint (Zone.rect z) (fst (pos a)) (snd (pos a)))
       (zones a))
    a.

(** [tick] *)
Definition tick (a : t) : t :=
  if negb (alive a) then a
  else
    let a1 := _detect_zone (_move (_health_check (_zone_effect (_decay a)))) in
    if Goal_eqb (goal a1) IDLE then set_wait (wait a1 + 1) a1 else a1.
End WithLib.

(** [lowest_need] *)
Definition lowest_need (a : t) : Need * Q :=
  let k := Needs_min (needs a) in (k, Needs_get (needs a) k).

(** What [state_for_ai] puts into its text, field by field (the number
    formatting of the f-string is left out). *)
Record snapshot : Type := mkSnapshot {
  s_id : string;
  s_hp : Q;
  s_zone : string;
  s_needs : list (string * Q);
  s_worst : string * Q;
  s_status : string;
  s_fix : string;
}.

(** [state_for_ai] *)
Definition state_for_ai (a : t) : snapshot :=
  let '(low_k, low_v) := lowest_need a in
  let '(status, action) :=
    if Py.ltb low_v Config.CRITICAL then ("DYING", NEED_FIX low_k)
    else if Py.ltb low_v Config.LOW then ("LOW", NEED_FIX low_k)
    else ("OK", "any") in
  mkSnapshot (id a) (health a)
    (match zone a with Some z => ZoneType_value (Zone.type z) | None => "?" end)
    (map (fun k => (Need_key k, Needs_get (needs a) k)) NEEDS)
    (Need_key low_k, low_v) status action.

End Agent.

(** ** The world *)

Module World.

Record t : Type := mk {
  zones : list Zone.t;
  graph : PathGraph.t;
  agents : Dict.t Agent.t;
  tick_count : Z;
}.

Definition set_agents (v : Dict.t Agent.t) (w : t) : t :=
  mk (zones w) (graph w) v (tick_count w).

(** Colours of [Theme] used by the core. *)
Definition ZONE_HOME : Color := (40, 45, 75)%Z.
Definition ZONE_WORK : Color := (65, 50, 40)%Z.
Definition ZONE_CAFE : Color := (75, 55, 45)%Z.
Definition ZONE_PARK : Color := (35, 65, 45)%Z.
Definition ZONE_ROAD : Color := (30, 30, 35)%Z.
Definition BLUE : Color := (10, 132, 255)%Z.
Definition GREEN : Color := (48, 209, 88)%Z.
Definition ORANGE : Color := (255, 159, 10)%Z.

(** [_make_zones] *)
Definition _make_zones : list Zone.t :=
  [ Zone.mk "home_a" HOME (mkRect 50 70 130 130) ZONE_HOME;
    Zone.mk "home_b" HOME (mkRect 50 260 130 130) ZONE_HOME;
    Zone.mk "home_c" HOME (mkRect 50 450 130 130) ZONE_HOME;
    Zone.mk "office" WORK (mkRect 700 140 200 180) ZONE_WORK;
    Zone.mk "cafe" CAFE (mkRect 400 70 170 150) ZONE_CAFE;
    Zone.mk "park" PARK (mkRect 400 450 260 180) ZONE_PARK;
    Zone.mk "road" ROAD (mkRect 260 0 50 700) ZONE_ROAD ].

(** [zone_by_type] *)
Definition zone_by_type (w : t) (zt : ZoneType) : option Zone.t :=
  List.find (fun z => ZoneType_eqb (Zone.type z) zt) (zones w).

Section WithLib.
Context `{PyLib}.

(** [World()]: [_make_zones], the graph and [_make_agents]; the three
    arguments are the needs drawn at random for A, B and C.  The zone
    list has three homes, so [homes[0..2]] exist. *)
Definition __init__ (na nb nc : Needs) : t :=
  let zs := _make_zones in
  let g := PathGraph.__init__ zs in
  let homes := filter (fun z => ZoneType_eqb (Zone.type z) HOME) zs in
  let h (i : nat) := nth i homes (Zone.mk "" HOME (mkRect 0 0 0 0) ZONE_HOME) in
  let agent i n c k ns :=
    (i, Agent.set_zones zs (Agent.__init__ i n c (h k) g ns)) in
  mk zs g
     [ agent "A" "Alice" BLUE 0%nat na;
       agent "B" "Bob" GREEN 1%nat nb;
       agent "C" "Charlie" ORANGE 2%nat nc ]
     0.

(** [update] *)
Definition update (w : t) : t :=
  mk (zones w) (graph w)
     (map (fun ia : string * Agent.t => (fst ia, Agent.tick (snd ia)))
          (agents w))
     (tick_count w + 1).
End WithLib.

End World.

(** ** The decision layer *)

Module Brain.

Record t : Type := mk {
  world : World.t;
  raw : string;
  busy : bool;
}.

Definition set_world (v : World.t) (b : t) : t := mk v (raw b) (busy b).
Definition set_raw (v : string) (b : t) : t := mk (world b) v (busy b).
Definition set_busy (v : bool) (b : t) : t := mk (world b) (raw b) v.

(** [Brain(world)] *)
Definition __init__ (w : World.t) : t := mk w "" false.

(** What came back from the decision service for one request: an HTTP
    reply with its status and, for the body [r.json()], the value of
    [.get] of the key content with default the empty string; or an exception raised while posting or
    reading (a timeout, a connection error, an undecodable body), with
    its [str(e)]. *)
Inductive reply : Type :=
| Http (status : Z) (content : string)
| Failed (err : string).

(** [_ask]: the answer text, or the exception it raises. *)
Definition _ask (r : reply) : Py.result string :=
  match r with
  | Http status content =>
      if (status =? 200)%Z then Py.Ok content
      else Py.Exn ("HTTP " ++ Py.str_int status)
  | Failed err => Py.Exn err
  end.

(** [_prompt]: the status lines of the living agents, in dict order (the
    fixed text around them is left out). *)
Definition _prompt (b : t) : list Agent.snapshot :=
  map Agent.state_for_ai
      (filter Agent.alive (Dict.values (World.agents (world b)))).

(** [re.search] for the pattern [\{[\s\S]*\}]: from the first opening brace to
    the last closing brace after it. *)
Fixpoint from_open (s : string) : option string :=
  match s with
  | EmptyString => None
  | String c r => if Ascii.eqb c "{" then Some s else from_open r
  end.

Fixpoint upto_close (s : string) : option string :=
  match s with
  | EmptyString => None
  | String c r =>
      match upto_close r with
      | Some r' => Some (String c r')
      | None => if Ascii.eqb c "}" then Some (String c EmptyString) else None
      end
  end.

Definition search_braces (text : string) : option string :=
  match from_open text with
  | None => None
  | Some s => upto_close s
  end.

(** [goal_map.get(raw_goal)] *)
Definition goal_map (s : string) : option Goal :=
  if String.eqb s "idle" then Some IDLE
  else if String.eqb s "go_home" then Some GO_HOME
  else if String.eqb s "go_work" then Some GO_WORK
  else if String.eqb s "go_cafe" then Some GO_CAFE
  else if String.eqb s "go_park" then Some GO_PARK
  else None.

Section WithLib.
Context `{PyLib}.

(** [str(act.get(goal, empty)).strip().lower()]; a value that is not a
    dict has no [get] and raises [AttributeError]. *)
Definition raw_goal (act : JSON) : Py.result string :=
  match act with
  | JObj members =>
      Py.Ok (str_lower (str_strip
               (match Dict.get "goal" members with
                | Some v => py_str v
                | None => ""
                end)))
  | _ => Py.Exn ("'" ++ JSON_type_name act
                   ++ "' object has no attribute 'get'")
  end.

(** Body of the loop over [data.items()] (lines 418-444). *)
Definition apply_entry (w : World.t) (aid : string) (act : JSON) :
  World.t * Py.outcome :=
  match Dict.get aid (World.agents w) with
  | None => (w, Py.Done)
  | Some agent =>
      if negb (Agent.alive agent) then (w, Py.Done)
      else
        match raw_goal act with
        | Py.Exn e => (w, Py.Raised e)
        | Py.Ok s =>
            match goal_map s with
            | None => (w, Py.Done)
            | Some goal =>
                if Goal_eqb goal IDLE then (w, Py.Done)
                else
                  match ZONE_FOR_GOAL goal with
                  | None => (w, Py.Done)
                  | Some zone_type =>
                      let target :=
                        if Goal_eqb goal GO_HOME then Some (Agent.home agent)
                        else World.zone_by_type w zone_type in
                      match target with
                      | None => (w, Py.Done)
                      | Some z =>
                          let '(agent', o) :=
                            Agent.assign goal (Some z) agent in
                          (World.set_agents
                             (Dict.set aid agent' (World.agents w)) w, o)
                      end
                  end
            end
        end
  end.

(** The loop itself: an exception ends it. *)
Fixpoint apply_entries (w : World.t) (entries : list (string * JSON)) :
  World.t * Py.outcome :=
  match entries with
  | [] => (w, Py.Done)
  | (aid, act) :: r =>
      match apply_entry w aid act with
      | (w', Py.Done) => apply_entries w' r
      | (w', Py.Raised e) => (w', Py.Raised e)
      end
  end.

(** [_parse] *)
Definition _parse (text : string) (w : World.t) : World.t * Py.outcome :=
  match search_braces text with
  | None => (w, Py.Done)
  | Some m =>
      match json_loads m with
      | None => (w, Py.Done)
      | Some (JObj members) => apply_entries w members
      | Some v =>
          (w, Py.Raised ("'" ++ JSON_type_name v
                           ++ "' object has no attribute 'items'"))
      end
  end.

(** What one call of [decide] did besides changing the brain. *)
Inductive event : Type :=
| Asked (prompt : list Agent.snapshot)
| Parsed (text : string).

(** The [try] block of [decide] (lines 355-357), run on a brain that
    has just been marked busy; [r] is what the service sends back. *)
Definition attempt (r : reply) (b : t) : t * list event * Py.outcome :=
  let prompt := _prompt b in
  match _ask r with
  | Py.Exn e => (b, [Asked prompt], Py.Raised e)
  | Py.Ok text =>
      let b1 := set_raw text b in
      let '(w, o) := _parse text (world b1) in
      (set_world w b1, [Asked prompt; Parsed text], o)
  end.

(** [decide]: the busy guard, the [try] block, the [except Exception]
    handler and the [finally] clause.  The last component says whether
    an exception leaves the call. *)
Definition decide (r : reply) (b : t) : t * list event * Py.outcome :=
  if busy b then (b, [], Py.Done)
  else
    let '(b1, evs, o) := attempt r (set_busy true b) in
    let b2 :=
      match o with
      | Py.Done => b1
      | Py.Raised e => set_raw e b1
      end in
    (set_busy false b2, evs, Py.Done).
End WithLib.

End Brain.

(** ** A reference implementation of the library interface

    Used to run the model on concrete inputs.  [hypot] is the square root
    rounded down to six decimals; [collidepoint] is pygame's test (the right
    and bottom edges are outside); the decoder reads the JSON grammar
    restricted to objects, arrays, strings without [\u] escapes, integers
    and the three literals, and rejects trailing text as [json.loads]
    does; [str_strip], [str_lower] and [py_repr] treat every text as
    they treat ASCII text. *)

Module Ref.

Definition hypot (dx dy : Q) : Q :=
  let q := (dx * dx + dy * dy)%Q in
  Qmake (Z.sqrt ((Qnum q * 1000000000000) / Zpos (Qden q))) 1000000.

Definition collidepoint (r : Rect) (x y : Q) : bool :=
  Qle_bool (inject_Z (rx r)) x && Py.ltb x (inject_Z (rx r + rw r))
  && Qle_bool (inject_Z (ry r)) y && Py.ltb y (inject_Z (ry r + rh r)).

Definition is_ws (c : ascii) : bool :=
  let n := nat_of_ascii c in
  ((n =? 32) || (n =? 9) || (n =? 10) || (n =? 13))%nat.

Fixpoint skip_ws (s : string) : string :=
  match s with
  | String c r => if is_ws c then skip_ws r else s
  | EmptyString => EmptyString
  end.

Definition is_digit (c : ascii) : bool :=
  let n := nat_of_ascii c in ((48 <=? n) && (n <=? 57))%nat.

(** The characters of a string literal after its opening quote, and the
    text after its closing quote. *)
Fixpoint string_body (s : string) : option (string * string) :=
  match s with
  | EmptyString => None
  | String c r =>
      if Ascii.eqb c Py.dquote then Some (EmptyString, r)
      else if Ascii.eqb c "\" then
        match r with
        | String e r' =>
            let unescaped :=
              if Ascii.eqb e Py.dquote then Some Py.dquote
              else if Ascii.eqb e "\" then Some "\"%char
              else if Ascii.eqb e "/" then Some "/"%char
              else if Ascii.eqb e "b" then Some (ascii_of_nat 8)
              else if Ascii.eqb e "f" then Some (ascii_of_nat 12)
              else if Ascii.eqb e "n" then Some (ascii_of_nat 10)
              else if Ascii.eqb e "r" then Some (ascii_of_nat 13)
              else if Ascii.eqb e "t" then Some (ascii_of_nat 9)
              else None in
            match unescaped, string_body r' with
            | Some u, Some (body, rest) => Some (String u body, rest)
            | _, _ => None
            end
        | EmptyString => None
        end
      else if (nat_of_ascii c <? 32)%nat then None
      else
        match string_body r with
        | Some (body, rest) => Some (String c body, rest)
        | None => None
        end
  end.

(** The digits at the head of [s], as a number, and the rest. *)
Fixpoint digits (acc : Z) (s : string) : Z * string :=
  match s with
  | String c r =>
      if is_digit c
      then digits (10 * acc + Z.of_nat (nat_of_ascii c - 48)) r
      else (acc, s)
  | EmptyString => (acc, s)
  end.

(** An integer literal: no leading zero, no fraction, no exponent. *)
Definition natural (s : string) : option (Z * string) :=
  match s with
  | String c r =>
      if negb (is_digit c) then None
      else
        let '(n, rest) := digits 0 s in
        if Ascii.eqb c "0" && negb (String.eqb rest r) then None
        else
          match rest with
          | String d _ =>
              if Ascii.eqb d "." || Ascii.eqb d "e" || Ascii.eqb d "E"
              then None else Some (n, rest)
          | EmptyString => Some (n, rest)
          end
  | EmptyString => None
  end.

Definition after (p s : string) : option string :=
  if String.prefix p s
  then Some (String.substring (String.length p)
               (String.length s - String.length p) s)
  else None.

(** The elements of an array after its first one: [, value]* followed
    by the closing bracket. *)
Fixpoint elements (value : string -> option (JSON * string)) (fuel : nat)
  (s : string) (acc : list JSON) : option (JSON * string) :=
  match fuel with
  | O => None
  | S fuel' =>
      match skip_ws s with
      | String c r =>
          if Ascii.eqb c "]" then Some (JArr acc, r)
          else if Ascii.eqb c "," then
            match value r with
            | Some (v, rest) => elements value fuel' rest (acc ++ [v])
            | None => None
            end
          else None
      | EmptyString => None
      end
  end.

(** One member [key : value] of an object. *)
Definition member (value : string -> option (JSON * string)) (s : string) :
  option (string * JSON * string) :=
  match skip_ws s with
  | String q r =>
      if Ascii.eqb q Py.dquote then
        match string_body r with
        | Some (k, rest) =>
            match skip_ws rest with
            | String c rest' =>
                if Ascii.eqb c ":" then
                  match value rest' with
                  | Some (v, rest'') => Some (k, v, rest'')
                  | None => None
                  end
                else None
            | EmptyString => None
            end
        | None => None
        end
      else None
  | EmptyString => None
  end.

(** The members of an object after its first one; a repeated key keeps
    its place and takes the later value. *)
Fixpoint members (value : string -> option (JSON * string)) (fuel : nat)
  (s : string) (acc : list (string * JSON)) : option (JSON * string) :=
  match fuel with
  | O => None
  | S fuel' =>
      match skip_ws s with
      | String c r =>
          if Ascii.eqb c "}" then Some (JObj acc, r)
          else if Ascii.eqb c "," then
            match member value r with
            | Some (k, v, rest) => members value fuel' rest (Dict.set k v acc)
            | None => None
            end
          else None
      | EmptyString => None
      end
  end.

Fixpoint value (fuel : nat) (s : string) : option (JSON * string) :=
  match fuel with
  | O => None
  | S fuel' =>
      match skip_ws s with
      | EmptyString => None
      | String c r as s' =>
          if Ascii.eqb c "{" then
            match skip_ws r with
            | String "}" r' => Some (JObj [], r')
            | _ =>
                match member (value fuel') r with
                | Some (k, v, rest) => members (value fuel') fuel' rest [(k, v)]
                | None => None
                end
            end
          else if Ascii.eqb c "[" then
            match skip_ws r with
            | String "]" r' => Some (JArr [], r')
            | _ =>
                match value fuel' r with
                | Some (v, rest) => elements (value fuel') fuel' rest [v]
                | None => None
                end
            end
          else if Ascii.eqb c Py.dquote then
            match string_body r with
            | Some (x, rest) => Some (JStr x, rest)
            | None => None
            end
          else if Ascii.eqb c "-" then
            match natural r with
            | Some (n, rest) => Some (JInt (- n), rest)
            | None => None
            end
          else if is_digit c then
            match natural s' with
            | Some (n, rest) => Some (JInt n, rest)
            | None => None
            end
          else
            match after "true" s', after "false" s', after "null" s' with
            | Some rest, _, _ => Some (JBool true, rest)
            | _, Some rest, _ => Some (JBool false, rest)
            | _, _, Some rest => Some (JNull, rest)
            | _, _, _ => None
            end
      end
  end.

Definition json_loads (text : string) : option JSON :=
  match value (S (String.length text)) text with
  | Some (v, rest) =>
      match skip_ws rest with
      | EmptyString => Some v
      | _ => None
      end
  | None => None
  end.

Definition py_str (v : JSON) : string :=
  match v with
  | JStr x => x
  | JNull => "None"
  | JBool true => "True"
  | JBool false => "False"
  | JInt n => Py.str_int n
  | JFloat text => text
  | JArr _ => "[...]"
  | JObj _ => "{...}"
  end.

#[export] Instance lib : PyLib :=
  Build_PyLib hypot collidepoint json_loads py_str (fun s => eq_refl)
    Py.ascii_strip (fun s _ => eq_refl) Py.ascii_lower (fun s _ => eq_refl)
    (fun s => ("'" ++ s ++ "'")%string) (fun s _ => eq_refl).
End Ref.

(** ** Properties stated about the model *)

(** A need is a value of [0, 10]; health is a value of [0, 100]. *)
Definition needs_in_range (ns : Needs) : Prop :=
  forall k : Need, (0 <= Needs_get ns k /\ Needs_get ns k <= 10)%Q.

Definition health_in_range (h : Q) : Prop := (0 <= h /\ h <= 100)%Q.

Definition in_range (a : Agent.t) : Prop :=
  needs_in_range (Agent.needs a) /\ health_in_range (Agent.health a).

(** No need is below the critical threshold. *)
Definition none_critical (ns : Needs) : Prop :=
  forall k : Need, (Config.CRITICAL <= Needs_get ns k)%Q.

(** Inside [tick]: the state in which [_health_check] runs, and the state
    in which [_move] runs. *)
Definition fed (a : Agent.t) : Agent.t := Agent._zone_effect (Agent._decay a).
Definition checked (a : Agent.t) : Agent.t := Agent._health_check (fed a).

(** What can be done to an agent from outside: a tick of the world, or a
    goal assignment by the decision layer. *)
Inductive action : Type :=
| Tick
| Assign (g : Goal) (target : option Zone.t).

Section Runs.
Context `{PyLib}.

Definition perform (a : Agent.t) (x : action) : Agent.t :=
  match x with
  | Tick => Agent.tick a
  | Assign g tg => fst (Agent.assign g tg a)
  end.

(** The agent after a sequence of actions. *)
Definition run (xs : list action) (a : Agent.t) : Agent.t :=
  fold_left perform xs a.

(** The states an agent goes through: the one it starts in, then the one
    after each action. *)
Fixpoint history (xs : list action) (a : Agent.t) : list Agent.t :=
  match xs with
  | [] => [a]
  | x :: r => a :: history r (perform a x)
  end.

(** [n] ticks in a row. *)
Definition ticks (n : nat) (a : Agent.t) : Agent.t :=
  Nat.iter n Agent.tick a.
End Runs.

(** How often the alive flag goes from true to false along a list of
    states. *)
Fixpoint deaths (states : list Agent.t) : nat :=
  match states with
  | a :: ((b :: _) as r) =>
      (if Agent.alive a && negb (Agent.alive b) then 1 else 0) + deaths r
  | _ => 0
  end.

(** [k] is the first key, in the order of the needs dict, whose value is
    the smallest. *)
Definition first_lowest (ns : Needs) (k : Need) : Prop :=
  exists before after,
    NEEDS = before ++ k :: after
    /\ (forall j, In j before -> (Needs_get ns k < Needs_get ns j)%Q)
    /\ (forall j, In j after -> (Needs_get ns k <= Needs_get ns j)%Q).

(** The character [c] does not occur in [s]. *)
Definition no_char (c : ascii) (s : string) : Prop :=
  ~ In c (list_ascii_of_string s).

(** A request that fails in transport, with the text of the exception that
    [_ask] raises: the post or the reading of the body raises (a timeout
    among them), or the status is not 200. *)
Definition transport_error (r : Brain.reply) (e : string) : Prop :=
  r = Brain.Failed e
  \/ exists status content,
       r = Brain.Http status content /\ status <> 200%Z
       /\ e = ("HTTP " ++ Py.str_int status)%string.

(** An answer text in which no braces are found, or whose braces do not
    hold JSON. *)
Definition parse_error `{PyLib} (text : string) : Prop :=
  Brain.search_braces text = None
  \/ exists m, Brain.search_braces text = Some m /\ json_loads m = None.

(** Zone [z] is not the zone the agent stands in. *)
Definition outside (a : Agent.t) (z : Zone.t) : Prop :=
  match Agent.zone a with
  | Some za => Zone.name za <> Zone.name z
  | None => True
  end.

(** A walk in the adjacency structure: each name is in the list of the one
    before it. *)
Fixpoint chain (adj : Dict.t (list string)) (p : list string) : Prop :=
  match p with
  | x :: ((y :: _) as r) => In y (PathGraph.neighbours adj x) /\ chain adj r
  | _ => True
  end.

(** [p] is a walk from [a] to [b]. *)
Definition route (adj : Dict.t (list string)) (a b : string)
  (p : list string) : Prop :=
  chain adj p /\ hd_error p = Some a /\ last p "" = b.

Definition connected (adj : Dict.t (list string)) (a b : string) : Prop :=
  exists p, route adj a b p.

(** [v] can be reached from [a] in [n] steps along adjacency lists. *)
Inductive reach (adj : Dict.t (list string)) (a : string) : nat -> string -> Prop :=
| reach_here : reach adj a 0 a
| reach_step (n : nat) (u v : string) :
    reach adj a n u -> In v (PathGraph.neighbours adj u) -> reach adj a (S n) v.

(** The names that the inner loop of [find] adds to [seen], in the order
    in which it meets them. *)
Fixpoint fresh (nbs seen : list string) : list string :=
  match nbs with
  | [] => []
  | nb :: r =>
      if Py.mem nb seen then fresh r seen else nb :: fresh r (nb :: seen)
  end.

(** The names in adjacency lists that are not yet seen, with repetitions,
    and the measure that every round of the loop of [find] lowers. *)
Definition unseen (adj : Dict.t (list string)) (seen : list string) : nat :=
  List.length
    (filter (fun x => negb (Py.mem x seen)) (List.concat (Dict.values adj))).

Definition measure (adj : Dict.t (list string)) (queue : list (list string))
  (seen : list string) : nat :=
  List.length queue + unseen adj seen.

(** What holds of the queue and the seen set at the head of the loop of
    [find a e]: the queue is [q1 ++ q2], the paths of [q1] have [d] steps
    and those of [q2] one more; every path is a shortest walk from [a] to a
    seen name; a seen name is the end of a queued path or has been taken
    off the queue (then it is not [e] and its neighbours are seen); and all
    names within [d] steps of [a] are seen. *)
Record bfs_inv (adj : Dict.t (list string)) (a e : string) (d : nat)
  (q1 q2 : list (list string)) (seen : list string) : Prop := {
  inv_start : In a seen;
  inv_paths :
    forall p, In p (q1 ++ q2) ->
      p <> [] /\ chain adj p /\ hd_error p = Some a /\ In (last p "") seen
      /\ (forall m, reach adj a m (last p "") -> (List.length p <= S m)%nat);
  inv_q1 : forall p, In p q1 -> List.length p = S d;
  inv_q2 : forall p, In p q2 -> List.length p = S (S d);
  inv_seen :
    forall v, In v seen ->
      (exists p, In p (q1 ++ q2) /\ last p "" = v)
      \/ (v <> e /\ forall w, In w (PathGraph.neighbours adj v) -> In w seen);
  inv_near : forall m v, reach adj a m v -> (m <= d)%nat -> In v seen;
}.

(** The graph after the first loop of the constructor. *)
Definition registered (zones : list Zone.t) (g : PathGraph.t) : PathGraph.t :=
  fold_left PathGraph.register zones g.

(** The discipline of the path and its cursor: a path is only held while
    the goal is not IDLE, and the cursor points into a path that is held. *)
Definition path_discipline (a : Agent.t) : Prop :=
  (Agent.path a <> [] -> Agent.goal a <> IDLE)
  /\ (Agent.path a = [] \/ (Agent.path_i a < List.length (Agent.path a))%nat).

(** Two states of an agent that differ at most in goal, target, path,
    cursor and wait counter. *)
Definition same_body (a a' : Agent.t) : Prop :=
  Agent.id a' = Agent.id a /\ Agent.name a' = Agent.name a
  /\ Agent.color a' = Agent.color a /\ Agent.home a' = Agent.home a
  /\ Agent.graph a' = Agent.graph a /\ Agent.zones a' = Agent.zones a
  /\ Agent.pos a' = Agent.pos a /\ Agent.zone a' = Agent.zone a
  /\ Agent.health a' = Agent.health a /\ Agent.alive a' = Agent.alive a
  /\ Agent.death_reason a' = Agent.death_reason a
  /\ Agent.thought a' = Agent.thought a /\ Agent.needs a' = Agent.needs a.

(** The agent lives in the world of its graph: the graph is the one built
    from its zone list, which holds its home and the zone it stands in. *)
Definition at_home_in `{PyLib} (zs : list Zone.t) (a : Agent.t) : Prop :=
  Agent.graph a = PathGraph.__init__ zs
  /\ In (Agent.home a) zs
  /\ match Agent.zone a with Some z => In z zs | None => True end.

(** The state in the middle of an assignment that goes through (lines
    191-193): goal, target and wait counter are set, the path is not yet. *)
Definition retargeted (g : Goal) (tg : option Zone.t) (a : Agent.t) : Agent.t :=
  Agent.set_wait 0 (Agent.set_target tg (Agent.set_goal g a)).

(** The worlds a reply can lead to: the same zones, graph, tick counter and
    ids, and agents that differ at most in what an assignment sets. *)
Definition reassigned (w w' : World.t) : Prop :=
  World.zones w' = World.zones w
  /\ World.graph w' = World.graph w
  /\ World.tick_count w' = World.tick_count w
  /\ Dict.keys (World.agents w') = Dict.keys (World.agents w)
  /\ forall i a, Dict.get i (World.agents w) = Some a ->
                 exists a', Dict.get i (World.agents w') = Some a' /\ same_body a a'.

Section WorldRuns.
Context `{PyLib}.

(** [n] calls of [update]. *)
Definition updates (n : nat) (w : World.t) : World.t :=
  Nat.iter n World.update w.
End WorldRuns.

(** ** Concrete data *)

Module Demo.

Definition quoted (s : string) : string :=
  String Py.dquote s ++ String Py.dquote "".

(** The object of the example reply, and the reply around it. *)
Definition cafe_object : string :=
  "{" ++ quoted "A" ++ ":{" ++ quoted "goal" ++ ":" ++ quoted "go_cafe" ++ "}}".

Definition cafe_reply : string := "blah " ++ cafe_object ++ " blah".

Definition cafe_entries : list (string * JSON) :=
  [("A", JObj [("goal", JStr "go_cafe")])].

(** The same object followed by a second pair of braces. *)
Definition two_objects : string := cafe_object ++ " {}".

Definition needs0 : Needs := mkNeeds 6.0%Q 6.5%Q 5.0%Q 5.0%Q.

(** The world as [World()] builds it. *)
Definition world0 : World.t := World.__init__ (H := Ref.lib) needs0 needs0 needs0.

Definition agent_named (w : World.t) (i : string) (d : Agent.t) : Agent.t :=
  match Dict.get i (World.agents w) with
  | Some a => a
  | None => d
  end.

Definition alice : Agent.t :=
  Agent.set_zones World._make_zones
    (Agent.__init__ "A" "Alice" World.BLUE
       (Zone.mk "home_a" HOME (mkRect 50 70 130 130) World.ZONE_HOME)
       (PathGraph.__init__ (H := Ref.lib) World._make_zones) needs0).

Definition cafe : Zone.t :=
  Zone.mk "cafe" CAFE (mkRect 400 70 170 150) World.ZONE_CAFE.

(** Alice with hunger at 0 and almost no health left. *)
Definition starving : Agent.t :=
  Agent.set_health 0.02%Q
    (Agent.set_needs (mkNeeds 0.0%Q 6.5%Q 5.0%Q 5.0%Q) alice).



(** Alice two units before the last waypoint of her way to the cafe. *)
Definition arriving : Agent.t :=
  Agent.set_path_i 1
    (Agent.set_path [(115, 135); (485, 145)]%Z
       (Agent.set_target (Some cafe)
          (Agent.set_goal GO_CAFE
             (Agent.set_zone (Some cafe)
                (Agent.set_pos (483.0%Q, 145.0%Q) alice))))).

(** Alice idle inside the cafe, and the world with her there. *)
Definition at_cafe : Agent.t :=
  Agent.set_zone (Some cafe) (Agent.set_pos (485.0%Q, 145.0%Q) alice).

Definition world_cafe : World.t :=
  World.set_agents (Dict.set "A" at_cafe (World.agents world0)) world0.

Definition brain0 : Brain.t := Brain.__init__ world0.

End Demo.

(** Further replies: one whose second entry is a number instead of an
    object, and one that names an agent the world does not have. *)
Module Replies.

Definition bad_second_entry : string :=
  "{" ++ Demo.quoted "A" ++ ":{" ++ Demo.quoted "goal" ++ ":"
      ++ Demo.quoted "go_cafe" ++ "}," ++ Demo.quoted "B" ++ ":5,"
      ++ Demo.quoted "C" ++ ":{" ++ Demo.quoted "goal" ++ ":"
      ++ Demo.quoted "go_park" ++ "}}".

Definition unknown_agent : string :=
  "{" ++ Demo.quoted "Z" ++ ":{" ++ Demo.quoted "goal" ++ ":"
      ++ Demo.quoted "go_work" ++ "}}".

(** Three zones in a row. *)
Definition three_zones : list Zone.t :=
  [ Zone.mk "west" HOME (mkRect 0 0 10 10) World.ZONE_HOME;
    Zone.mk "mid" CAFE (mkRect 100 0 10 10) World.ZONE_CAFE;
    Zone.mk "east" PARK (mkRect 300 0 10 10) World.ZONE_PARK ].

End Replies.

(** Closes a goal about concrete data by evaluating it. *)
Ltac by_computation :=
  vm_compute; first [reflexivity | discriminate | intro; discriminate].

(** * Numbers and needs *)

(** * Facts about the Python built-ins *)

Lemma ltb_true (x y : Q) : Py.ltb x y = true <-> (x < y)%Q.
Proof.
  unfold Py.ltb. rewrite negb_true_iff.
  split; intro E.
  - apply Qnot_le_lt. intro L. apply Qle_bool_iff in L. congruence.
  - destruct (Qle_bool y x) eqn:B; [|reflexivity].
    apply Qle_bool_iff in B. exfalso. apply (Qlt_not_le _ _ E B).
Qed.

Lemma ltb_false (x y : Q) : Py.ltb x y = false <-> (y <= x)%Q.
Proof.
  unfold Py.ltb. rewrite negb_false_iff. apply Qle_bool_iff.
Qed.

Lemma ltb_spec (x y : Q) : reflect (x < y)%Q (Py.ltb x y).
Proof.
  destruct (Py.ltb x y) eqn:E; constructor.
  - now apply ltb_true.
  - apply ltb_false in E. now apply Qle_not_lt.
Qed.

Lemma max_lower (a b : Q) : (a <= Py.max a b)%Q.
Proof. unfold Py.max. destruct (ltb_spec a b); lra. Qed.

Lemma max_upper (a b c : Q) : (a <= c)%Q -> (b <= c)%Q -> (Py.max a b <= c)%Q.
Proof. unfold Py.max. destruct (ltb_spec a b); lra. Qed.

Lemma min_upper (a b : Q) : (Py.min a b <= a)%Q.
Proof. unfold Py.min. destruct (ltb_spec b a); lra. Qed.

Lemma min_lower (a b c : Q) : (c <= a)%Q -> (c <= b)%Q -> (c <= Py.min a b)%Q.
Proof. unfold Py.min. destruct (ltb_spec b a); lra. Qed.

(** * Facts about the needs dict *)

Lemma Needs_get_set (ns : Needs) (k j : Need) (v : Q) :
  Needs_get (Needs_set k v ns) j = if Need_eqb k j then v else Needs_get ns j.
Proof. destruct k, j; reflexivity. Qed.

Lemma needs_in_range_set (ns : Needs) (k : Need) (v : Q) :
  needs_in_range ns -> (0 <= v)%Q -> (v <= 10)%Q ->
  needs_in_range (Needs_set k v ns).
Proof.
  intros R L U j. rewrite Needs_get_set.
  destruct (Need_eqb k j); [split; assumption | apply R].
Qed.

Lemma decay_in_range (ns : Needs) (ks : list Need) :
  needs_in_range ns ->
  needs_in_range
    (fold_left
       (fun ns k =>
          Needs_set k (Py.max 0.0%Q (Needs_get ns k - Config.NEED_DECAY)%Q) ns)
       ks ns).
Proof.
  revert ns. induction ks as [|k ks IH]; intros ns R; simpl; [exact R|].
  apply IH. apply needs_in_range_set; [exact R | |].
  - eapply Qle_trans; [|apply max_lower]. unfold Qle; simpl; lia.
  - destruct (R k). apply max_upper.
    + unfold Qle; simpl; lia.
    + unfold Config.NEED_DECAY. lra.
Qed.

Lemma effect_in_range (ns : Needs) (es : list (Need * Q)) :
  Forall (fun e => (0 <= snd e)%Q) es ->
  needs_in_range ns ->
  needs_in_range
    (fold_left
       (fun ns (e : Need * Q) =>
          Needs_set (fst e) (Py.min 10.0%Q (Needs_get ns (fst e) + snd e)%Q) ns)
       es ns).
Proof.
  intro F. revert ns. induction F as [|e es P F IH]; intros ns R; simpl; [exact R|].
  apply IH. apply needs_in_range_set; [exact R | |].
  - destruct (R (fst e)). apply min_lower; [unfold Qle; simpl; lia | lra].
  - eapply Qle_trans; [apply min_upper|]. unfold Qle; simpl; lia.
Qed.

Lemma ZONE_EFFECTS_nonneg (t : ZoneType) :
  Forall (fun e => (0 <= snd e)%Q) (ZONE_EFFECTS t).
Proof.
  destruct t; simpl; repeat constructor; unfold Qle; simpl; lia.
Qed.

Section AgentFacts.
Context `{PyLib}.

Lemma decay_keeps_range (a : Agent.t) :
  in_range a -> in_range (Agent._decay a).
Proof.
  intros [R Hh]. split; [|exact Hh]. apply decay_in_range, R.
Qed.

Lemma zone_effect_keeps_range (a : Agent.t) :
  in_range a -> in_range (Agent._zone_effect a).
Proof.
  intros [R Hh]. unfold Agent._zone_effect.
  destruct (Agent.zone a) as [z|]; [|split; assumption].
  split; [|exact Hh]. apply effect_in_range; [apply ZONE_EFFECTS_nonneg | exact R].
Qed.

Lemma health_check_needs (a : Agent.t) :
  Agent.needs (Agent._health_check a) = Agent.needs a.
Proof.
  unfold Agent._health_check.
  destruct (0 <? Agent.crit_count (Agent.needs a))%nat;
    match goal with |- context [Qle_bool ?h 0] => destruct (Qle_bool h 0) end;
    reflexivity.
Qed.

Lemma health_check_keeps_range (a : Agent.t) :
  in_range a -> in_range (Agent._health_check a).
Proof.
  intros [R [L U]]. split; [rewrite health_check_needs; exact R|].
  unfold Agent._health_check.
  destruct (0 <? Agent.crit_count (Agent.needs a))%nat eqn:C; cbn zeta.
  - match goal with |- context [Qle_bool ?h 0] => destruct (Qle_bool h 0) eqn:B end.
    + simpl. split; unfold Qle; simpl; lia.
    + simpl in *. split.
      * apply Qlt_le_weak, Qnot_le_lt. intro L'. apply Qle_bool_iff in L'. congruence.
      * apply Nat.ltb_lt in C.
        assert (0 <= inject_Z (Z.of_nat (Agent.crit_count (Agent.needs a))))%Q
          by (unfold Qle; simpl; lia).
        nra.
  - match goal with |- context [Qle_bool ?h 0] => destruct (Qle_bool h 0) eqn:B end.
    + simpl. split; unfold Qle; simpl; lia.
    + simpl in *. split.
      * apply Qlt_le_weak, Qnot_le_lt. intro L'. apply Qle_bool_iff in L'. congruence.
      * eapply Qle_trans; [apply min_upper|]. unfold Qle; simpl; lia.
Qed.

Lemma move_needs_health (a : Agent.t) :
  Agent.needs (Agent._move a) = Agent.needs a
  /\ Agent.health (Agent._move a) = Agent.health a.
Proof.
  unfold Agent._move.
  destruct (nth_error (Agent.path a) (Agent.path_i a)) as [[tx ty]|]; [|auto].
  destruct (Py.ltb _ _); [|auto].
  destruct (_ <=? _)%nat; auto.
Qed.

(** The end of [tick], after [_move]: only the zone and the wait counter
    change. *)
Lemma tick_tail_fields (b : Agent.t) :
  let a1 := Agent._detect_zone b in
  let r := if Goal_eqb (Agent.goal a1) IDLE
           then Agent.set_wait (Agent.wait a1 + 1) a1 else a1 in
  Agent.needs r = Agent.needs b
  /\ Agent.health r = Agent.health b
  /\ Agent.alive r = Agent.alive b
  /\ Agent.death_reason r = Agent.death_reason b
  /\ Agent.target r = Agent.target b
  /\ Agent.path r = Agent.path b
  /\ Agent.goal r = Agent.goal b
  /\ Agent.pos r = Agent.pos b.
Proof.
  cbn zeta. destruct (Goal_eqb _ IDLE); repeat split; reflexivity.
Qed.

Lemma tick_in_range (a : Agent.t) : in_range a -> in_range (Agent.tick a).
Proof.
  intro R. unfold Agent.tick. destruct (negb (Agent.alive a)); [exact R|].
  apply decay_keeps_range, zone_effect_keeps_range, health_check_keeps_range in R.
  destruct (move_needs_health (Agent._health_check (Agent._zone_effect (Agent._decay a))))
    as [En Eh].
  destruct (tick_tail_fields
              (Agent._move (Agent._health_check (Agent._zone_effect (Agent._decay a)))))
    as (Tn & Th & _).
  cbn zeta in Tn, Th. destruct R as [Rn Rh].
  split; [rewrite Tn, En | rewrite Th, Eh]; assumption.
Qed.
End AgentFacts.

(** * The steps of a tick *)

Section AgentSteps.
Context `{PyLib}.

Lemma tick_dead (a : Agent.t) : Agent.alive a = false -> Agent.tick a = a.
Proof. intro D. unfold Agent.tick. now rewrite D. Qed.

Lemma assign_dead (a : Agent.t) (g : Goal) (tg : option Zone.t) :
  Agent.alive a = false -> Agent.assign g tg a = (a, Py.Done).
Proof. intro D. unfold Agent.assign. now rewrite D. Qed.

Lemma perform_dead (a : Agent.t) (x : action) :
  Agent.alive a = false -> perform a x = a.
Proof.
  intro D. destruct x; simpl.
  - now apply tick_dead.
  - now rewrite assign_dead.
Qed.

Lemma run_dead (xs : list action) (a : Agent.t) :
  Agent.alive a = false -> run xs a = a.
Proof.
  intro D. unfold run. induction xs as [|x xs IH]; simpl; [reflexivity|].
  now rewrite perform_dead.
Qed.

Lemma history_dead (xs : list action) (a : Agent.t) :
  Agent.alive a = false -> deaths (history xs a) = 0%nat.
Proof.
  intro D. induction xs as [|x xs IH]; simpl; [reflexivity|].
  rewrite perform_dead by exact D.
  destruct (history xs a) eqn:E; [reflexivity|].
  rewrite D. simpl. destruct xs; simpl in E; injection E as <- <-; exact IH.
Qed.

(** The alive flag of [assign]'s result is that of its argument. *)
Lemma assign_alive (a : Agent.t) (g : Goal) (tg : option Zone.t) :
  Agent.alive (fst (Agent.assign g tg a)) = Agent.alive a.
Proof.
  unfold Agent.assign.
  destruct (negb (Agent.alive a)); [reflexivity|].
  destruct (Goal_eqb g IDLE); [reflexivity|].
  destruct (match Agent.zone a with Some _ => _ | None => _ end); [reflexivity|].
  destruct (_ && _ && _); [reflexivity|].
  destruct tg as [z|]; [|reflexivity].
  destruct (PathGraph.find _ _ _); reflexivity.
Qed.

Lemma move_alive (a : Agent.t) : Agent.alive (Agent._move a) = Agent.alive a.
Proof.
  unfold Agent._move.
  destruct (nth_error (Agent.path a) (Agent.path_i a)) as [[tx ty]|]; [|auto].
  destruct (Py.ltb _ _); [|auto].
  destruct (_ <=? _)%nat; auto.
Qed.

Lemma move_target (a : Agent.t) : Agent.target (Agent._move a) = Agent.target a.
Proof.
  unfold Agent._move.
  destruct (nth_error (Agent.path a) (Agent.path_i a)) as [[tx ty]|]; [|auto].
  destruct (Py.ltb _ _); [|auto].
  destruct (_ <=? _)%nat; auto.
Qed.

Lemma move_death_reason (a : Agent.t) :
  Agent.death_reason (Agent._move a) = Agent.death_reason a.
Proof.
  unfold Agent._move.
  destruct (nth_error (Agent.path a) (Agent.path_i a)) as [[tx ty]|]; [|auto].
  destruct (Py.ltb _ _); [|auto].
  destruct (_ <=? _)%nat; auto.
Qed.

Lemma move_no_path (a : Agent.t) : Agent.path a = [] -> Agent._move a = a.
Proof.
  intro E. unfold Agent._move. rewrite E. now destruct (Agent.path_i a).
Qed.

(** The state in which [tick] runs [_health_check] and the one in which it
    runs [_move]. *)

Lemma tick_alive_eq (a : Agent.t) :
  Agent.alive a = true ->
  Agent.tick a =
    let a1 := Agent._detect_zone (Agent._move (checked a)) in
    if Goal_eqb (Agent.goal a1) IDLE then Agent.set_wait (Agent.wait a1 + 1) a1 else a1.
Proof. intro A. unfold Agent.tick. now rewrite A. Qed.

Lemma fed_fields (a : Agent.t) :
  Agent.health (fed a) = Agent.health a
  /\ Agent.alive (fed a) = Agent.alive a
  /\ Agent.path (fed a) = Agent.path a
  /\ Agent.path_i (fed a) = Agent.path_i a
  /\ Agent.pos (fed a) = Agent.pos a
  /\ Agent.goal (fed a) = Agent.goal a
  /\ Agent.wait (fed a) = Agent.wait a
  /\ Agent.target (fed a) = Agent.target a.
Proof.
  unfold fed, Agent._zone_effect, Agent._decay.
  destruct (Agent.zone _); cbn; repeat split; reflexivity.
Qed.

Lemma health_check_frame (a : Agent.t) :
  Agent.target (Agent._health_check a) = Agent.target a
  /\ Agent.path_i (Agent._health_check a) = Agent.path_i a
  /\ Agent.pos (Agent._health_check a) = Agent.pos a
  /\ Agent.goal (Agent._health_check a) = Agent.goal a
  /\ Agent.wait (Agent._health_check a) = Agent.wait a.
Proof.
  unfold Agent._health_check.
  destruct (0 <? Agent.crit_count (Agent.needs a))%nat;
    match goal with |- context [Qle_bool ?h 0] => destruct (Qle_bool h 0) end;
    repeat split; reflexivity.
Qed.

Lemma tick_fields (a : Agent.t) :
  Agent.alive a = true ->
  Agent.needs (Agent.tick a) = Agent.needs (fed a)
  /\ Agent.health (Agent.tick a) = Agent.health (checked a)
  /\ Agent.alive (Agent.tick a) = Agent.alive (checked a)
  /\ Agent.death_reason (Agent.tick a) = Agent.death_reason (checked a)
  /\ Agent.target (Agent.tick a) = Agent.target a
  /\ Agent.path (Agent.tick a) = Agent.path (Agent._move (checked a))
  /\ Agent.goal (Agent.tick a) = Agent.goal (Agent._move (checked a))
  /\ Agent.pos (Agent.tick a) = Agent.pos (Agent._move (checked a)).
Proof.
  intro A. rewrite tick_alive_eq by exact A.
  destruct (tick_tail_fields (Agent._move (checked a)))
    as (Tn & Th & Ta & Td & Tt & Tp & Tg & Tpos).
  cbn zeta in *. rewrite Tn, Th, Ta, Td, Tt, Tp, Tg, Tpos.
  destruct (move_needs_health (checked a)) as [En Eh].
  assert (Agent.target (checked a) = Agent.target a) as Et.
  { unfold checked. destruct (health_check_frame (fed a)) as [-> _].
    apply fed_fields. }
  assert (Agent.needs (checked a) = Agent.needs (fed a)) as Ec
    by apply health_check_needs.
  rewrite En, Eh, move_alive, move_death_reason, move_target, Et, Ec.
  repeat split; reflexivity.
Qed.

(** The two ways [_health_check] can end. *)
Lemma health_check_cases (a : Agent.t) :
  let n := Agent.crit_count (Agent.needs a) in
  let h := if (0 <? n)%nat
           then (Agent.health a - 0.03 * inject_Z (Z.of_nat n))%Q
           else Py.min Config.MAX_HEALTH (Agent.health a + 0.01)%Q in
  ((h <= 0)%Q
   /\ Agent._health_check a =
        Agent.set_path []
          (Agent.set_death_reason (NEED_NAMES (Needs_min (Agent.needs a)))
             (Agent.set_health 0%Q (Agent.set_alive false (Agent.set_health h a)))))
  \/ ((0 < h)%Q /\ Agent._health_check a = Agent.set_health h a).
Proof.
  cbn zeta. unfold Agent._health_check.
  destruct (0 <? Agent.crit_count (Agent.needs a))%nat; cbn zeta;
    match goal with |- context [Qle_bool ?h 0] => destruct (Qle_bool h 0) eqn:B end;
    cbn in B |- *.
  - left. split; [now apply Qle_bool_iff | reflexivity].
  - right. split; [|reflexivity].
    apply Qnot_le_lt. intro L. apply Qle_bool_iff in L. congruence.
  - left. split; [now apply Qle_bool_iff | reflexivity].
  - right. split; [|reflexivity].
    apply Qnot_le_lt. intro L. apply Qle_bool_iff in L. congruence.
Qed.

End AgentSteps.

(** * Agents: bounds, health, death and arrival *)

Lemma Needs_min_first_lowest (ns : Needs) : first_lowest ns (Needs_min ns).
Proof.
  unfold Needs_min, Py.min_key, Py.min_key_from, first_lowest.
  destruct (ltb_spec (Needs_get ns energy) (Needs_get ns hunger)) as [E|E];
    match goal with
    | |- context [Py.ltb (Needs_get ns social) ?x] =>
        destruct (ltb_spec (Needs_get ns social) x) as [S|S]
    end;
    match goal with
    | |- context [Py.ltb (Needs_get ns work) ?x] =>
        destruct (ltb_spec (Needs_get ns work) x) as [W|W]
    end;
    first
      [ exists [], [energy; social; work]; split; [reflexivity|]
      | exists [hunger], [social; work]; split; [reflexivity|]
      | exists [hunger; energy], [work]; split; [reflexivity|]
      | exists [hunger; energy; social], []; split; [reflexivity|] ];
    split; intros j I; simpl in I;
    repeat (destruct I as [<-|I]; [lra|]); destruct I.
Qed.

Lemma crit_count_zero (ns : Needs) :
  none_critical ns -> Agent.crit_count ns = 0%nat.
Proof.
  intro N. unfold Agent.crit_count, Needs_values, NEEDS. simpl.
  pose proof (N hunger) as Hh. pose proof (N energy) as He.
  pose proof (N social) as Hs. pose proof (N work) as Hw.
  apply ltb_false in Hh, He, Hs, Hw. simpl in Hh, He, Hs, Hw.
  now rewrite Hh, He, Hs, Hw.
Qed.

Section AgentClaims.
Context `{PyLib}.

Lemma ticks_S (n : nat) (a : Agent.t) :
  ticks (S n) a = Agent.tick (ticks n a).
Proof. reflexivity. Qed.

Lemma deaths_history_le (xs : list action) (a : Agent.t) :
  (deaths (history xs a) <= 1)%nat
  /\ (Agent.alive a = false -> deaths (history xs a) = 0%nat).
Proof.
  revert a. induction xs as [|x xs IH]; intro a; simpl; [split; auto|].
  destruct (IH (perform a x)) as [L Z].
  assert (history xs (perform a x) = perform a x :: tl (history xs (perform a x))) as E
    by (destruct xs; reflexivity).
  rewrite E. rewrite <- E.
  destruct (Agent.alive a) eqn:A; simpl.
  - split; [|discriminate].
    destruct (Agent.alive (perform a x)) eqn:B; simpl; [exact L|].
    now rewrite Z.
  - split; [|intros _]; rewrite perform_dead in * by exact A;
      rewrite (Z A); lia.
Qed.

(** C7: an agent that is not alive is left exactly as it is by [tick], and
    by [assign] whatever the goal and the target. *)
Theorem dead_agent_is_inert (a : Agent.t) :
  Agent.alive a = false ->
  Agent.tick a = a
  /\ forall (g : Goal) (tg : option Zone.t), Agent.assign g tg a = (a, Py.Done).
Proof.
  intro D. split; [now apply tick_dead | intros; now apply assign_dead].
Qed.

(** C1: starting from needs within [0, 10] and health within [0, 100],
    both stay within these bounds after any number of calls of [tick]. *)
Theorem tick_keeps_needs_and_health_in_range (a : Agent.t) (n : nat) :
  in_range a -> in_range (ticks n a).
Proof.
  intro R. induction n as [|n IH]; [exact R|].
  rewrite ticks_S. now apply tick_in_range.
Qed.




(** C2: when health reaches zero during a tick of a living agent, the
    agent is dead afterwards with health exactly 0 and an empty path; the
    death reason is the name that NEED_NAMES gives to the first key, in the
    order of the dict, whose need is lowest at that tick; nothing done to
    the agent later changes it, so the alive flag goes from true to false
    once, in this tick, and never in any other. *)
Theorem death_is_final_and_names_lowest_need (a : Agent.t) :
  Agent.alive a = true ->
  (Agent.health (Agent.tick a) <= 0)%Q ->
  Agent.alive (Agent.tick a) = false
  /\ Agent.health (Agent.tick a) = 0%Q
  /\ Agent.path (Agent.tick a) = []
  /\ (exists k : Need,
        Agent.death_reason (Agent.tick a) = NEED_NAMES k
        /\ first_lowest (Agent.needs (Agent.tick a)) k)
  /\ (forall xs : list action,
        run xs (Agent.tick a) = Agent.tick a
        /\ Agent.alive (run xs (Agent.tick a)) = false
        /\ deaths (history (Tick :: xs) a) = 1%nat).
Proof.
  intros A Z.
  destruct (tick_fields a A) as (En & Eh & Ea & Ed & _ & Ep & _).
  pose proof (health_check_cases (fed a)) as C. cbn zeta in C.
  fold (checked a) in C.
  destruct C as [[_ E]|[P E]].
  - assert (Agent.alive (Agent.tick a) = false) as D by (rewrite Ea, E; reflexivity).
    split; [exact D|].
    split; [rewrite Eh, E; reflexivity|].
    split; [rewrite Ep, move_no_path; rewrite E; reflexivity|].
    split.
    + exists (Needs_min (Agent.needs (fed a))). split.
      * rewrite Ed, E. reflexivity.
      * rewrite En. apply Needs_min_first_lowest.
    + intro xs. rewrite (run_dead xs _ D). split; [reflexivity|].
      split; [exact D|].
      simpl.
      assert (history xs (Agent.tick a)
              = Agent.tick a :: tl (history xs (Agent.tick a))) as Hh
        by (destruct xs; reflexivity).
      rewrite Hh, <- Hh, A, D. simpl.
      now rewrite (history_dead xs _ D).
  - exfalso. rewrite Eh, E in Z. simpl in Z. lra.
Qed.

(** C10: when the movement step of a tick reaches the last waypoint of the
    path, that step empties the path, sets the goal to IDLE and the wait
    counter to 0 (the tick then counts this first idle tick), and the
    target is left as it was; no tick ever changes the target, so the idle
    agent keeps showing the zone it has reached. *)
Theorem arrival_keeps_target (a : Agent.t) (tx ty : Z) (z : Zone.t) :
  Agent.alive a = true ->
  Agent.alive (Agent.tick a) = true ->
  Agent.target a = Some z ->
  nth_error (Agent.path a) (Agent.path_i a) = Some (tx, ty) ->
  List.length (Agent.path a) = S (Agent.path_i a) ->
  Py.ltb (hypot (inject_Z tx - fst (Agent.pos a)) (inject_Z ty - snd (Agent.pos a)))
         Config.MOVE_SPEED = true ->
  Agent.path (Agent._move (checked a)) = []
  /\ Agent.goal (Agent._move (checked a)) = IDLE
  /\ Agent.wait (Agent._move (checked a)) = 0%nat
  /\ Agent.target (Agent._move (checked a)) = Some z
  /\ Agent.path (Agent.tick a) = []
  /\ Agent.goal (Agent.tick a) = IDLE
  /\ Agent.wait (Agent.tick a) = 1%nat
  /\ Agent.pos (Agent.tick a) = (inject_Z tx, inject_Z ty)
  /\ forall n : nat, Agent.target (ticks n (Agent.tick a)) = Some z.
Proof.
  intros A A' T N Ln Near.
  destruct (tick_fields a A) as (_ & _ & Ea & _ & Et & Ep & Eg & Epos).
  destruct (fed_fields a) as (_ & _ & Fp & Fi & Fpos & _ & _ & Ft).
  assert (checked a = Agent.set_health (Agent.health (checked a)) (fed a)) as Ec.
  { pose proof (health_check_cases (fed a)) as C. cbn zeta in C.
    fold (checked a) in C. destruct C as [[_ E]|[_ E]].
    - rewrite Ea, E in A'. discriminate.
    - rewrite E. reflexivity. }
  assert (Agent._move (checked a)
          = Agent.set_wait 0
              (Agent.set_goal IDLE
                 (Agent.set_path []
                    (Agent.set_path_i (Agent.path_i a + 1)
                       (Agent.set_pos (inject_Z tx, inject_Z ty) (checked a)))))) as Em.
  { unfold Agent._move. rewrite Ec. cbn [Agent.path Agent.path_i Agent.pos Agent.set_health
      Agent.set_path_i Agent.set_pos].
    rewrite Fp, Fi, Fpos, N, Near, Ln.
    replace (S (Agent.path_i a) <=? Agent.path_i a + 1)%nat with true
      by (symmetry; apply Nat.leb_le; lia).
    reflexivity. }
  assert (forall b n, Agent.target (ticks n b) = Agent.target b) as Tn.
  { intros b n. induction n as [|n IH]; [reflexivity|].
    rewrite ticks_S. destruct (Agent.alive (ticks n b)) eqn:B.
    - destruct (tick_fields _ B) as (_ & _ & _ & _ & -> & _). exact IH.
    - rewrite tick_dead by exact B. exact IH. }
  rewrite Ep, Eg, Epos, Em.
  split; [reflexivity|]. split; [reflexivity|]. split; [reflexivity|].
  split. { simpl. rewrite Ec. simpl. rewrite Ft. exact T. }
  split; [reflexivity|]. split; [reflexivity|].
  split. { rewrite tick_alive_eq by exact A. cbn zeta. rewrite Em. reflexivity. }
  split; [reflexivity|].
  intro n. rewrite Tn, Et. exact T.
Qed.

End AgentClaims.

(** * Agents on concrete data *)

Lemma alice_in_range : in_range Demo.alice.
Proof.
  split; [intros []; split; by_computation | split; by_computation].
Defined.

Lemma dead_agent_is_inert_witness :
  Agent.tick (H := Ref.lib) (Agent.tick (H := Ref.lib) Demo.starving)
  = Agent.tick (H := Ref.lib) Demo.starving
  /\ forall g tg,
       Agent.assign (H := Ref.lib) g tg (Agent.tick (H := Ref.lib) Demo.starving)
       = (Agent.tick (H := Ref.lib) Demo.starving, Py.Done).
Proof.
  apply (dead_agent_is_inert (H := Ref.lib)). by_computation.
Defined.

Lemma tick_keeps_needs_and_health_in_range_witness :
  in_range Demo.alice /\ in_range (ticks (H := Ref.lib) 3 Demo.alice).
Proof.
  split; [exact alice_in_range|].
  apply (tick_keeps_needs_and_health_in_range (H := Ref.lib) Demo.alice 3 alice_in_range).
Defined.


Lemma death_is_final_and_names_lowest_need_witness :
  Agent.alive Demo.starving = true
  /\ Agent.alive (Agent.tick (H := Ref.lib) Demo.starving) = false
  /\ Agent.health (Agent.tick (H := Ref.lib) Demo.starving) = 0%Q
  /\ Agent.death_reason (Agent.tick (H := Ref.lib) Demo.starving) = NEED_NAMES hunger.
Proof.
  assert (Agent.alive Demo.starving = true) as A by by_computation.
  assert (Agent.health (Agent.tick (H := Ref.lib) Demo.starving) <= 0)%Q as Z
    by by_computation.
  pose proof (death_is_final_and_names_lowest_need (H := Ref.lib) Demo.starving A Z)
    as W.
  split; [exact A|]. split; [exact (proj1 W)|].
  split; [exact (proj1 (proj2 W)) | by_computation].
Defined.

Lemma arrival_keeps_target_witness :
  Agent.goal Demo.arriving = GO_CAFE
  /\ Agent.goal (Agent.tick (H := Ref.lib) Demo.arriving) = IDLE
  /\ Agent.path (Agent.tick (H := Ref.lib) Demo.arriving) = []
  /\ Agent.target (ticks (H := Ref.lib) 2 (Agent.tick (H := Ref.lib) Demo.arriving))
     = Some Demo.cafe.
Proof.
  assert (Agent.alive Demo.arriving = true) as A by by_computation.
  assert (Agent.alive (Agent.tick (H := Ref.lib) Demo.arriving) = true) as A'
    by by_computation.
  assert (Agent.target Demo.arriving = Some Demo.cafe) as T by by_computation.
  assert (nth_error (Agent.path Demo.arriving) (Agent.path_i Demo.arriving)
          = Some (485, 145)%Z) as N by by_computation.
  assert (List.length (Agent.path Demo.arriving) = S (Agent.path_i Demo.arriving)) as L
    by by_computation.
  assert (Py.ltb (@hypot Ref.lib (inject_Z 485 - fst (Agent.pos Demo.arriving))
                        (inject_Z 145 - snd (Agent.pos Demo.arriving)))
                 Config.MOVE_SPEED = true) as Near by by_computation.
  pose proof (arrival_keeps_target (H := Ref.lib) Demo.arriving 485 145 Demo.cafe
                A A' T N L Near) as W.
  split; [by_computation|].
  split; [exact (proj1 (proj2 (proj2 (proj2 (proj2 (proj2 W))))))|].
  split; [exact (proj1 (proj2 (proj2 (proj2 (proj2 W)))))|].
  exact (proj2 (proj2 (proj2 (proj2 (proj2 (proj2 (proj2 (proj2 W))))))) 2%nat).
Defined.

(** * Dictionaries, the brace search and the goal table *)

(** * Facts about dictionaries *)

Section DictFacts.
Context {V : Type}.

Lemma get_set_same (k : string) (v : V) (d : Dict.t V) :
  Dict.get k (Dict.set k v d) = Some v.
Proof.
  induction d as [|[k' v'] d IH]; simpl.
  - now rewrite String.eqb_refl.
  - destruct (String.eqb k k') eqn:E; simpl; rewrite E; [reflexivity | exact IH].
Qed.

Lemma get_set_other (k j : string) (v : V) (d : Dict.t V) :
  j <> k -> Dict.get j (Dict.set k v d) = Dict.get j d.
Proof.
  intro N. induction d as [|[k' v'] d IH]; simpl.
  - apply String.eqb_neq in N. now rewrite N.
  - destruct (String.eqb k k') eqn:E; simpl.
    + apply String.eqb_eq in E. subst k'.
      apply String.eqb_neq in N. now rewrite N.
    + destruct (String.eqb j k'); [reflexivity | exact IH].
Qed.

Lemma keys_set_present (k : string) (v : V) (d : Dict.t V) :
  In k (Dict.keys d) -> Dict.keys (Dict.set k v d) = Dict.keys d.
Proof.
  induction d as [|[k' v'] d IH]; simpl; [intros []|].
  intros [E|I].
  - subst k'. now rewrite String.eqb_refl.
  - destruct (String.eqb k k'); simpl; [reflexivity|]. now rewrite IH.
Qed.

Lemma keys_set_absent (k : string) (v : V) (d : Dict.t V) :
  ~ In k (Dict.keys d) -> Dict.keys (Dict.set k v d) = Dict.keys d ++ [k].
Proof.
  induction d as [|[k' v'] d IH]; simpl; [reflexivity|].
  intro N. destruct (String.eqb k k') eqn:E.
  - apply String.eqb_eq in E. subst k'. exfalso. apply N. now left.
  - simpl. rewrite IH; [reflexivity|]. intro I. apply N. now right.
Qed.

Lemma get_in_keys (k : string) (d : Dict.t V) :
  In k (Dict.keys d) <-> exists v, Dict.get k d = Some v.
Proof.
  induction d as [|[k' v'] d IH]; simpl.
  - split; [intros [] | intros [v E]; discriminate].
  - destruct (String.eqb k k') eqn:E.
    + apply String.eqb_eq in E. subst k'. split; [eauto | now left].
    + apply String.eqb_neq in E. rewrite <- IH. split; [intros [?|?]|]; auto.
      congruence.
Qed.

Lemma get_in_items (k : string) (v : V) (d : Dict.t V) :
  Dict.get k d = Some v -> In (k, v) (Dict.items d).
Proof.
  induction d as [|[k' v'] d IH]; simpl; [discriminate|].
  destruct (String.eqb k k') eqn:E.
  - apply String.eqb_eq in E. subst k'. intros [= ->]. now left.
  - intro G. right. now apply IH.
Qed.

Lemma items_get (k : string) (v : V) (d : Dict.t V) :
  NoDup (Dict.keys d) -> In (k, v) (Dict.items d) -> Dict.get k d = Some v.
Proof.
  induction d as [|[k' v'] d IH]; simpl; [intros _ []|].
  intros ND [E|I].
  - injection E as -> ->. now rewrite String.eqb_refl.
  - inversion ND as [|? ? NI ND']; subst.
    destruct (String.eqb k k') eqn:E.
    + apply String.eqb_eq in E. subst k'. exfalso. apply NI.
      apply (in_map fst) in I. exact I.
    + now apply IH.
Qed.

Lemma keys_set_NoDup (k : string) (v : V) (d : Dict.t V) :
  NoDup (Dict.keys d) -> NoDup (Dict.keys (Dict.set k v d)).
Proof.
  intro ND. destruct (in_dec string_dec k (Dict.keys d)) as [I|N].
  - now rewrite keys_set_present.
  - rewrite keys_set_absent by exact N.
    apply NoDup_app; [exact ND | repeat constructor; intros [] | ].
    intros x Ix [<-|[]]. contradiction.
Qed.
End DictFacts.

Lemma mem_In (x : string) (xs : list string) : Py.mem x xs = true <-> In x xs.
Proof.
  unfold Py.mem. rewrite existsb_exists. split.
  - intros [y [I E]]. apply String.eqb_eq in E. now subst.
  - intro I. exists x. split; [exact I | apply String.eqb_refl].
Qed.

Lemma mem_not_In (x : string) (xs : list string) : Py.mem x xs = false <-> ~ In x xs.
Proof.
  rewrite <- mem_In. destruct (Py.mem x xs); split; congruence.
Qed.

(** * The brace search *)

Lemma from_open_spec (s m : string) :
  Brain.from_open s = Some m ->
  exists pre rest : string, s = (pre ++ m)%string /\ m = String "{" rest /\ no_char "{" pre.
Proof.
  induction s as [|c s IH]; simpl; [discriminate|].
  destruct (Ascii.eqb c "{") eqn:E.
  - apply Ascii.eqb_eq in E. subst c. intros [= <-].
    exists "", s. repeat split. intros [].
  - intro F. destruct (IH F) as (pre & rest & -> & -> & N).
    exists (String c pre), rest. repeat split.
    intros [->|I]; [now rewrite Ascii.eqb_refl in E | exact (N I)].
Qed.

Lemma from_open_none (s : string) :
  Brain.from_open s = None -> no_char "{" s.
Proof.
  induction s as [|c s IH]; simpl; [intros _ []|].
  destruct (Ascii.eqb c "{") eqn:E; [discriminate|].
  intros F [->|I]; [now rewrite Ascii.eqb_refl in E | exact (IH F I)].
Qed.

Lemma upto_close_spec (s m : string) :
  Brain.upto_close s = Some m ->
  exists body post : string,
    s = (m ++ post)%string /\ m = (body ++ "}")%string /\ no_char "}" post.
Proof.
  revert m. induction s as [|c s IH]; simpl; intro m; [discriminate|].
  destruct (Brain.upto_close s) as [r|] eqn:U.
  - intros [= <-]. destruct (IH r eq_refl) as (body & post & -> & -> & N).
    exists (String c body), post. repeat split. exact N.
  - destruct (Ascii.eqb c "}") eqn:E; [|discriminate].
    apply Ascii.eqb_eq in E. subst c. intros [= <-].
    exists "", s. repeat split.
    clear IH. induction s as [|d s IH]; [intros []|].
    simpl in U. destruct (Brain.upto_close s); [discriminate|].
    destruct (Ascii.eqb d "}") eqn:E; [discriminate|].
    intros [->|I]; [now rewrite Ascii.eqb_refl in E | exact (IH eq_refl I)].
Qed.

Lemma upto_close_none (s : string) :
  Brain.upto_close s = None -> no_char "}" s.
Proof.
  induction s as [|d s IH]; [intros _ []|].
  simpl. destruct (Brain.upto_close s); [discriminate|].
  destruct (Ascii.eqb d "}") eqn:E; [discriminate|].
  intros _ [->|I]; [now rewrite Ascii.eqb_refl in E | exact (IH eq_refl I)].
Qed.

Lemma search_braces_spec (text m : string) :
  Brain.search_braces text = Some m ->
  exists pre post : string,
    text = (pre ++ m ++ post)%string
    /\ String.prefix "{" m = true
    /\ (exists body : string, m = (body ++ "}")%string)
    /\ no_char "{" pre /\ no_char "}" post.
Proof.
  unfold Brain.search_braces.
  destruct (Brain.from_open text) as [s|] eqn:F; [|discriminate].
  intro U. destruct (from_open_spec _ _ F) as (pre & rest & -> & Es & N).
  destruct (upto_close_spec _ _ U) as (body & post & E & Em & N').
  exists pre, post. rewrite <- E. repeat split; try assumption.
  - subst s m. destruct body as [|c b]; simpl in E; injection E as Ec Er.
    + discriminate.
    + subst c. simpl. now destruct (b ++ "}")%string.
  - now exists body.
Qed.

(** * The goal table *)

Lemma goal_map_spec (s : string) (g : Goal) :
  Brain.goal_map s = Some g <-> s = Goal_value g.
Proof.
  unfold Brain.goal_map. split.
  - repeat match goal with
           | |- context [String.eqb s ?x] =>
               destruct (String.eqb_spec s x); [intros [= <-]; assumption|]
           end.
    discriminate.
  - intros ->. destruct g; reflexivity.
Qed.

Lemma Goal_eqb_eq (a b : Goal) : Goal_eqb a b = true <-> a = b.
Proof. destruct a, b; simpl; split; congruence. Qed.

Lemma ZoneType_eqb_eq (a b : ZoneType) : ZoneType_eqb a b = true <-> a = b.
Proof. destruct a, b; simpl; split; congruence. Qed.

Lemma Zone_eqb_eq (a b : Zone.t) : Zone.eqb a b = true <-> a = b.
Proof.
  split.
  - unfold Zone.eqb, Rect_eqb, Color_eqb.
    destruct a as [n t [x y w h] [[r g] c]], b as [n' t' [x' y' w' h'] [[r' g'] c']].
    simpl. rewrite !andb_true_iff, !Z.eqb_eq, String.eqb_eq, ZoneType_eqb_eq.
    intros [[[-> ->] [[[-> ->] ->] ->]] [[-> ->] ->]]. reflexivity.
  - intros <-. unfold Zone.eqb, Rect_eqb, Color_eqb.
    destruct a as [n t [x y w h] [[r g] c]]. simpl.
    rewrite !Z.eqb_refl, String.eqb_refl.
    now replace (ZoneType_eqb t t) with true by (now destruct t).
Qed.

(** * The decision layer *)

Section BrainFacts.
Context `{PyLib}.

(** A goal other than IDLE, given to a living agent that stands outside
    the target zone, is the agent's goal afterwards, with that target. *)
Lemma assign_sets_goal (a : Agent.t) (g : Goal) (z : Zone.t) :
  Agent.alive a = true -> g <> IDLE -> outside a z ->
  Agent.goal (fst (Agent.assign g (Some z) a)) = g
  /\ Agent.target (fst (Agent.assign g (Some z) a)) = Some z.
Proof.
  intros A G O. unfold Agent.assign. rewrite A. simpl negb. cbv iota.
  destruct (Goal_eqb g IDLE) eqn:E; [apply Goal_eqb_eq in E; contradiction|].
  unfold outside in O.
  destruct (Agent.zone a) as [za|] eqn:Z.
  - destruct (String.eqb_spec (Zone.name za) (Zone.name z)) as [En|_];
      [contradiction|].
    destruct (Goal_eqb (Agent.goal a) g && opt_Zone_eqb (Agent.target a) (Some z)
              && negb match Agent.path a with [] => true | _ :: _ => false end) eqn:Same.
    + apply andb_true_iff in Same as [Same _].
      apply andb_true_iff in Same as [Sg St]. apply Goal_eqb_eq in Sg.
      simpl. split; [exact Sg|].
      destruct (Agent.target a) as [t|]; [|discriminate].
      simpl in St. apply Zone_eqb_eq in St. now subst.
    + cbn [Agent.zone Agent.set_wait Agent.set_target Agent.set_goal].
      destruct (PathGraph.find _ _ _); split; reflexivity.
  - destruct (Goal_eqb (Agent.goal a) g && opt_Zone_eqb (Agent.target a) (Some z)
              && negb match Agent.path a with [] => true | _ :: _ => false end) eqn:Same.
    + apply andb_true_iff in Same as [Same _].
      apply andb_true_iff in Same as [Sg St]. apply Goal_eqb_eq in Sg.
      simpl. split; [exact Sg|].
      destruct (Agent.target a) as [t|]; [|discriminate].
      simpl in St. apply Zone_eqb_eq in St. now subst.
    + cbn [Agent.zone Agent.set_wait Agent.set_target Agent.set_goal].
      destruct (PathGraph.find _ _ _); split; reflexivity.
Qed.

(** An entry only ever touches the agent it names. *)
Lemma apply_entry_frame (w : World.t) (aid : string) (act : JSON) (other : string) :
  other <> aid ->
  Dict.get other (World.agents (fst (Brain.apply_entry w aid act)))
  = Dict.get other (World.agents w).
Proof.
  intro N. unfold Brain.apply_entry.
  destruct (Dict.get aid (World.agents w)) as [agent|]; [|reflexivity].
  destruct (negb (Agent.alive agent)); [reflexivity|].
  destruct (Brain.raw_goal act) as [s|e]; [|reflexivity].
  destruct (Brain.goal_map s) as [g|]; [|reflexivity].
  destruct (Goal_eqb g IDLE); [reflexivity|].
  destruct (ZONE_FOR_GOAL g) as [zt|]; [|reflexivity].
  destruct (if Goal_eqb g GO_HOME then _ else _) as [z|]; [|reflexivity].
  destruct (Agent.assign g (Some z) agent) as [agent' o]. simpl.
  now apply get_set_other.
Qed.

Lemma apply_entries_frame (entries : list (string * JSON)) (w : World.t)
  (other : string) :
  ~ In other (map fst entries) ->
  Dict.get other (World.agents (fst (Brain.apply_entries w entries)))
  = Dict.get other (World.agents w).
Proof.
  revert w. induction entries as [|[aid act] r IH]; intros w N; [reflexivity|].
  simpl. pose proof (apply_entry_frame w aid act other) as F.
  destruct (Brain.apply_entry w aid act) as [w' [|e]]; simpl in F |- *.
  - rewrite IH; [apply F|]; intro; apply N; simpl; auto.
  - apply F. intro; apply N; simpl; auto.
Qed.

(** What an entry does, case by case. *)
Lemma apply_entry_unknown (w : World.t) (aid : string) (act : JSON) :
  Dict.get aid (World.agents w) = None ->
  Brain.apply_entry w aid act = (w, Py.Done).
Proof. intro G. unfold Brain.apply_entry. now rewrite G. Qed.

Lemma apply_entry_dead (w : World.t) (aid : string) (act : JSON) (a : Agent.t) :
  Dict.get aid (World.agents w) = Some a -> Agent.alive a = false ->
  Brain.apply_entry w aid act = (w, Py.Done).
Proof. intros G D. unfold Brain.apply_entry. now rewrite G, D. Qed.

Lemma apply_entry_ignored (w : World.t) (aid : string) (members : list (string * JSON))
  (a : Agent.t) (s : string) :
  Dict.get aid (World.agents w) = Some a ->
  Brain.raw_goal (JObj members) = Py.Ok s ->
  Brain.goal_map s = None \/ s = "idle" ->
  Brain.apply_entry w aid (JObj members) = (w, Py.Done).
Proof.
  intros G R I. unfold Brain.apply_entry. rewrite G.
  destruct (negb (Agent.alive a)); [reflexivity|]. rewrite R.
  destruct I as [-> | ->]; reflexivity.
Qed.

Lemma apply_entry_goal (w : World.t) (aid : string) (members : list (string * JSON))
  (a : Agent.t) (g : Goal) (zt : ZoneType) :
  Dict.get aid (World.agents w) = Some a -> Agent.alive a = true ->
  Brain.raw_goal (JObj members) = Py.Ok (Goal_value g) ->
  ZONE_FOR_GOAL g = Some zt ->
  Brain.apply_entry w aid (JObj members) =
    match (if Goal_eqb g GO_HOME then Some (Agent.home a)
           else World.zone_by_type w zt) with
    | None => (w, Py.Done)
    | Some z =>
        (World.set_agents
           (Dict.set aid (fst (Agent.assign g (Some z) a)) (World.agents w)) w,
         snd (Agent.assign g (Some z) a))
    end.
Proof.
  intros G A R Z. unfold Brain.apply_entry. rewrite G, A, R. simpl negb. cbv iota.
  replace (Brain.goal_map (Goal_value g)) with (Some g)
    by (symmetry; now apply goal_map_spec).
  rewrite Z. destruct g; try discriminate; injection Z as <-; simpl;
    try (destruct (World.zone_by_type w _) as [z|]; [|reflexivity]);
    destruct (Agent.assign _ _ a); reflexivity.
Qed.

Lemma raw_goal_of_members (members : list (string * JSON)) :
  Brain.raw_goal (JObj members) =
    Py.Ok (str_lower (str_strip
             match Dict.get "goal" members with
             | Some v => py_str v
             | None => ""
             end)).
Proof. reflexivity. Qed.

(** The example reply, in any world in which A is alive and not inside the
    cafe. *)
Lemma parse_cafe_reply (w : World.t) (a : Agent.t) (z : Zone.t) :
  json_loads Demo.cafe_object = Some (JObj Demo.cafe_entries) ->
  Dict.get "A" (World.agents w) = Some a ->
  Agent.alive a = true ->
  World.zone_by_type w CAFE = Some z ->
  outside a z ->
  exists a',
    Dict.get "A" (World.agents (fst (Brain._parse Demo.cafe_reply w))) = Some a'
    /\ Agent.goal a' = GO_CAFE
    /\ Agent.target a' = Some z
    /\ forall other,
         other <> "A" ->
         Dict.get other (World.agents (fst (Brain._parse Demo.cafe_reply w)))
         = Dict.get other (World.agents w).
Proof.
  intros J G A Z O.
  assert (Brain.search_braces Demo.cafe_reply = Some Demo.cafe_object) as S
    by (vm_compute; reflexivity).
  unfold Brain._parse. rewrite S, J. unfold Demo.cafe_entries.
  cbn [Brain.apply_entries].
  assert (Brain.raw_goal (JObj [("goal", JStr "go_cafe")]) = Py.Ok (Goal_value GO_CAFE)) as R.
  { rewrite raw_goal_of_members. cbn [Dict.get String.eqb Ascii.eqb Bool.eqb].
    rewrite py_str_JStr.
    rewrite str_strip_ascii by reflexivity.
    rewrite str_lower_ascii by reflexivity. reflexivity. }
  rewrite (apply_entry_goal w "A" _ a GO_CAFE CAFE G A R eq_refl).
  cbn [Goal_eqb]. rewrite Z.
  destruct (assign_sets_goal a GO_CAFE z A ltac:(discriminate) O) as [Eg Et].
  exists (fst (Agent.assign GO_CAFE (Some z) a)).
  destruct (snd (Agent.assign GO_CAFE (Some z) a)); cbn [fst World.agents World.set_agents];
    (split; [apply get_set_same|]); (split; [exact Eg|]); (split; [exact Et|]);
    intros other N; now apply get_set_other.
Qed.

Lemma decide_busy_false (r : Brain.reply) (b : Brain.t) :
  Brain.busy b = false ->
  snd (Brain.decide r b) = Py.Done
  /\ Brain.busy (fst (fst (Brain.decide r b))) = false.
Proof.
  intro B. unfold Brain.decide. rewrite B.
  destruct (Brain.attempt r (Brain.set_busy true b)) as [[b1 evs] o].
  split; reflexivity.
Qed.

Lemma ask_transport_error (r : Brain.reply) (e : string) :
  transport_error r e -> Brain._ask r = Py.Exn e.
Proof.
  intros [->|(status & content & -> & N & ->)]; [reflexivity|].
  simpl. apply Z.eqb_neq in N. now rewrite N.
Qed.

Lemma parse_parse_error (text : string) (w : World.t) :
  parse_error text -> Brain._parse text w = (w, Py.Done).
Proof.
  unfold Brain._parse. intros [->|(m & -> & ->)]; reflexivity.
Qed.

(** C9: [decide] on a brain that is busy sends nothing, parses nothing and
    returns the brain as it was. *)
Theorem decide_while_busy (r : Brain.reply) (b : Brain.t) :
  Brain.busy b = true -> Brain.decide r b = (b, [], Py.Done).
Proof. intro B. unfold Brain.decide. now rewrite B. Qed.

(** C6: a round that ends in a transport error or in a parse error leaves
    the world, and so every agent, as it was; no exception leaves [decide];
    the brain is not busy afterwards; and whenever the [try] block raised,
    the stored raw text is the text of that exception. *)
Theorem failed_round_changes_no_agent (r : Brain.reply) (b : Brain.t) :
  Brain.busy b = false ->
  (forall e, transport_error r e ->
     Brain.decide r b
     = (Brain.mk (Brain.world b) e false, [Brain.Asked (Brain._prompt b)], Py.Done))
  /\ (forall text, r = Brain.Http 200 text -> parse_error text ->
        Brain.decide r b
        = (Brain.mk (Brain.world b) text false,
           [Brain.Asked (Brain._prompt b); Brain.Parsed text], Py.Done))
  /\ snd (Brain.decide r b) = Py.Done
  /\ Brain.busy (fst (fst (Brain.decide r b))) = false
  /\ (forall e, snd (Brain.attempt r (Brain.set_busy true b)) = Py.Raised e ->
        Brain.raw (fst (fst (Brain.decide r b))) = e).
Proof.
  intro B. split; [|split; [|split; [|split]]].
  - intros e T. unfold Brain.decide, Brain.attempt.
    rewrite B, (ask_transport_error r e T). reflexivity.
  - intros text -> P. unfold Brain.decide, Brain.attempt. rewrite B. simpl Brain._ask.
    cbv iota. cbn [Brain.world Brain.set_raw Brain.set_busy].
    rewrite (parse_parse_error text _ P). reflexivity.
  - now apply decide_busy_false.
  - now apply decide_busy_false.
  - intros e E. unfold Brain.decide. rewrite B.
    destruct (Brain.attempt r (Brain.set_busy true b)) as [[b1 evs] o].
    simpl in E. subst o. reflexivity.
Qed.

End BrainFacts.

(** * Sorting and adjacency lists *)

(** * The insertion sort *)

Section Sorting.
Context {A : Type} (lt : A -> A -> bool).

Lemma insert_In (x y : A) (l : list A) :
  In y (Py.insert lt x l) <-> y = x \/ In y l.
Proof.
  induction l as [|z l IH]; simpl; [intuition auto|].
  destruct (lt z x); simpl; rewrite ?IH; intuition auto.
Qed.

Lemma sorted_In (y : A) (l : list A) : In y (Py.sorted lt l) <-> In y l.
Proof.
  induction l as [|x l IH]; simpl; [reflexivity|].
  rewrite insert_In, IH. intuition auto.
Qed.

Lemma insert_length (x : A) (l : list A) :
  List.length (Py.insert lt x l) = S (List.length l).
Proof.
  induction l as [|z l IH]; simpl; [reflexivity|].
  destruct (lt z x); simpl; now rewrite ?IH.
Qed.

Lemma sorted_length (l : list A) : List.length (Py.sorted lt l) = List.length l.
Proof.
  induction l as [|x l IH]; simpl; [reflexivity|].
  now rewrite insert_length, IH.
Qed.

(** Sortedness for any transitive relation that [lt] refines in both
    directions. *)
Variable le : A -> A -> Prop.
Hypothesis le_trans : forall x y z, le x y -> le y z -> le x z.
Hypothesis lt_le : forall x y, lt x y = true -> le x y.
Hypothesis not_lt_le : forall x y, lt x y = false -> le y x.

Lemma insert_sorted (x : A) (l : list A) :
  StronglySorted le l -> StronglySorted le (Py.insert lt x l).
Proof.
  induction 1 as [|z l S IH F]; simpl; [repeat constructor|].
  destruct (lt z x) eqn:E.
  - constructor; [exact IH|].
    apply Forall_forall. intros y I. apply insert_In in I as [->|I].
    + now apply lt_le.
    + rewrite Forall_forall in F. now apply F.
  - constructor; [now constructor|].
    constructor; [now apply not_lt_le|].
    apply Forall_forall. intros y I. rewrite Forall_forall in F.
    eapply le_trans; [apply not_lt_le, E | now apply F].
Qed.

Lemma sorted_sorted (l : list A) : StronglySorted le (Py.sorted lt l).
Proof.
  induction l as [|x l IH]; simpl; [constructor | now apply insert_sorted].
Qed.
End Sorting.

Lemma firstn_skipn_sorted {A : Type} (le : A -> A -> Prop) (n : nat) (l : list A) :
  StronglySorted le l ->
  forall x y, In x (firstn n l) -> In y (skipn n l) -> le x y.
Proof.
  revert l. induction n as [|n IH]; intros l S x y Ix Iy; [destruct Ix|].
  destruct l as [|z l]; [destruct Ix|].
  inversion S as [|? ? S' F]; subst. simpl in Ix, Iy.
  destruct Ix as [->|Ix].
  - rewrite Forall_forall in F. apply F.
    rewrite <- (firstn_skipn n l). apply in_or_app. now right.
  - now apply (IH l).
Qed.

(** * The adjacency lists *)

Lemma neighbours_append (adj : Dict.t (list string)) (a x k : string) :
  PathGraph.neighbours (PathGraph.append a x adj) k
  = if String.eqb k a then PathGraph.neighbours adj a ++ [x]
    else PathGraph.neighbours adj k.
Proof.
  unfold PathGraph.append, PathGraph.neighbours at 1.
  destruct (String.eqb_spec k a) as [->|N].
  - now rewrite get_set_same.
  - now rewrite get_set_other.
Qed.

Lemma neighbours_link (adj : Dict.t (list string)) (a nb x y : string) :
  In y (PathGraph.neighbours (PathGraph.link a nb adj) x)
  <-> In y (PathGraph.neighbours adj x) \/ (x = a /\ y = nb) \/ (x = nb /\ y = a).
Proof.
  unfold PathGraph.link.
  destruct (Py.mem nb (PathGraph.neighbours adj a)) eqn:M1.
  - apply mem_In in M1.
    destruct (Py.mem a (PathGraph.neighbours adj nb)) eqn:M2.
    + apply mem_In in M2. intuition (subst; auto).
    + rewrite neighbours_append. destruct (String.eqb_spec x nb) as [->|N].
      * rewrite in_app_iff. simpl. intuition (subst; auto).
      * intuition (subst; auto; try congruence).
  - set (adj1 := PathGraph.append a nb adj).
    assert (forall k z, In z (PathGraph.neighbours adj1 k)
                        <-> In z (PathGraph.neighbours adj k) \/ (k = a /\ z = nb)) as E1.
    { intros k z. unfold adj1. rewrite neighbours_append.
      destruct (String.eqb_spec k a) as [->|N].
      - rewrite in_app_iff. simpl. intuition (subst; auto).
      - intuition (subst; auto; try congruence). }
    destruct (Py.mem a (PathGraph.neighbours adj1 nb)) eqn:M2.
    + apply mem_In in M2. rewrite E1 in M2 |- *.
      intuition (subst; auto).
    + rewrite neighbours_append. destruct (String.eqb_spec x nb) as [->|N].
      * rewrite in_app_iff, E1. simpl. intuition (subst; auto).
      * rewrite E1. intuition (subst; auto; try congruence).
Qed.

Lemma neighbours_link_NoDup (adj : Dict.t (list string)) (a nb : string) :
  (forall x, NoDup (PathGraph.neighbours adj x)) ->
  forall x, NoDup (PathGraph.neighbours (PathGraph.link a nb adj) x).
Proof.
  intros ND x. unfold PathGraph.link.
  assert (forall adj' b c,
            (forall k, NoDup (PathGraph.neighbours adj' k)) ->
            Py.mem c (PathGraph.neighbours adj' b) = false ->
            forall k, NoDup (PathGraph.neighbours (PathGraph.append b c adj') k)) as Step.
  { intros adj' b c ND' M k. rewrite neighbours_append.
    destruct (String.eqb k b); [|apply ND'].
    apply mem_not_In in M.
    apply NoDup_app; [apply ND' | repeat constructor; intros [] |].
    intros z Iz [<-|[]]. contradiction. }
  destruct (Py.mem nb (PathGraph.neighbours adj a)) eqn:M1.
  - destruct (Py.mem a (PathGraph.neighbours adj nb)) eqn:M2; [apply ND|].
    now apply Step.
  - destruct (Py.mem a (PathGraph.neighbours (PathGraph.append a nb adj) nb)) eqn:M2.
    + now apply Step.
    + apply Step; [|exact M2]. now apply Step.
Qed.

Section Build.
Context `{PyLib}.

Lemma neighbours_links (l : list string) (adj : Dict.t (list string)) (a x y : string) :
  In y (PathGraph.neighbours (fold_left (fun adj nb => PathGraph.link a nb adj) l adj) x)
  <-> In y (PathGraph.neighbours adj x) \/ (x = a /\ In y l) \/ (In x l /\ y = a).
Proof.
  revert adj. induction l as [|nb l IH]; intro adj; simpl; [intuition auto|].
  rewrite IH, neighbours_link. intuition (subst; auto).
Qed.

Lemma neighbours_links_NoDup (l : list string) (adj : Dict.t (list string)) (a : string) :
  (forall x, NoDup (PathGraph.neighbours adj x)) ->
  forall x,
    NoDup (PathGraph.neighbours (fold_left (fun adj nb => PathGraph.link a nb adj) l adj) x).
Proof.
  revert adj. induction l as [|nb l IH]; intros adj ND; simpl; [exact ND|].
  apply IH. now apply neighbours_link_NoDup.
Qed.

Lemma neighbours_connects (p : Dict.t PathGraph.point) (its : list (string * PathGraph.point))
  (adj : Dict.t (list string)) (x y : string) :
  In y (PathGraph.neighbours (fold_left (PathGraph.connect p) its adj) x)
  <-> In y (PathGraph.neighbours adj x)
      \/ (exists px, In (x, px) its /\ In y (PathGraph.nearest p x px))
      \/ (exists py, In (y, py) its /\ In x (PathGraph.nearest p y py)).
Proof.
  revert adj. induction its as [|[a pa] its IH]; intro adj; simpl.
  - split; [auto | intros [?|[[? [[] _]]|[? [[] _]]]]; assumption].
  - rewrite IH.
    change (PathGraph.connect p adj (a, pa))
      with (fold_left (fun adj nb => PathGraph.link a nb adj)
                      (PathGraph.nearest p a pa) adj).
    rewrite neighbours_links.
    split.
    + intros [[I|[[-> I]|[I ->]]]|[(px & I & N)|(py & I & N)]]; eauto 6.
    + intros [I|[(px & [E|I] & N)|(py & [E|I] & N)]]; eauto 6.
      * injection E as <- <-. auto.
      * injection E as <- <-. auto.
Qed.

Lemma neighbours_connects_NoDup (p : Dict.t PathGraph.point)
  (its : list (string * PathGraph.point)) (adj : Dict.t (list string)) :
  (forall x, NoDup (PathGraph.neighbours adj x)) ->
  forall x, NoDup (PathGraph.neighbours (fold_left (PathGraph.connect p) its adj) x).
Proof.
  revert adj. induction its as [|ap its IH]; intros adj ND; simpl; [exact ND|].
  apply IH. unfold PathGraph.connect. now apply neighbours_links_NoDup.
Qed.

End Build.

(** * The constructed graph *)

(** * The first loop of the constructor *)

Lemma registered_keys (zones : list Zone.t) (g : PathGraph.t) :
  Dict.keys (PathGraph.pos g) = Dict.keys (PathGraph.adj g) ->
  NoDup (Dict.keys (PathGraph.pos g)) ->
  Dict.keys (PathGraph.pos (registered zones g))
  = Dict.keys (PathGraph.adj (registered zones g))
  /\ NoDup (Dict.keys (PathGraph.pos (registered zones g)))
  /\ forall n, In n (Dict.keys (PathGraph.pos (registered zones g)))
               <-> In n (Dict.keys (PathGraph.pos g)) \/ In n (map Zone.name zones).
Proof.
  revert g. induction zones as [|z zones IH]; intros g K ND; simpl.
  - repeat split; auto. now intros [?|[]].
  - destruct (IH (PathGraph.register g z)) as (K' & ND' & I').
    + simpl. destruct (in_dec string_dec (Zone.name z) (Dict.keys (PathGraph.pos g))) as [I|N].
      * rewrite !keys_set_present; [exact K | now rewrite <- K | exact I].
      * rewrite !keys_set_absent; [now rewrite K | now rewrite <- K | exact N].
    + simpl. now apply keys_set_NoDup.
    + split; [exact K'|]. split; [exact ND'|].
      intro n. rewrite I'. simpl.
      destruct (in_dec string_dec (Zone.name z) (Dict.keys (PathGraph.pos g))) as [I|N].
      * rewrite keys_set_present by exact I. intuition (subst; auto).
      * rewrite keys_set_absent by exact N. rewrite in_app_iff. simpl. intuition auto.
Qed.

Lemma set_empty_lists (k : string) (d : Dict.t (list string)) :
  Forall (fun kv => snd kv = []) d ->
  Forall (fun kv : string * list string => snd kv = []) (Dict.set k [] d).
Proof.
  induction 1 as [|[k' v'] d P F IH]; simpl; [repeat constructor|].
  destruct (String.eqb k k'); constructor; auto.
Qed.

Lemma registered_empty_lists (zones : list Zone.t) (g : PathGraph.t) :
  Forall (fun kv => snd kv = []) (PathGraph.adj g) ->
  Forall (fun kv => snd kv = []) (PathGraph.adj (registered zones g)).
Proof.
  revert g. induction zones as [|z zones IH]; intros g F; simpl; [exact F|].
  apply IH. simpl. now apply set_empty_lists.
Qed.

Lemma neighbours_empty_lists (d : Dict.t (list string)) (x : string) :
  Forall (fun kv => snd kv = []) d -> PathGraph.neighbours d x = [].
Proof.
  unfold PathGraph.neighbours.
  induction 1 as [|[k v] d P F IH]; simpl; [reflexivity|].
  destruct (String.eqb x k); [exact P | exact IH].
Qed.

Lemma registered_get_other (zones : list Zone.t) (g : PathGraph.t) (n : string) :
  ~ In n (map Zone.name zones) ->
  Dict.get n (PathGraph.pos (registered zones g)) = Dict.get n (PathGraph.pos g).
Proof.
  revert g. induction zones as [|z zones IH]; intros g N; simpl; [reflexivity|].
  rewrite IH by (intro; apply N; simpl; auto).
  simpl. apply get_set_other. intro E. apply N. simpl. auto.
Qed.

Lemma registered_get (zones : list Zone.t) (g : PathGraph.t) (z : Zone.t) :
  NoDup (map Zone.name zones) -> In z zones ->
  Dict.get (Zone.name z) (PathGraph.pos (registered zones g)) = Some (Zone.center z).
Proof.
  revert g. induction zones as [|z0 zones IH]; intros g ND I; [destruct I|].
  inversion ND as [|? ? N0 ND']; subst. simpl. destruct I as [->|I].
  - rewrite registered_get_other by exact N0. simpl. apply get_set_same.
  - now apply IH.
Qed.

(** * The nearest zones *)

Lemma tuple_ltb_le (x y : Q * string) :
  PathGraph.tuple_ltb x y = true -> (fst x <= fst y)%Q.
Proof.
  unfold PathGraph.tuple_ltb. destruct (Qeq_bool (fst x) (fst y)) eqn:E.
  - intros _. apply Qeq_bool_iff in E. rewrite E. apply Qle_refl.
  - intro L. apply ltb_true in L. now apply Qlt_le_weak.
Qed.

Lemma tuple_ltb_ge (x y : Q * string) :
  PathGraph.tuple_ltb x y = false -> (fst y <= fst x)%Q.
Proof.
  unfold PathGraph.tuple_ltb. destruct (Qeq_bool (fst x) (fst y)) eqn:E.
  - intros _. apply Qeq_bool_iff in E. rewrite E. apply Qle_refl.
  - intro L. now apply ltb_false in L.
Qed.

Lemma In_firstn {A : Type} (n : nat) (l : list A) (x : A) :
  In x (firstn n l) -> In x l.
Proof.
  intro I. rewrite <- (firstn_skipn n l). apply in_or_app. now left.
Qed.

Lemma insert_map_NoDup {A B : Type} (lt : A -> A -> bool) (f : A -> B)
  (x : A) (l : list A) :
  NoDup (map f (x :: l)) -> NoDup (map f (Py.insert lt x l)).
Proof.
  induction l as [|y r IH]; intro ND; [exact ND|].
  simpl. destruct (lt y x); [|exact ND].
  simpl in ND. inversion ND as [|? ? Nx ND']; subst.
  inversion ND' as [|? ? Ny ND'']; subst.
  simpl. constructor.
  - intro I. apply in_map_iff in I as (z & E & I).
    apply insert_In in I as [->|I].
    + apply Nx. left. now symmetry.
    + apply Ny. rewrite <- E. now apply in_map.
  - apply IH. simpl. constructor; [|exact ND''].
    intro I. apply Nx. now right.
Qed.

Lemma sorted_map_NoDup {A B : Type} (lt : A -> A -> bool) (f : A -> B) (l : list A) :
  NoDup (map f l) -> NoDup (map f (Py.sorted lt l)).
Proof.
  induction l as [|x l IH]; intro ND; [exact ND|].
  simpl. apply insert_map_NoDup. simpl. simpl in ND.
  inversion ND as [|? ? Nx ND']; subst. constructor; [|now apply IH].
  intro I. apply Nx. apply in_map_iff in I as (z & E & I).
  apply sorted_In in I. rewrite <- E. now apply in_map.
Qed.

Lemma firstn_NoDup {A : Type} (n : nat) (l : list A) :
  NoDup l -> NoDup (firstn n l).
Proof.
  revert l. induction n as [|n IH]; intros l ND; [constructor|].
  destruct l as [|x l]; [constructor|].
  inversion ND as [|? ? Nx ND']; subst. simpl. constructor; [|now apply IH].
  intro I. apply Nx. now apply In_firstn in I.
Qed.

Lemma filter_map_NoDup (K E : Type) (key : E -> K) (keep : E -> bool) :
  forall entries, NoDup (map key entries) -> NoDup (map key (filter keep entries)).
Proof.
  intros entries. induction entries as [|e rest IH]; intro U; [exact U|].
  apply NoDup_cons_iff in U as [Fresh U]. cbn [filter].
  destruct (keep e); [|exact (IH U)].
  cbn [map]. apply NoDup_cons; [|exact (IH U)].
  rewrite in_map_iff. intros (e' & Same & Kept).
  apply Fresh. rewrite <- Same. apply in_map.
  now apply filter_In in Kept.
Qed.

Lemma others_length {V : Type} (a : string) (d : Dict.t V) :
  NoDup (Dict.keys d) -> In a (Dict.keys d) ->
  S (List.length (filter (fun bp : string * V => negb (String.eqb a (fst bp))) d))
  = List.length d.
Proof.
  induction d as [|[k v] d IH]; intros ND I; [destruct I|].
  simpl in ND, I. inversion ND as [|? ? Nk ND']; subst.
  simpl. destruct (String.eqb_spec a k) as [->|N]; simpl.
  - f_equal. clear IH I ND ND'. induction d as [|[k' v'] d IH]; [reflexivity|].
    simpl. destruct (String.eqb_spec k k') as [->|N'].
    + exfalso. apply Nk. now left.
    + simpl. f_equal. apply IH. intro I. apply Nk. now right.
  - f_equal. apply IH; [exact ND'|]. destruct I as [E|I]; [congruence | exact I].
Qed.

Section Nearest.
Context `{PyLib}.

Lemma dists_In (p : Dict.t PathGraph.point) (a : string) (pa : PathGraph.point)
  (d : Q) (b : string) :
  In (d, b) (PathGraph.dists p a pa)
  <-> exists pb, In (b, pb) p /\ b <> a /\ d = PathGraph.distance pa pb.
Proof.
  unfold PathGraph.dists. rewrite sorted_In, in_map_iff. split.
  - intros ([b' pb] & E & I). simpl in E. injection E as <- <-.
    apply filter_In in I as [I N]. exists pb. repeat split; auto.
    simpl in N. apply negb_true_iff in N. apply String.eqb_neq in N. congruence.
  - intros (pb & I & N & ->). exists (b, pb). split; [reflexivity|].
    apply filter_In. split; [exact I|]. simpl.
    apply negb_true_iff, String.eqb_neq. congruence.
Qed.

Lemma nearest_In (p : Dict.t PathGraph.point) (a : string) (pa : PathGraph.point)
  (b : string) :
  In b (PathGraph.nearest p a pa) ->
  b <> a /\ In b (Dict.keys p).
Proof.
  unfold PathGraph.nearest. rewrite in_map_iff. intros ([d b'] & E & I).
  simpl in E. subst b'. apply In_firstn, dists_In in I as (pb & I & N & _).
  split; [exact N|]. unfold Dict.keys. apply in_map_iff. now exists (b, pb).
Qed.

Lemma nearest_length (p : Dict.t PathGraph.point) (a : string) (pa : PathGraph.point) :
  (List.length (PathGraph.nearest p a pa) <= 4)%nat.
Proof.
  unfold PathGraph.nearest. rewrite length_map. apply firstn_le_length.
Qed.

(** The nearest are all the other zones, up to four of them, each once. *)
Lemma nearest_NoDup (p : Dict.t PathGraph.point) (a : string) (pa : PathGraph.point) :
  NoDup (Dict.keys p) -> NoDup (PathGraph.nearest p a pa).
Proof.
  intro ND. unfold PathGraph.nearest, PathGraph.dists.
  rewrite <- firstn_map. apply firstn_NoDup. apply sorted_map_NoDup.
  rewrite map_map. simpl. now apply filter_map_NoDup.
Qed.

Lemma nearest_count (p : Dict.t PathGraph.point) (a : string) (pa : PathGraph.point) :
  NoDup (Dict.keys p) -> In a (Dict.keys p) ->
  List.length (PathGraph.nearest p a pa) = Nat.min 4 (List.length p - 1).
Proof.
  intros ND I. unfold PathGraph.nearest, PathGraph.dists.
  rewrite length_map, length_firstn, sorted_length, length_map.
  pose proof (others_length a p ND I) as L. unfold Dict.items. lia.
Qed.

(** A zone among the nearest is no further away than one that was left
    out. *)
Lemma nearest_closest (p : Dict.t PathGraph.point) (a : string) (pa : PathGraph.point)
  (b c : string) (pc : PathGraph.point) :
  In b (PathGraph.nearest p a pa) ->
  In (c, pc) p -> c <> a -> ~ In c (PathGraph.nearest p a pa) ->
  exists pb, In (b, pb) p
             /\ (PathGraph.distance pa pb <= PathGraph.distance pa pc)%Q.
Proof.
  intros Ib Ic Nc Out. unfold PathGraph.nearest in Ib, Out.
  apply in_map_iff in Ib as ([d b'] & E & Ib). simpl in E. subst b'.
  pose proof (In_firstn _ _ _ Ib) as Ib'. apply dists_In in Ib' as (pb & Ipb & _ & ->).
  exists pb. split; [exact Ipb|].
  assert (In (PathGraph.distance pa pc, c) (PathGraph.dists p a pa)) as Ic'
    by (apply dists_In; eauto).
  rewrite <- (firstn_skipn 4 (PathGraph.dists p a pa)) in Ic'.
  apply in_app_or in Ic' as [Ic'|Ic'].
  - exfalso. apply Out. apply in_map_iff. now exists (PathGraph.distance pa pc, c).
  - apply (firstn_skipn_sorted (fun x y : Q * string => (fst x <= fst y)%Q) 4
             (PathGraph.dists p a pa)) with (x := (PathGraph.distance pa pb, b))
                                             (y := (PathGraph.distance pa pc, c));
      [|exact Ib | exact Ic'].
    unfold PathGraph.dists. apply sorted_sorted.
    + intros x y z. apply Qle_trans.
    + apply tuple_ltb_le.
    + intros x y. apply tuple_ltb_ge.
Qed.

(** * The constructed graph *)

Lemma init_pos (zones : list Zone.t) :
  PathGraph.pos (PathGraph.__init__ zones)
  = PathGraph.pos (registered zones (PathGraph.mk Dict.empty Dict.empty)).
Proof. reflexivity. Qed.

Lemma init_keys (zones : list Zone.t) :
  NoDup (Dict.keys (PathGraph.pos (PathGraph.__init__ zones)))
  /\ forall n, In n (Dict.keys (PathGraph.pos (PathGraph.__init__ zones)))
               <-> In n (map Zone.name zones).
Proof.
  rewrite init_pos.
  destruct (registered_keys zones (PathGraph.mk Dict.empty Dict.empty))
    as (_ & ND & I); [reflexivity | constructor |].
  split; [exact ND|]. intro n. rewrite I. simpl. intuition auto.
Qed.

Lemma init_get (zones : list Zone.t) (z : Zone.t) :
  NoDup (map Zone.name zones) -> In z zones ->
  Dict.get (Zone.name z) (PathGraph.pos (PathGraph.__init__ zones))
  = Some (Zone.center z).
Proof. intros ND I. rewrite init_pos. now apply registered_get. Qed.

Lemma init_neighbours (zones : list Zone.t) (x y : string) :
  let g := PathGraph.__init__ zones in
  In y (PathGraph.neighbours (PathGraph.adj g) x)
  <-> (exists px, In (x, px) (PathGraph.pos g)
                  /\ In y (PathGraph.nearest (PathGraph.pos g) x px))
      \/ (exists py, In (y, py) (PathGraph.pos g)
                     /\ In x (PathGraph.nearest (PathGraph.pos g) y py)).
Proof.
  cbn zeta. unfold PathGraph.__init__ at 1. cbn [PathGraph.adj].
  fold (registered zones (PathGraph.mk Dict.empty Dict.empty)).
  rewrite neighbours_connects. unfold Dict.items.
  rewrite neighbours_empty_lists
    by (apply registered_empty_lists; constructor).
  rewrite init_pos. simpl. intuition auto.
Qed.

Lemma init_neighbours_NoDup (zones : list Zone.t) (x : string) :
  NoDup (PathGraph.neighbours (PathGraph.adj (PathGraph.__init__ zones)) x).
Proof.
  unfold PathGraph.__init__. cbn [PathGraph.adj].
  apply neighbours_connects_NoDup. intro k.
  fold (registered zones (PathGraph.mk Dict.empty Dict.empty)).
  rewrite neighbours_empty_lists
    by (apply registered_empty_lists; constructor).
  constructor.
Qed.

(** Every name in an adjacency list, and every name that has one, is a
    key of [pos]. *)
Lemma init_neighbours_keys (zones : list Zone.t) (x y : string) :
  let g := PathGraph.__init__ zones in
  In y (PathGraph.neighbours (PathGraph.adj g) x) ->
  In x (Dict.keys (PathGraph.pos g)) /\ In y (Dict.keys (PathGraph.pos g)).
Proof.
  cbn zeta. intro I. apply init_neighbours in I as [(px & Ix & N)|(py & Iy & N)].
  - apply nearest_In in N as [_ N]. split; [|exact N].
    apply in_map_iff. now exists (x, px).
  - apply nearest_In in N as [_ N]. split; [exact N|].
    apply in_map_iff. now exists (y, py).
Qed.

(** C4, as the code has it: the adjacency lists are symmetric and free of
    repetitions; the list of a zone holds the zones nearest to it (4 other
    zones, or all the others when there are fewer than 4, each once and
    none of them further away than a zone left out) together with every
    zone that counts it among its own nearest, and nothing else. *)
Theorem adjacency_is_symmetric_closure_of_nearest (zones : list Zone.t) :
  let g := PathGraph.__init__ zones in
  (forall a b,
     In b (PathGraph.neighbours (PathGraph.adj g) a)
     <-> In a (PathGraph.neighbours (PathGraph.adj g) b))
  /\ (forall a b,
        In b (PathGraph.neighbours (PathGraph.adj g) a)
        <-> (exists pa, In (a, pa) (PathGraph.pos g)
                        /\ In b (PathGraph.nearest (PathGraph.pos g) a pa))
            \/ (exists pb, In (b, pb) (PathGraph.pos g)
                           /\ In a (PathGraph.nearest (PathGraph.pos g) b pb)))
  /\ (forall a pa,
        In (a, pa) (PathGraph.pos g) ->
        List.length (PathGraph.nearest (PathGraph.pos g) a pa)
        = Nat.min 4 (List.length (Dict.keys (PathGraph.pos g)) - 1)
        /\ NoDup (PathGraph.nearest (PathGraph.pos g) a pa)
        /\ (forall b, In b (PathGraph.nearest (PathGraph.pos g) a pa) ->
                      b <> a /\ In b (map Zone.name zones))
        /\ (forall b c pc,
              In b (PathGraph.nearest (PathGraph.pos g) a pa) ->
              In (c, pc) (PathGraph.pos g) -> c <> a ->
              ~ In c (PathGraph.nearest (PathGraph.pos g) a pa) ->
              exists pb, Dict.get b (PathGraph.pos g) = Some pb
                         /\ (PathGraph.distance pa pb <= PathGraph.distance pa pc)%Q))
  /\ (forall a, NoDup (PathGraph.neighbours (PathGraph.adj g) a))
  /\ (forall n, In n (Dict.keys (PathGraph.pos g)) <-> In n (map Zone.name zones))
  /\ (forall z, NoDup (map Zone.name zones) -> In z zones ->
                Dict.get (Zone.name z) (PathGraph.pos g) = Some (Zone.center z)).
Proof.
  cbn zeta. destruct (init_keys zones) as [ND K].
  split; [|split; [|split; [|split; [|split]]]].
  - intros a b. rewrite !(init_neighbours zones). cbn zeta. intuition auto.
  - intros a b. apply (init_neighbours zones).
  - intros a pa Ia.
    assert (In a (Dict.keys (PathGraph.pos (PathGraph.__init__ zones)))) as Ka
      by (apply in_map_iff; now exists (a, pa)).
    split.
    { rewrite (nearest_count _ a pa ND Ka). unfold Dict.keys.
      now rewrite length_map. }
    split; [now apply nearest_NoDup|]. split.
    + intros b I. apply nearest_In in I as [N I]. split; [exact N | now apply K].
    + intros b c pc Ib Ic Nc Out.
      destruct (nearest_closest _ _ _ _ _ _ Ib Ic Nc Out) as (pb & Ipb & L).
      exists pb. split; [|exact L]. now apply items_get.
  - intro a. apply init_neighbours_NoDup.
  - exact K.
  - intros z NDz I. now apply init_get.
Qed.

End Nearest.

(** C4 as stated fails: in the world's own zone set the road has six
    neighbours. *)
Lemma road_has_six_neighbours :
  PathGraph.neighbours
    (PathGraph.adj (PathGraph.__init__ (H := Ref.lib) World._make_zones)) "road"
  = ["home_a"; "home_b"; "home_c"; "office"; "cafe"; "park"]
  /\ ~ (List.length
          (PathGraph.neighbours
             (PathGraph.adj (PathGraph.__init__ (H := Ref.lib) World._make_zones))
             "road") <= 4)%nat.
Proof.
  split; [vm_compute; reflexivity|].
  vm_compute. intro L. repeat (apply le_S_n in L). inversion L.
Qed.

(** * Breadth-first search *)

(** * Walks *)

Section Walks.
Variable adj : Dict.t (list string).

Lemma last_snoc (p : list string) (x d : string) : last (p ++ [x]) d = x.
Proof. apply last_last. Qed.

Lemma chain_snoc (p : list string) (x : string) :
  p <> [] ->
  (chain adj (p ++ [x])
   <-> chain adj p /\ In x (PathGraph.neighbours adj (last p ""))).
Proof.
  induction p as [|y p IH]; [congruence|]. intros _.
  destruct p as [|z p].
  - simpl. intuition auto.
  - change (chain adj ((y :: z :: p) ++ [x]))
      with (In z (PathGraph.neighbours adj y) /\ chain adj ((z :: p) ++ [x])).
    change (chain adj (y :: z :: p))
      with (In z (PathGraph.neighbours adj y) /\ chain adj (z :: p)).
    change (last (y :: z :: p) "") with (last (z :: p) "").
    rewrite IH by discriminate. intuition auto.
Qed.

Lemma hd_error_snoc (p : list string) (x : string) :
  p <> [] -> hd_error (p ++ [x]) = hd_error p.
Proof. destruct p; [congruence | reflexivity]. Qed.

Lemma route_reach (a b : string) (p : list string) :
  route adj a b p -> reach adj a (List.length p - 1) b.
Proof.
  revert b. induction p as [|x p IH] using rev_ind; intros b (C & Hd & L).
  - discriminate.
  - rewrite last_snoc in L. subst x. rewrite length_app. simpl.
    replace (List.length p + 1 - 1)%nat with (List.length p) by lia.
    destruct p as [|y p].
    + simpl in Hd. injection Hd as ->. constructor.
    + apply chain_snoc in C as [C I]; [|discriminate].
      rewrite hd_error_snoc in Hd by discriminate.
      specialize (IH (last (y :: p) "") (conj C (conj Hd eq_refl))).
      simpl in IH. rewrite Nat.sub_0_r in IH.
      now apply reach_step with (u := last (y :: p) "").
Qed.

Lemma reach_route (a b : string) (n : nat) :
  reach adj a n b -> exists p, route adj a b p /\ List.length p = S n.
Proof.
  induction 1 as [|n u v R (p & (C & Hd & L) & Len) I].
  - exists [a]. repeat split.
  - assert (p <> []) as NE by (destruct p; [discriminate | congruence]).
    exists (p ++ [v]). split; [split; [|split]|].
    + apply chain_snoc; [exact NE|]. now rewrite L.
    + now rewrite hd_error_snoc.
    + apply last_snoc.
    + rewrite length_app. simpl. lia.
Qed.

(** * The inner loop *)

Lemma expand_fresh (p nbs : list string) (q : list (list string)) (s : list string) :
  PathGraph.expand p nbs q s
  = (q ++ map (fun nb => p ++ [nb]) (fresh nbs s), rev (fresh nbs s) ++ s).
Proof.
  revert q s. induction nbs as [|nb r IH]; intros q s; simpl.
  - now rewrite app_nil_r.
  - destruct (Py.mem nb s); [apply IH|].
    rewrite IH. simpl. now rewrite <- !app_assoc.
Qed.

Lemma fresh_In (nbs s : list string) (x : string) :
  In x (fresh nbs s) -> In x nbs /\ ~ In x s.
Proof.
  revert s. induction nbs as [|nb r IH]; intros s; simpl; [intros []|].
  destruct (Py.mem nb s) eqn:M.
  - intro I. apply IH in I as [I N]. auto.
  - apply mem_not_In in M. intros [<-|I]; [auto|].
    apply IH in I as [I N]. split; [auto|]. intro. apply N. now right.
Qed.

Lemma fresh_complete (nbs s : list string) (x : string) :
  In x nbs -> In x s \/ In x (fresh nbs s).
Proof.
  revert s. induction nbs as [|nb r IH]; intros s; simpl; [intros []|].
  destruct (Py.mem nb s) eqn:M.
  - apply mem_In in M. intros [E|I]; [subst; now left | now apply IH].
  - intros [E|I]; [subst; right; now left|].
    destruct (IH (nb :: s) I) as [[E|I']|I'].
    + subst. right. now left.
    + now left.
    + right. now right.
Qed.

(** * The measure *)

Lemma unseen_cons_le (U : list string) (x : string) (s : list string) :
  (List.length (filter (fun y => negb (Py.mem y (x :: s))) U)
   <= List.length (filter (fun y => negb (Py.mem y s)) U))%nat.
Proof.
  unfold Py.mem. induction U as [|u U IH]; [simpl; lia|].
  simpl in IH |- *.
  destruct (String.eqb u x); simpl; destruct (existsb (String.eqb u) s); simpl; lia.
Qed.

Lemma unseen_cons_lt (U : list string) (x : string) (s : list string) :
  In x U -> ~ In x s ->
  (S (List.length (filter (fun y => negb (Py.mem y (x :: s))) U))
   <= List.length (filter (fun y => negb (Py.mem y s)) U))%nat.
Proof.
  intros I N. induction U as [|u U IH]; [destruct I|].
  pose proof (unseen_cons_le U x s) as W. apply mem_not_In in N.
  unfold Py.mem in *.
  simpl in W |- *. destruct (String.eqb_spec u x) as [->|Ne]; simpl.
  - rewrite N. simpl. lia.
  - destruct I as [E|I]; [congruence|]. specialize (IH I). simpl in IH.
    destruct (existsb (String.eqb u) s); simpl; lia.
Qed.

Lemma neighbours_in_lists (v w : string) :
  In w (PathGraph.neighbours adj v) -> In w (List.concat (Dict.values adj)).
Proof.
  unfold PathGraph.neighbours. destruct (Dict.get v adj) as [l|] eqn:G; [|intros []].
  intro I. apply in_concat. exists l. split; [|exact I].
  apply get_in_items in G. unfold Dict.values. apply in_map_iff. now exists (v, l).
Qed.

Lemma fresh_measure (nbs s : list string) :
  (forall x, In x nbs -> In x (List.concat (Dict.values adj))) ->
  (List.length (fresh nbs s) + unseen adj (rev (fresh nbs s) ++ s) <= unseen adj s)%nat.
Proof.
  revert s. induction nbs as [|nb r IH]; intros s Sub; simpl; [lia|].
  destruct (Py.mem nb s) eqn:M.
  - apply IH. intros x I. apply Sub. now right.
  - simpl. rewrite <- app_assoc. simpl.
    assert (forall x, In x r -> In x (List.concat (Dict.values adj))) as Sub'
      by (intros x I; apply Sub; now right).
    specialize (IH (nb :: s) Sub').
    apply mem_not_In in M.
    pose proof (unseen_cons_lt (List.concat (Dict.values adj)) nb s
                  (Sub nb (or_introl eq_refl)) M) as L.
    unfold unseen in *. lia.
Qed.

(** * The invariant *)

Variables a e : string.

Lemma inv_initial : bfs_inv adj a e 0 [[a]] [] [a].
Proof.
  constructor.
  - now left.
  - intros p [<-|[]]. repeat split; try discriminate; simpl; auto. intros; lia.
  - intros p [<-|[]]. reflexivity.
  - intros p [].
  - intros v [<-|[]]. left. exists [a]. simpl. auto.
  - intros m v R L. assert (m = 0)%nat as -> by lia. inversion R. now left.
Qed.

Lemma inv_relevel (d : nat) (q2 : list (list string)) (s : list string) :
  bfs_inv adj a e d [] q2 s -> bfs_inv adj a e (S d) q2 [] s.
Proof.
  intros [St Pa Q1 Q2 Se Ne]. constructor.
  - exact St.
  - intros p I. rewrite app_nil_r in I. now apply Pa.
  - exact Q2.
  - intros p [].
  - intros v I. rewrite app_nil_r. now apply Se.
  - intros m v R L. destruct (Nat.eq_dec m (S d)) as [->|N]; [|apply (Ne m); [exact R | lia]].
    inversion R as [|n u v' Ru Iv]; subst.
    assert (In u s) as Iu by (apply (Ne d); [exact Ru | lia]).
    destruct (Se u Iu) as [(p & Ip & Lp)|[_ Cl]]; [|now apply Cl].
    exfalso. simpl in Ip.
    destruct (Pa p Ip) as (_ & _ & _ & _ & Min).
    rewrite Lp in Min. specialize (Min d Ru). rewrite (Q2 p Ip) in Min. lia.
Qed.

Lemma inv_found (d : nat) (p : list string) (q1 q2 : list (list string))
  (s : list string) :
  bfs_inv adj a e d (p :: q1) q2 s -> last p "" = e ->
  route adj a e p
  /\ forall m, reach adj a m e -> (List.length p <= S m)%nat.
Proof.
  intros [St Pa Q1 Q2 Se Ne] L.
  destruct (Pa p (or_introl eq_refl)) as (_ & C & Hd & _ & Min).
  rewrite L in Min. repeat split; assumption.
Qed.

Lemma inv_step (d : nat) (p : list string) (q1 q2 : list (list string))
  (s : list string) :
  bfs_inv adj a e d (p :: q1) q2 s -> last p "" <> e ->
  let F := fresh (PathGraph.neighbours adj (last p "")) s in
  bfs_inv adj a e d q1 (q2 ++ map (fun nb => p ++ [nb]) F) (rev F ++ s).
Proof.
  intros [St Pa Q1 Q2 Se Ne] L F.
  destruct (Pa p (or_introl eq_refl)) as (NEp & Cp & Hp & _ & _).
  assert (List.length p = S d) as Lp by (apply Q1; now left).
  constructor.
  - apply in_or_app. now right.
  - intros p' I. rewrite app_assoc in I. apply in_app_or in I as [I|I].
    + destruct (Pa p' (or_intror I)) as (A1 & A2 & A3 & A4 & A5).
      repeat split; try assumption. apply in_or_app. now right.
    + apply in_map_iff in I as (nb & <- & I).
      pose proof (fresh_In _ _ _ I) as [Inb Nnb].
      split; [destruct p; discriminate|].
      split; [apply chain_snoc; auto|].
      split; [now rewrite hd_error_snoc|].
      rewrite last_snoc. split; [apply in_or_app; left; now apply in_rev in I|].
      intros m R. rewrite length_app, Lp. simpl.
      destruct (Nat.le_gt_cases m d) as [Le|Gt]; [|lia].
      exfalso. apply Nnb. now apply (Ne m).
  - intros p' I. apply Q1. now right.
  - intros p' I. apply in_app_or in I as [I|I]; [now apply Q2|].
    apply in_map_iff in I as (nb & <- & _). rewrite length_app, Lp. simpl. lia.
  - intros v I. apply in_app_or in I as [I|I].
    + left. exists (p ++ [v]). split; [|apply last_snoc].
      rewrite app_assoc. apply in_or_app. right.
      apply in_map_iff. exists v. split; [reflexivity | now apply in_rev].
    + destruct (Se v I) as [(p' & [<-|Ip'] & Lp')|[Nv Cl]].
      * right. subst v. split; [exact L|]. intros w Iw.
        apply in_or_app.
        destruct (fresh_complete _ s w Iw) as [?|?]; [now right|].
        left. now apply in_rev in H.
      * left. exists p'. split; [|exact Lp'].
        rewrite app_assoc. apply in_or_app. now left.
      * right. split; [exact Nv|]. intros w Iw. apply in_or_app. right. now apply Cl.
  - intros m v R Le. apply in_or_app. right. now apply (Ne m).
Qed.

Lemma inv_exhausted (d : nat) (s : list string) :
  bfs_inv adj a e d [] [] s -> forall m, ~ reach adj a m e.
Proof.
  intros [St Pa Q1 Q2 Se Ne] m R.
  assert (forall n v, reach adj a n v -> In v s) as All.
  { induction 1 as [|n u v Ru IH Iv]; [exact St|].
    destruct (Se u IH) as [(p & [] & _)|[_ Cl]]. now apply Cl. }
  destruct (Se e (All m e R)) as [(p & [] & _)|[N _]]. congruence.
Qed.

(** The loop of [find] ends within its budget, with a shortest walk to
    [e] when there is a walk at all and with an empty queue otherwise. *)
Lemma bfs_correct (fuel : nat) :
  forall (d : nat) (q1 q2 : list (list string)) (s : list string),
    bfs_inv adj a e d q1 q2 s ->
    (measure adj (q1 ++ q2) s < fuel)%nat ->
    match PathGraph.bfs fuel adj e (q1 ++ q2) s with
    | PathGraph.Reached p =>
        route adj a e p
        /\ forall m, reach adj a m e -> (List.length p <= S m)%nat
    | PathGraph.QueueEmpty => forall m, ~ reach adj a m e
    | PathGraph.NoFuel => False
    end.
Proof.
  induction fuel as [|fuel IH]; intros d q1 q2 s I M; [lia|].
  assert (forall d p q1 q2,
            bfs_inv adj a e d (p :: q1) q2 s ->
            (measure adj ((p :: q1) ++ q2) s < S fuel)%nat ->
            match PathGraph.bfs (S fuel) adj e ((p :: q1) ++ q2) s with
            | PathGraph.Reached p =>
                route adj a e p
                /\ forall m, reach adj a m e -> (List.length p <= S m)%nat
            | PathGraph.QueueEmpty => forall m, ~ reach adj a m e
            | PathGraph.NoFuel => False
            end) as Step.
  { clear d q1 q2 I M. intros d p q1 q2 I M. simpl.
    destruct (String.eqb_spec (last p "") e) as [L|L].
    - now apply (inv_found d p q1 q2 s).
    - rewrite expand_fresh.
      pose proof (inv_step d p q1 q2 s I L) as I'. cbn zeta in I'.
      set (F := fresh (PathGraph.neighbours adj (last p "")) s) in *.
      rewrite <- app_assoc. apply (IH d); [exact I'|].
      pose proof (fresh_measure (PathGraph.neighbours adj (last p "")) s
                    (neighbours_in_lists (last p ""))) as FM.
      unfold measure in M |- *. simpl in M.
      rewrite length_app in M. rewrite !length_app, length_map.
      fold F in FM. lia. }
  destruct q1 as [|p q1].
  - destruct q2 as [|p q2].
    + simpl. now apply (inv_exhausted d s).
    + apply inv_relevel in I.
      specialize (Step (S d) p q2 [] I). rewrite app_nil_r in Step.
      apply Step. exact M.
  - now apply (Step d).
Qed.

Lemma bfs_from_start :
  match PathGraph.bfs (PathGraph.rounds adj) adj e [[a]] [a] with
  | PathGraph.Reached p =>
      route adj a e p
      /\ forall p', route adj a e p' -> (List.length p <= List.length p')%nat
  | PathGraph.QueueEmpty => ~ connected adj a e
  | PathGraph.NoFuel => False
  end.
Proof.
  pose proof (bfs_correct (PathGraph.rounds adj) 0 [[a]] [] [a] inv_initial) as B.
  simpl app in B.
  assert (measure adj [[a]] [a] < PathGraph.rounds adj)%nat as M.
  { unfold measure, unseen, PathGraph.rounds.
    pose proof (filter_length_le (fun x => negb (Py.mem x [a]))
                  (List.concat (Dict.values adj))).
    cbn [List.length]. lia. }
  specialize (B M).
  destruct (PathGraph.bfs (PathGraph.rounds adj) adj e [[a]] [a]) as [p| |].
  - destruct B as [R Min]. split; [exact R|].
    intros p' R'. pose proof (route_reach _ _ _ R') as Re.
    specialize (Min _ Re). destruct R' as (_ & Hd & _).
    destruct p'; [discriminate|]. simpl in *. lia.
  - intros (p & R). apply route_reach in R. exact (B _ R).
  - exact B.
Qed.

End Walks.

(** * Routes *)

(** * From names to centres *)

Section Find.
Context `{PyLib}.

Lemma centers_total (pos : Dict.t PathGraph.point) (p : list string) :
  (forall n, In n p -> In n (Dict.keys pos)) ->
  exists cs, PathGraph.centers pos p = Py.Ok cs.
Proof.
  induction p as [|n p IH]; intro K; simpl; [now exists []|].
  destruct (proj1 (get_in_keys n pos) (K n (or_introl eq_refl))) as [c ->].
  destruct IH as [cs ->]; [intros; apply K; now right|].
  now exists (c :: cs).
Qed.

Lemma centers_ends (pos : Dict.t PathGraph.point) (p : list string)
  (cs : list PathGraph.point) :
  PathGraph.centers pos p = Py.Ok cs ->
  List.length cs = List.length p
  /\ (forall a ca, hd_error p = Some a -> Dict.get a pos = Some ca ->
                   hd_error cs = Some ca)
  /\ (forall cb d, p <> [] -> Dict.get (last p "") pos = Some cb -> last cs d = cb).
Proof.
  revert cs. induction p as [|n p IH]; intros cs; simpl.
  - intros [= <-]. repeat split; try discriminate. congruence.
  - destruct (Dict.get n pos) as [c|] eqn:G; [|discriminate].
    destruct (PathGraph.centers pos p) as [cs'|] eqn:C; [|discriminate].
    intros [= <-]. destruct (IH cs' eq_refl) as (L & _ & La).
    split; [simpl; now rewrite L|]. split.
    + intros a ca [= <-] G'. simpl. congruence.
    + intros cb d _ G'. destruct p as [|m p].
      * simpl in C. injection C as <-. simpl in *. congruence.
      * destruct cs' as [|c' cs']; [discriminate|].
        change (last (c :: c' :: cs') d) with (last (c' :: cs') d).
        apply La; [discriminate | exact G'].
Qed.

Lemma chain_keys (zones : list Zone.t) (p : list string) :
  let g := PathGraph.__init__ zones in
  chain (PathGraph.adj g) p ->
  (forall a, hd_error p = Some a -> In a (Dict.keys (PathGraph.pos g))) ->
  forall n, In n p -> In n (Dict.keys (PathGraph.pos g)).
Proof.
  cbn zeta. induction p as [|x p IH]; intros C Hd n I; [destruct I|].
  destruct I as [<-|I]; [now apply Hd|].
  destruct p as [|y p]; [destruct I|].
  destruct C as [Ixy C]. apply IH; [exact C | | exact I].
  intros a [= <-]. now apply (init_neighbours_keys zones x y).
Qed.

(** C3: in the graph built from a zone list, [find] from a zone to itself
    is the one-point path of its centre; between two different zones that
    are connected it is the list of centres of a walk from the first to the
    second with the fewest steps; and between two zones that are not
    connected it is the two-point path of their centres.  It never
    raises on names of the graph. *)
Theorem find_gives_shortest_route (zones : list Zone.t) (a b : string)
  (ca cb : PathGraph.point) :
  let g := PathGraph.__init__ zones in
  Dict.get a (PathGraph.pos g) = Some ca ->
  Dict.get b (PathGraph.pos g) = Some cb ->
  (a = b -> PathGraph.find g a b = Py.Ok [ca])
  /\ (a <> b -> connected (PathGraph.adj g) a b ->
      exists p cs,
        PathGraph.find g a b = Py.Ok cs
        /\ PathGraph.centers (PathGraph.pos g) p = Py.Ok cs
        /\ route (PathGraph.adj g) a b p
        /\ (forall p', route (PathGraph.adj g) a b p' ->
                       (List.length p <= List.length p')%nat)
        /\ cs <> [] /\ hd_error cs = Some ca /\ last cs ca = cb)
  /\ (a <> b -> ~ connected (PathGraph.adj g) a b ->
      PathGraph.find g a b = Py.Ok [ca; cb])
  /\ (forall z, NoDup (map Zone.name zones) -> In z zones ->
                PathGraph.find g (Zone.name z) (Zone.name z)
                = Py.Ok [Zone.center z]).
Proof.
  cbn zeta. intros Ga Gb.
  set (g := PathGraph.__init__ zones) in *.
  split; [|split; [|split]].
  - intro E. subst b. unfold PathGraph.find. rewrite String.eqb_refl.
    cbn [PathGraph.centers]. now rewrite Ga.
  - intros N Co. unfold PathGraph.find.
    apply String.eqb_neq in N. rewrite N.
    pose proof (bfs_from_start (PathGraph.adj g) a b) as B.
    destruct (PathGraph.bfs _ _ _ _ _) as [p| |]; [|contradiction | contradiction].
    destruct B as [R Min]. pose proof R as (C & Hd & L).
    destruct (centers_total (PathGraph.pos g) p) as [cs Ecs].
    { apply (chain_keys zones p C). intros a' E. rewrite Hd in E. injection E as <-.
      apply get_in_keys. eauto. }
    exists p, cs. rewrite Ecs.
    destruct (centers_ends _ _ _ Ecs) as (Len & Ehd & Elast).
    assert (p <> []) as NE by (destruct p; [discriminate | congruence]).
    repeat split; try assumption.
    + destruct cs; [|discriminate]. destruct p; [congruence | discriminate].
    + now apply (Ehd a).
    + apply Elast; [exact NE | now rewrite L].
  - intros N NC. unfold PathGraph.find.
    apply String.eqb_neq in N. rewrite N.
    pose proof (bfs_from_start (PathGraph.adj g) a b) as B.
    destruct (PathGraph.bfs _ _ _ _ _) as [p| |].
    + exfalso. apply NC. exists p. apply B.
    + cbn [PathGraph.centers]. now rewrite Ga, Gb.
    + contradiction.
  - intros z ND I. unfold PathGraph.find. rewrite String.eqb_refl.
    cbn [PathGraph.centers]. unfold g. now rewrite (init_get zones z ND I).
Qed.

End Find.

(** * Parsing a reply, and the claims on concrete data *)

Section ParseClaim.
Context `{PyLib}.

(** C5, as the code has it: [_parse] reads the text from the first opening
    brace to the last closing brace of the reply; when there is none, or
    when that text is not JSON, the world is left as it is; otherwise the
    entries are applied one by one.  An entry for an unknown id, for a dead
    agent, or with a goal string that after trimming and lowercasing is no
    goal name or is idle, changes nothing; a goal go_home is assigned with
    the agent's own home, any other goal with the first zone of its type,
    and nothing is assigned when there is no such zone; an entry never
    touches an agent it does not name.  For the example reply, an agent A
    that is alive and not inside the cafe has goal GO_CAFE and the cafe as
    target afterwards, and every other agent is as before. *)
Theorem parse_applies_text_between_outer_braces (w : World.t) :
  (forall text, Brain.search_braces text = None ->
                Brain._parse text w = (w, Py.Done))
  /\ (forall text m,
        Brain.search_braces text = Some m ->
        (exists pre post : string,
           text = (pre ++ m ++ post)%string
           /\ String.prefix "{" m = true
           /\ (exists body : string, m = (body ++ "}")%string)
           /\ no_char "{" pre /\ no_char "}" post)
        /\ (json_loads m = None -> Brain._parse text w = (w, Py.Done))
        /\ (forall members, json_loads m = Some (JObj members) ->
                            Brain._parse text w = Brain.apply_entries w members))
  /\ (forall aid act,
        (Dict.get aid (World.agents w) = None ->
         Brain.apply_entry w aid act = (w, Py.Done))
        /\ (forall a, Dict.get aid (World.agents w) = Some a ->
                      Agent.alive a = false ->
                      Brain.apply_entry w aid act = (w, Py.Done))
        /\ (forall other, other <> aid ->
              Dict.get other (World.agents (fst (Brain.apply_entry w aid act)))
              = Dict.get other (World.agents w)))
  /\ (forall aid members a,
        Dict.get aid (World.agents w) = Some a ->
        Agent.alive a = true ->
        let s := str_lower (str_strip match Dict.get "goal" members with
                                        | Some v => py_str v
                                        | None => ""
                                        end) in
        (Brain.goal_map s = None \/ s = "idle" ->
         Brain.apply_entry w aid (JObj members) = (w, Py.Done))
        /\ (forall g zt,
              s = Goal_value g -> ZONE_FOR_GOAL g = Some zt ->
              Brain.apply_entry w aid (JObj members) =
                match (if Goal_eqb g GO_HOME then Some (Agent.home a)
                       else World.zone_by_type w zt) with
                | None => (w, Py.Done)
                | Some z =>
                    (World.set_agents
                       (Dict.set aid (fst (Agent.assign g (Some z) a))
                          (World.agents w)) w,
                     snd (Agent.assign g (Some z) a))
                end))
  /\ (forall a z,
        json_loads Demo.cafe_object = Some (JObj Demo.cafe_entries) ->
        Dict.get "A" (World.agents w) = Some a ->
        Agent.alive a = true ->
        World.zone_by_type w CAFE = Some z ->
        outside a z ->
        exists a',
          Dict.get "A" (World.agents (fst (Brain._parse Demo.cafe_reply w))) = Some a'
          /\ Agent.goal a' = GO_CAFE
          /\ Agent.target a' = Some z
          /\ forall other,
               other <> "A" ->
               Dict.get other (World.agents (fst (Brain._parse Demo.cafe_reply w)))
               = Dict.get other (World.agents w)).
Proof.
  split; [|split; [|split; [|split]]].
  - intros text S. unfold Brain._parse. now rewrite S.
  - intros text m S. split; [now apply search_braces_spec|].
    unfold Brain._parse. rewrite S.
    split; [now intros -> | now intros members ->].
  - intros aid act. split; [apply apply_entry_unknown|].
    split; [intros a; apply apply_entry_dead | apply apply_entry_frame].
  - intros aid members a G A s. split.
    + intro I. apply (apply_entry_ignored w aid members a s G); [reflexivity | exact I].
    + intros g zt E Z. apply (apply_entry_goal w aid members a g zt G A); [|exact Z].
      rewrite raw_goal_of_members. fold s. now rewrite E.
  - intros a z. apply parse_cafe_reply.
Qed.

End ParseClaim.

(** C5 as stated fails twice.  A reply that holds the example object and
    then a second pair of braces is read from the first opening brace to
    the last closing one; that text is not JSON, and nothing is assigned
    although the first object alone is well formed and names the living
    agent A.  And with the example reply itself, an agent A that is alive
    and already inside the cafe keeps the goal it had. *)
Lemma parse_reads_to_last_brace_and_skips_arrived_agent :
  (Demo.two_objects = (Demo.cafe_object ++ " {}")%string
   /\ json_loads (PyLib := Ref.lib) Demo.cafe_object = Some (JObj Demo.cafe_entries)
   /\ Dict.get "A" (World.agents Demo.world0) = Some Demo.alice
   /\ Agent.alive Demo.alice = true
   /\ Brain.search_braces Demo.two_objects = Some Demo.two_objects
   /\ Brain._parse (H := Ref.lib) Demo.two_objects Demo.world0
      = (Demo.world0, Py.Done))
  /\ (Dict.get "A" (World.agents Demo.world_cafe) = Some Demo.at_cafe
      /\ Agent.alive Demo.at_cafe = true
      /\ Agent.goal Demo.at_cafe = IDLE
      /\ Brain._parse (H := Ref.lib) Demo.cafe_reply Demo.world_cafe
         = (Demo.world_cafe, Py.Done)).
Proof.
  repeat split; vm_compute; reflexivity.
Qed.

Lemma alice_outside_cafe : outside Demo.alice Demo.cafe.
Proof. vm_compute. discriminate. Defined.

Lemma parse_applies_text_between_outer_braces_witness :
  exists a',
    Dict.get "A" (World.agents (fst (Brain._parse (H := Ref.lib) Demo.cafe_reply Demo.world0)))
    = Some a'
    /\ Agent.goal a' = GO_CAFE
    /\ Agent.target a' = Some Demo.cafe
    /\ forall other,
         other <> "A" ->
         Dict.get other
           (World.agents (fst (Brain._parse (H := Ref.lib) Demo.cafe_reply Demo.world0)))
         = Dict.get other (World.agents Demo.world0).
Proof.
  assert (json_loads (PyLib := Ref.lib) Demo.cafe_object = Some (JObj Demo.cafe_entries)) as J
    by by_computation.
  assert (Dict.get "A" (World.agents Demo.world0) = Some Demo.alice) as G
    by by_computation.
  assert (Agent.alive Demo.alice = true) as A by by_computation.
  assert (World.zone_by_type Demo.world0 CAFE = Some Demo.cafe) as Z by by_computation.
  pose proof (parse_applies_text_between_outer_braces (H := Ref.lib) Demo.world0) as W.
  exact (proj2 (proj2 (proj2 (proj2 W))) Demo.alice Demo.cafe J G A Z alice_outside_cafe).
Defined.

Lemma decide_while_busy_witness :
  Brain.decide (H := Ref.lib) (Brain.Http 200 Demo.cafe_reply)
    (Brain.set_busy true Demo.brain0)
  = (Brain.set_busy true Demo.brain0, [], Py.Done).
Proof.
  apply (decide_while_busy (H := Ref.lib)). by_computation.
Defined.

Lemma failed_round_changes_no_agent_witness :
  Brain.decide (H := Ref.lib) (Brain.Http 503 "") Demo.brain0
  = (Brain.mk (Brain.world Demo.brain0) ("HTTP " ++ Py.str_int 503)%string false,
     [Brain.Asked (Brain._prompt Demo.brain0)], Py.Done).
Proof.
  assert (Brain.busy Demo.brain0 = false) as B by by_computation.
  pose proof (failed_round_changes_no_agent (H := Ref.lib) (Brain.Http 503 "")
                Demo.brain0 B) as W.
  apply (proj1 W). right. exists 503%Z, "". repeat split. discriminate.
Defined.

Lemma adjacency_is_symmetric_closure_of_nearest_witness :
  (In "road" (PathGraph.neighbours
                (PathGraph.adj (PathGraph.__init__ (H := Ref.lib) World._make_zones))
                "office")
   <-> In "office" (PathGraph.neighbours
                      (PathGraph.adj (PathGraph.__init__ (H := Ref.lib) World._make_zones))
                      "road"))
  /\ List.length
       (PathGraph.nearest (H := Ref.lib)
          (PathGraph.pos (PathGraph.__init__ (H := Ref.lib) World._make_zones))
          "office" (800, 230)%Z)
     = Nat.min 4
         (List.length
            (Dict.keys
               (PathGraph.pos (PathGraph.__init__ (H := Ref.lib) World._make_zones)))
          - 1)
  /\ NoDup
       (PathGraph.nearest (H := Ref.lib)
          (PathGraph.pos (PathGraph.__init__ (H := Ref.lib) World._make_zones))
          "office" (800, 230)%Z).
Proof.
  assert (In ("office", (800, 230)%Z)
             (PathGraph.pos (PathGraph.__init__ (H := Ref.lib) World._make_zones)))
    as I by (vm_compute; auto 10).
  pose proof (adjacency_is_symmetric_closure_of_nearest (H := Ref.lib)
                World._make_zones) as W.
  cbv zeta in W. destruct W as (W1 & _ & W3 & _).
  split; [exact (W1 "office" "road")|].
  destruct (W3 "office" (800, 230)%Z I) as (Count & Once & _).
  split; [exact Count | exact Once].
Defined.

Lemma find_gives_shortest_route_witness :
  exists p cs,
    PathGraph.find (H := Ref.lib) (PathGraph.__init__ (H := Ref.lib) World._make_zones)
      "home_a" "park" = Py.Ok cs
    /\ PathGraph.centers (H := Ref.lib)
         (PathGraph.pos (PathGraph.__init__ (H := Ref.lib) World._make_zones)) p
       = Py.Ok cs
    /\ route (PathGraph.adj (PathGraph.__init__ (H := Ref.lib) World._make_zones))
             "home_a" "park" p
    /\ (forall p',
          route (PathGraph.adj (PathGraph.__init__ (H := Ref.lib) World._make_zones))
                "home_a" "park" p' ->
          (List.length p <= List.length p')%nat)
    /\ cs <> [] /\ hd_error cs = Some (115, 135)%Z
    /\ last cs (115, 135)%Z = (530, 540)%Z.
Proof.
  assert (Dict.get "home_a"
            (PathGraph.pos (PathGraph.__init__ (H := Ref.lib) World._make_zones))
          = Some (115, 135)%Z) as Ga by by_computation.
  assert (Dict.get "park"
            (PathGraph.pos (PathGraph.__init__ (H := Ref.lib) World._make_zones))
          = Some (530, 540)%Z) as Gb by by_computation.
  assert ("home_a" <> "park") as N by discriminate.
  assert (connected
            (PathGraph.adj (PathGraph.__init__ (H := Ref.lib) World._make_zones))
            "home_a" "park") as Co.
  { exists ["home_a"; "road"; "park"]. vm_compute. auto 20. }
  pose proof (find_gives_shortest_route (H := Ref.lib) World._make_zones
                "home_a" "park" (115, 135)%Z (530, 540)%Z Ga Gb) as W.
  exact (proj1 (proj2 W) N Co).
Defined.

(** * Routes on any graph *)

(** * Routes on any graph *)

Section AnyGraph.
Context `{PyLib}.

Lemma centers_raises (pos : Dict.t PathGraph.point) (p : list string) (e : string) :
  PathGraph.centers pos p = Py.Exn e ->
  exists n, In n p /\ e = PathGraph.key_error n /\ Dict.get n pos = None.
Proof.
  induction p as [|n p IH]; simpl; [discriminate|].
  destruct (Dict.get n pos) as [c|] eqn:G.
  - destruct (PathGraph.centers pos p) as [cs|e'] eqn:C; [discriminate|].
    intros [= <-]. destruct (IH eq_refl) as (m & I & E & N). exists m. auto.
  - intros [= <-]. exists n. auto.
Qed.

Lemma centers_known (pos : Dict.t PathGraph.point) (p : list string)
  (cs : list PathGraph.point) :
  PathGraph.centers pos p = Py.Ok cs ->
  forall n, In n p -> exists c, Dict.get n pos = Some c.
Proof.
  revert cs. induction p as [|x p IH]; intros cs C n I; [destruct I|].
  simpl in C. destruct (Dict.get x pos) as [c|] eqn:G; [|discriminate].
  destruct (PathGraph.centers pos p) as [cs'|] eqn:C'; [|discriminate].
  destruct I as [<-|I]; [eauto | now apply (IH cs')].
Qed.

Lemma last_In (x : string) (p : list string) : In (last (x :: p) "") (x :: p).
Proof.
  revert x. induction p as [|y p IH]; intro x; [now left|].
  right. apply IH.
Qed.

Lemma centers_unknown_head (pos : Dict.t PathGraph.point) (n : string) (p : list string) :
  Dict.get n pos = None ->
  PathGraph.centers pos (n :: p) = Py.Exn (PathGraph.key_error n).
Proof. intro G. simpl. now rewrite G. Qed.

(** The names whose centres [find] looks up: a walk from [a] to [b], or
    the two names themselves. *)
Lemma find_looks_up (g : PathGraph.t) (a b : string) :
  exists p,
    PathGraph.find g a b = PathGraph.centers (PathGraph.pos g) p
    /\ hd_error p = Some a /\ last p "" = b
    /\ (a <> b -> (2 <= List.length p)%nat).
Proof.
  unfold PathGraph.find. destruct (String.eqb_spec a b) as [<-|N].
  - exists [a]. repeat split. congruence.
  - pose proof (bfs_from_start (PathGraph.adj g) a b) as B.
    destruct (PathGraph.bfs _ _ _ _ _) as [p| |].
    + destruct B as [(C & Hd & L) _]. exists p. repeat split; try assumption.
      intros _. destruct p as [|x [|y p]]; simpl in *; try discriminate; [|lia].
      congruence.
    + exists [a; b]. repeat split. intros _. simpl. lia.
    + contradiction.
Qed.

Lemma find_shape (g : PathGraph.t) (a b : string) :
  (forall cs,
     PathGraph.find g a b = Py.Ok cs ->
     cs <> []
     /\ (a <> b -> (2 <= List.length cs)%nat)
     /\ (exists ca, Dict.get a (PathGraph.pos g) = Some ca /\ hd_error cs = Some ca)
     /\ (exists cb, Dict.get b (PathGraph.pos g) = Some cb /\ last cs cb = cb))
  /\ (forall e,
        PathGraph.find g a b = Py.Exn e ->
        exists n, e = PathGraph.key_error n /\ Dict.get n (PathGraph.pos g) = None)
  /\ (Dict.get a (PathGraph.pos g) = None ->
      PathGraph.find g a b = Py.Exn (PathGraph.key_error a)).
Proof.
  destruct (find_looks_up g a b) as (p & -> & Hd & L & Two).
  assert (p <> []) as NE by (destruct p; [discriminate | congruence]).
  split; [|split].
  - intros cs C. destruct (centers_ends _ _ _ C) as (Len & Ehd & Elast).
    split; [destruct cs; [destruct p; [congruence | discriminate] | discriminate]|].
    split; [intro N; rewrite Len; now apply Two|].
    split.
    + destruct p as [|x p]; [congruence|]. simpl in Hd. injection Hd as ->.
      simpl in C. destruct (Dict.get a (PathGraph.pos g)) as [ca|] eqn:G; [|discriminate].
      exists ca. split; [reflexivity|]. now apply (Ehd a).
    + destruct (centers_known _ _ _ C (last p "")) as [cb G];
        [destruct p; [congruence | apply last_In] |].
      rewrite L in G.
      exists cb. split; [exact G|]. apply Elast; [exact NE | now rewrite L].
  - intros e C. destruct (centers_raises _ _ _ C) as (n & _ & E & N). eauto.
  - intro G. destruct p as [|x p]; [congruence|]. simpl in Hd. injection Hd as ->.
    now apply centers_unknown_head.
Qed.

(** X1: on any graph, [find] returns a path that is never empty, has at
    least two points when the two names differ, starts at the centre of
    the first name and ends at the centre of the second; when it raises,
    it is the KeyError of a name that has no centre, and it does raise
    whenever the start has none. *)
Theorem find_result_shape (g : PathGraph.t) (a b : string) :
  (forall cs,
     PathGraph.find g a b = Py.Ok cs ->
     cs <> []
     /\ (a <> b -> (2 <= List.length cs)%nat)
     /\ (exists ca, Dict.get a (PathGraph.pos g) = Some ca /\ hd_error cs = Some ca)
     /\ (exists cb, Dict.get b (PathGraph.pos g) = Some cb /\ last cs cb = cb))
  /\ (forall e,
        PathGraph.find g a b = Py.Exn e ->
        exists n, e = PathGraph.key_error n /\ Dict.get n (PathGraph.pos g) = None)
  /\ (Dict.get a (PathGraph.pos g) = None ->
      PathGraph.find g a b = Py.Exn (PathGraph.key_error a)).
Proof. exact (find_shape g a b). Qed.

End AnyGraph.

(** * Goal assignment and the path discipline *)

(** * Goal assignment *)

Section Assignment.
Context `{PyLib}.

Lemma Goal_eqb_refl (g : Goal) : Goal_eqb g g = true.
Proof. now destruct g. Qed.

Lemma opt_Zone_eqb_refl (tg : option Zone.t) : opt_Zone_eqb tg tg = true.
Proof. destruct tg as [z|]; [now apply Zone_eqb_eq | reflexivity]. Qed.

Lemma assign_same_body (g : Goal) (tg : option Zone.t) (a : Agent.t) :
  same_body a (fst (Agent.assign g tg a)).
Proof.
  unfold Agent.assign, same_body.
  destruct (negb (Agent.alive a)); [repeat split|].
  destruct (Goal_eqb g IDLE); [repeat split|].
  destruct (match Agent.zone a with Some _ => _ | None => _ end); [repeat split|].
  destruct (_ && _ && _); [repeat split|].
  destruct tg as [z|]; [|repeat split].
  destruct (PathGraph.find _ _ _); repeat split.
Qed.

Lemma retargeted_twice (g : Goal) (tg : option Zone.t) (a : Agent.t) :
  retargeted g tg (retargeted g tg a) = retargeted g tg a.
Proof. reflexivity. Qed.

Lemma assign_again (g : Goal) (tg : option Zone.t) (a : Agent.t) :
  fst (Agent.assign g tg (fst (Agent.assign g tg a))) = fst (Agent.assign g tg a).
Proof.
  unfold Agent.assign at 2 3.
  destruct (negb (Agent.alive a)) eqn:D;
    [cbn [fst]; unfold Agent.assign; now rewrite D|].
  destruct (Goal_eqb g IDLE) eqn:I.
  { cbn [fst]. unfold Agent.assign. cbn [Agent.alive Agent.set_path Agent.set_target
      Agent.set_goal]. now rewrite D, I. }
  destruct (match Agent.zone a with Some _ => _ | None => _ end) eqn:Z;
    [cbn [fst]; unfold Agent.assign; now rewrite D, I, Z|].
  destruct (Goal_eqb (Agent.goal a) g && opt_Zone_eqb (Agent.target a) tg
            && negb match Agent.path a with [] => true | _ :: _ => false end) eqn:S;
    [cbn [fst]; unfold Agent.assign; now rewrite D, I, Z, S|].
  fold (retargeted g tg a).
  assert (forall b, Agent.alive b = Agent.alive a -> Agent.zone b = Agent.zone a ->
                    Agent.goal b = g -> Agent.target b = tg -> Agent.path b <> [] ->
                    fst (Agent.assign g tg b) = b) as Same.
  { intros b Ea Ez Eg Et Ep. unfold Agent.assign. rewrite Ea, D, I, Ez, Z, Eg, Et.
    rewrite Goal_eqb_refl, opt_Zone_eqb_refl.
    destruct (Agent.path b); [congruence | reflexivity]. }
  assert (Agent.path (retargeted g tg a) = Agent.path a) as Ep by reflexivity.
  destruct tg as [z|].
  - change (Agent.zone (retargeted g (Some z) a)) with (Agent.zone a).
    change (Agent.home (retargeted g (Some z) a)) with (Agent.home a).
    change (Agent.graph (retargeted g (Some z) a)) with (Agent.graph a).
    set (start := match Agent.zone a with
                  | Some z0 => Zone.name z0
                  | None => Zone.name (Agent.home a)
                  end).
    destruct (PathGraph.find (Agent.graph a) start (Zone.name z)) as [p|e] eqn:F.
    + cbn [fst]. apply Same; try reflexivity.
      cbn [Agent.path Agent.set_path_i Agent.set_path].
      destruct (find_shape (Agent.graph a) start (Zone.name z)) as (Sh & _).
      now destruct (Sh p F).
    + cbn [fst]. destruct (Agent.path a) as [|c cs] eqn:P.
      * unfold Agent.assign.
        change (Agent.alive (retargeted g (Some z) a)) with (Agent.alive a).
        change (Agent.zone (retargeted g (Some z) a)) with (Agent.zone a).
        rewrite D, I, Z, Ep, !andb_false_r.
        fold (retargeted g (Some z) (retargeted g (Some z) a)).
        rewrite retargeted_twice.
        change (Agent.zone (retargeted g (Some z) a)) with (Agent.zone a).
        change (Agent.home (retargeted g (Some z) a)) with (Agent.home a).
        change (Agent.graph (retargeted g (Some z) a)) with (Agent.graph a).
        fold start. now rewrite F.
      * apply Same; try reflexivity. rewrite Ep. discriminate.
  - cbn [fst]. destruct (Agent.path a) as [|c cs] eqn:P.
    + unfold Agent.assign.
      change (Agent.alive (retargeted g None a)) with (Agent.alive a).
      change (Agent.zone (retargeted g None a)) with (Agent.zone a).
      rewrite D, I, Ep, !andb_false_r.
      destruct (Agent.zone a); reflexivity.
    + apply Same; try reflexivity. rewrite Ep. discriminate.
Qed.

(** X2: assigning the same goal and target twice in a row leaves the agent
    as the first assignment left it. *)
Theorem assign_twice_is_assign_once (g : Goal) (tg : option Zone.t) (a : Agent.t) :
  fst (Agent.assign g tg (fst (Agent.assign g tg a))) = fst (Agent.assign g tg a).
Proof. exact (assign_again g tg a). Qed.

(** * The path and its cursor *)

Lemma assign_discipline (g : Goal) (tg : option Zone.t) (a : Agent.t) :
  path_discipline a -> path_discipline (fst (Agent.assign g tg a)).
Proof.
  intros [P C]. unfold Agent.assign.
  destruct (negb (Agent.alive a)); [now split|].
  destruct (Goal_eqb g IDLE) eqn:I; [split; [intro N; now elim N | now left]|].
  destruct (match Agent.zone a with Some _ => _ | None => _ end); [now split|].
  destruct (_ && _ && _); [now split|].
  assert (g <> IDLE) as G by (intros ->; discriminate).
  destruct tg as [z|]; [|split; [intros _; exact G | exact C]].
  destruct (PathGraph.find _ _ _) as [p|e] eqn:F;
    [|split; [intros _; exact G | exact C]].
  destruct (find_shape (Agent.graph a)
              match Agent.zone a with
              | Some z0 => Zone.name z0
              | None => Zone.name (Agent.home a)
              end (Zone.name z)) as (Sh & _).
  destruct (Sh p F) as (NE & _).
  split; [intros _; exact G|]. right. simpl. destruct p; [congruence | simpl; lia].
Qed.

End Assignment.

Section Cursor.
Context `{PyLib}.

Lemma move_discipline (b : Agent.t) :
  path_discipline b -> path_discipline (Agent._move b).
Proof.
  intros [P C]. unfold Agent._move.
  destruct (nth_error (Agent.path b) (Agent.path_i b)) as [[tx ty]|] eqn:N;
    [|now split].
  destruct (Py.ltb _ _); [|now split].
  cbn [Agent.path Agent.path_i Agent.set_path_i Agent.set_pos].
  destruct (List.length (Agent.path b) <=? Agent.path_i b + 1)%nat eqn:L.
  - split; [intro E; now elim E | now left].
  - apply Nat.leb_gt in L. split; [exact P | right; simpl; lia].
Qed.

Lemma health_check_discipline (b : Agent.t) :
  path_discipline b -> path_discipline (Agent._health_check b).
Proof.
  intros [P C].
  destruct (health_check_cases b) as [[_ ->]|[_ ->]];
    [split; [intro E; now elim E | now left] | now split].
Qed.

Lemma tick_discipline (a : Agent.t) :
  path_discipline a -> path_discipline (Agent.tick a).
Proof.
  intro D. unfold Agent.tick. destruct (negb (Agent.alive a)); [exact D|].
  assert (path_discipline (Agent._move (checked a))) as [P C].
  { apply move_discipline, health_check_discipline.
    destruct (fed_fields a) as (_ & _ & Fp & Fi & _ & Fg & _).
    unfold path_discipline. fold (fed a). now rewrite Fp, Fi, Fg. }
  fold (fed a). fold (checked a).
  generalize dependent (Agent._move (checked a)). intros b P C.
  destruct (Goal_eqb _ IDLE); split; assumption.
Qed.

Lemma run_discipline (xs : list action) (a : Agent.t) :
  path_discipline a -> path_discipline (run xs a).
Proof.
  revert a. induction xs as [|x xs IH]; intros a D; [exact D|].
  simpl. apply IH. destruct x; simpl;
    [now apply tick_discipline | now apply assign_discipline].
Qed.

(** X3: whatever ticks and assignments an agent goes through, it holds a
    path only while its goal is not IDLE, and its cursor always points
    into the path it holds. *)
Theorem path_discipline_is_kept (xs : list action) (a : Agent.t) :
  path_discipline a -> path_discipline (run xs a).
Proof. exact (run_discipline xs a). Qed.

End Cursor.

(** * Rates of change and the snapshot *)

(** * How fast health and needs can change *)





Section Rates.
Context `{PyLib}.








End Rates.

(** * The snapshot for the decision service *)

Lemma lowest_is_lowest (ns : Needs) (k : Need) :
  (Needs_get ns (Needs_min ns) <= Needs_get ns k)%Q.
Proof.
  destruct (Needs_min_first_lowest ns) as (before & after & E & B & Af).
  assert (In k NEEDS) as I by (destruct k; simpl; auto).
  rewrite E in I. apply in_app_or in I as [I|[<-|I]].
  - apply Qlt_le_weak. now apply B.
  - apply Qle_refl.
  - now apply Af.
Qed.

(** X6: the status the decision service is shown is DYING exactly when
    some need is below the critical threshold (the condition under which
    the next health check takes health away), OK exactly when no need is
    below the low threshold, and LOW otherwise; unless the status is OK the
    suggested fix is the remedy of the first lowest need. *)
Theorem snapshot_status_follows_lowest_need (a : Agent.t) :
  let s := Agent.state_for_ai a in
  Agent.s_id s = Agent.id a
  /\ (Agent.s_status s = "DYING"
      <-> exists k, (Needs_get (Agent.needs a) k < Config.CRITICAL)%Q)
  /\ (Agent.s_status s = "DYING" <-> (0 < Agent.crit_count (Agent.needs a))%nat)
  /\ (Agent.s_status s = "OK"
      <-> forall k, (Config.LOW <= Needs_get (Agent.needs a) k)%Q)
  /\ (Agent.s_status s = "DYING" \/ Agent.s_status s = "LOW"
      \/ Agent.s_status s = "OK")
  /\ (Agent.s_status s <> "OK" ->
      Agent.s_fix s = NEED_FIX (Needs_min (Agent.needs a)))
  /\ (Agent.s_status s = "OK" -> Agent.s_fix s = "any").
Proof.
  cbn zeta. unfold Agent.state_for_ai, Agent.lowest_need.
  pose proof (lowest_is_lowest (Agent.needs a)) as Low.
  set (v := Needs_get (Agent.needs a) (Needs_min (Agent.needs a))) in *.
  assert ((0 < Agent.crit_count (Agent.needs a))%nat
          <-> exists k, (Needs_get (Agent.needs a) k < Config.CRITICAL)%Q) as Crit.
  { split.
    - intro P.
      destruct (ltb_spec (Needs_get (Agent.needs a) hunger) Config.CRITICAL); [eauto|].
      destruct (ltb_spec (Needs_get (Agent.needs a) energy) Config.CRITICAL); [eauto|].
      destruct (ltb_spec (Needs_get (Agent.needs a) social) Config.CRITICAL); [eauto|].
      destruct (ltb_spec (Needs_get (Agent.needs a) work) Config.CRITICAL); [eauto|].
      rewrite crit_count_zero in P; [lia|].
      intros []; now apply Qnot_lt_le.
    - unfold Agent.crit_count, Needs_values, NEEDS.
      intros [k K]. apply ltb_true in K.
      assert (In (Needs_get (Agent.needs a) k)
                 (filter (fun v => Py.ltb v Config.CRITICAL)
                    (map (Needs_get (Agent.needs a)) [hunger; energy; social; work]))) as I.
      { apply filter_In. split; [|exact K]. apply in_map. destruct k; simpl; auto. }
      destruct (filter _ _); [destruct I | simpl; lia]. }
  destruct (ltb_spec v Config.CRITICAL) as [C|C];
    cbn [Agent.s_id Agent.s_status Agent.s_fix].
  - split; [reflexivity|].
    assert (exists k, (Needs_get (Agent.needs a) k < Config.CRITICAL)%Q) as Ex
      by (exists (Needs_min (Agent.needs a)); exact C).
    split; [tauto|]. split; [tauto|].
    split; [split; [discriminate|]|].
    { intro All. specialize (All (Needs_min (Agent.needs a))).
      fold v in All. unfold Config.LOW, Config.CRITICAL in *. lra. }
    split; [auto|]. split; [reflexivity | discriminate].
  - assert (~ exists k, (Needs_get (Agent.needs a) k < Config.CRITICAL)%Q) as NEx.
    { intros [k K]. specialize (Low k). lra. }
    destruct (ltb_spec v Config.LOW) as [L|L];
      cbn [Agent.s_id Agent.s_status Agent.s_fix].
    + split; [reflexivity|]. split; [split; [discriminate | tauto]|].
      split; [split; [discriminate | tauto]|].
      split; [split; [discriminate|]|].
      { intro All. specialize (All (Needs_min (Agent.needs a))). fold v in All. lra. }
      split; [auto|]. split; [reflexivity | discriminate].
    + split; [reflexivity|]. split; [split; [discriminate | tauto]|].
      split; [split; [discriminate | tauto]|].
      split; [split; [|reflexivity]|].
      { intros _ k. specialize (Low k). lra. }
      split; [auto|]. split; [congruence | reflexivity].
Qed.

(** * Assignment and updates in the world *)

(** * Assignment inside the world of the graph *)

Section AssignRoute.
Context `{PyLib}.

Lemma find_total_built (zs : list Zone.t) (a b : string) :
  In a (Dict.keys (PathGraph.pos (PathGraph.__init__ zs))) ->
  In b (Dict.keys (PathGraph.pos (PathGraph.__init__ zs))) ->
  exists cs, PathGraph.find (PathGraph.__init__ zs) a b = Py.Ok cs.
Proof.
  intros Ka Kb. unfold PathGraph.find.
  destruct (String.eqb a b).
  - apply centers_total. intros n [<-|[]]. exact Ka.
  - pose proof (bfs_from_start (PathGraph.adj (PathGraph.__init__ zs)) a b) as B.
    destruct (PathGraph.bfs _ _ _ _ _) as [p| |].
    + destruct B as [(C & Hd & _) _]. apply centers_total.
      apply (chain_keys zs p C). intros a' E. rewrite Hd in E. now injection E as <-.
    + apply centers_total. intros n [<-|[<-|[]]]; assumption.
    + contradiction.
Qed.

(** X7: for a living agent whose graph was built from its zone list (with
    unique names), an assignment of a goal other than IDLE with a target
    zone of that list, which is neither the zone the agent stands in nor
    the assignment already in progress, never raises: it sets goal and
    target, resets the wait counter and the cursor, and stores a path that
    starts at the centre of the zone the agent stands in (its home when it
    is between zones) and ends at the centre of the target. *)
Theorem assign_routes_from_current_zone (zs : list Zone.t) (g : Goal)
  (z : Zone.t) (a : Agent.t) :
  NoDup (map Zone.name zs) -> at_home_in zs a -> In z zs ->
  Agent.alive a = true -> g <> IDLE -> outside a z ->
  ~ (Agent.goal a = g /\ Agent.target a = Some z /\ Agent.path a <> []) ->
  exists cs,
    Agent.assign g (Some z) a
    = (Agent.set_path_i 0 (Agent.set_path cs (retargeted g (Some z) a)), Py.Done)
    /\ cs <> []
    /\ hd_error cs
       = Some (Zone.center match Agent.zone a with
                           | Some z0 => z0
                           | None => Agent.home a
                           end)
    /\ last cs (Zone.center z) = Zone.center z.
Proof.
  intros ND (Eg & Ih & Iz) Izs A G O NS.
  set (z0 := match Agent.zone a with Some z0 => z0 | None => Agent.home a end).
  assert (In z0 zs) as I0 by (unfold z0; destruct (Agent.zone a); assumption).
  pose proof (init_get zs z0 ND I0) as G0.
  pose proof (init_get zs z ND Izs) as Gz.
  destruct (find_total_built zs (Zone.name z0) (Zone.name z)) as [cs F];
    [apply get_in_keys; eauto | apply get_in_keys; eauto |].
  destruct (find_shape (PathGraph.__init__ zs) (Zone.name z0) (Zone.name z)) as (Sh & _).
  destruct (Sh cs F) as (NE & _ & (ca & Ga & Hd) & (cb & Gb & La)).
  rewrite G0 in Ga. injection Ga as <-. rewrite Gz in Gb. injection Gb as <-.
  exists cs. split; [|auto].
  unfold Agent.assign. rewrite A. simpl negb. cbv iota.
  destruct (Goal_eqb g IDLE) eqn:I; [apply Goal_eqb_eq in I; contradiction|].
  assert (match Agent.zone a with
          | Some z1 => Zone.name z1 =? Zone.name z
          | None => false
          end = false) as Z.
  { unfold outside in O. destruct (Agent.zone a); [|reflexivity].
    now apply String.eqb_neq. }
  rewrite Z.
  destruct (Goal_eqb (Agent.goal a) g && opt_Zone_eqb (Agent.target a) (Some z)
            && negb match Agent.path a with [] => true | _ :: _ => false end) eqn:S.
  { exfalso. apply NS. apply andb_true_iff in S as [S P].
    apply andb_true_iff in S as [Sg St]. apply Goal_eqb_eq in Sg.
    split; [exact Sg|]. split.
    - destruct (Agent.target a) as [t|]; [|discriminate].
      simpl in St. apply Zone_eqb_eq in St. now subst.
    - destruct (Agent.path a); [discriminate | discriminate]. }
  fold (retargeted g (Some z) a).
  change (Agent.zone (retargeted g (Some z) a)) with (Agent.zone a).
  change (Agent.home (retargeted g (Some z) a)) with (Agent.home a).
  change (Agent.graph (retargeted g (Some z) a)) with (Agent.graph a).
  rewrite Eg.
  replace (match Agent.zone a with
           | Some z1 => Zone.name z1
           | None => Zone.name (Agent.home a)
           end) with (Zone.name z0) by (unfold z0; now destruct (Agent.zone a)).
  now rewrite F.
Qed.

End AssignRoute.

(** * The world *)

Section WorldFacts.
Context `{PyLib}.

Lemma updates_S (n : nat) (w : World.t) :
  updates (S n) w = World.update (updates n w).
Proof. reflexivity. Qed.

Lemma get_map_values {A B : Type} (f : A -> B) (d : Dict.t A) (i : string) :
  Dict.get i (map (fun ia : string * A => (fst ia, f (snd ia))) d)
  = option_map f (Dict.get i d).
Proof.
  induction d as [|[k v] d IH]; simpl; [reflexivity|].
  destruct (String.eqb i k); [reflexivity | exact IH].
Qed.

Lemma keys_map_values {A B : Type} (f : A -> B) (d : Dict.t A) :
  Dict.keys (map (fun ia : string * A => (fst ia, f (snd ia))) d) = Dict.keys d.
Proof. unfold Dict.keys. rewrite map_map. reflexivity. Qed.

Lemma updates_spec (n : nat) (w : World.t) :
  World.zones (updates n w) = World.zones w
  /\ World.graph (updates n w) = World.graph w
  /\ World.tick_count (updates n w) = (World.tick_count w + Z.of_nat n)%Z
  /\ World.agents (updates n w)
     = map (fun ia : string * Agent.t => (fst ia, ticks n (snd ia))) (World.agents w).
Proof.
  induction n as [|n (Ez & Eg & Et & Ea)].
  - split; [reflexivity|]. split; [reflexivity|].
    split; [simpl; lia|]. simpl.
    induction (World.agents w) as [|[k v] d IH]; simpl; [reflexivity | now rewrite <- IH].
  - rewrite updates_S. unfold World.update at 1 2 3 4.
    cbn [World.zones World.graph World.tick_count World.agents].
    rewrite Ez, Eg, Et, Ea, map_map.
    split; [reflexivity|]. split; [reflexivity|]. split; [lia|].
    apply map_ext. intros [k v]. reflexivity.
Qed.

Lemma tick_keeps_range_n (n : nat) (a : Agent.t) :
  in_range a -> in_range (ticks n a).
Proof.
  intro R. induction n as [|n IH]; [exact R|].
  rewrite ticks_S. now apply tick_in_range.
Qed.

(** X8: [n] updates of the world tick every agent [n] times and touch
    nothing else: the ids and their order, the zones and the graph stay,
    the tick counter grows by [n], and each agent is what [n] ticks make of
    it on its own, so no agent ever affects another; agents within their
    ranges stay within them. *)
Theorem updates_tick_each_agent_alone (n : nat) (w : World.t) :
  World.zones (updates n w) = World.zones w
  /\ World.graph (updates n w) = World.graph w
  /\ World.tick_count (updates n w) = (World.tick_count w + Z.of_nat n)%Z
  /\ Dict.keys (World.agents (updates n w)) = Dict.keys (World.agents w)
  /\ (forall i, Dict.get i (World.agents (updates n w))
                = option_map (ticks n) (Dict.get i (World.agents w)))
  /\ ((forall i a, Dict.get i (World.agents w) = Some a -> in_range a) ->
      forall i a, Dict.get i (World.agents (updates n w)) = Some a -> in_range a).
Proof.
  destruct (updates_spec n w) as (Ez & Eg & Et & Ea).
  split; [exact Ez|]. split; [exact Eg|]. split; [exact Et|].
  rewrite Ea. split; [apply keys_map_values|].
  split; [intro i; apply get_map_values|].
  intros R i a. rewrite get_map_values.
  destruct (Dict.get i (World.agents w)) as [a0|] eqn:G; [|discriminate].
  intros [= <-]. apply tick_keeps_range_n. now apply (R i).
Qed.

End WorldFacts.

(** * What a reply can and cannot do *)

(** * What a reply can and cannot do *)

Lemma same_body_refl (a : Agent.t) : same_body a a.
Proof. unfold same_body. repeat split. Qed.

Lemma same_body_trans (a b c : Agent.t) :
  same_body a b -> same_body b c -> same_body a c.
Proof.
  unfold same_body. intros H1 H2.
  repeat match goal with H : _ /\ _ |- _ => destruct H end.
  repeat split; congruence.
Qed.

Lemma reassigned_refl (w : World.t) : reassigned w w.
Proof.
  repeat split. intros i a G. exists a. split; [exact G | apply same_body_refl].
Qed.

Lemma reassigned_trans (w1 w2 w3 : World.t) :
  reassigned w1 w2 -> reassigned w2 w3 -> reassigned w1 w3.
Proof.
  intros (Z1 & G1 & T1 & K1 & A1) (Z2 & G2 & T2 & K2 & A2).
  repeat split; try congruence.
  intros i a G. destruct (A1 i a G) as (a' & G' & S').
  destruct (A2 i a' G') as (a'' & G'' & S''). exists a''.
  split; [exact G'' | now apply (same_body_trans a a' a'')].
Qed.

Section Replies.
Context `{PyLib}.

Lemma apply_entry_reassigned (w : World.t) (aid : string) (act : JSON) :
  reassigned w (fst (Brain.apply_entry w aid act)).
Proof.
  unfold Brain.apply_entry.
  destruct (Dict.get aid (World.agents w)) as [agent|] eqn:G; [|apply reassigned_refl].
  destruct (negb (Agent.alive agent)); [apply reassigned_refl|].
  destruct (Brain.raw_goal act) as [s|e]; [|apply reassigned_refl].
  destruct (Brain.goal_map s) as [g|]; [|apply reassigned_refl].
  destruct (Goal_eqb g IDLE); [apply reassigned_refl|].
  destruct (ZONE_FOR_GOAL g) as [zt|]; [|apply reassigned_refl].
  destruct (if Goal_eqb g GO_HOME then _ else _) as [z|]; [|apply reassigned_refl].
  pose proof (assign_same_body g (Some z) agent) as SB.
  destruct (Agent.assign g (Some z) agent) as [agent' o]. cbn [fst] in SB |- *.
  unfold reassigned.
  cbn [World.zones World.graph World.tick_count World.agents World.set_agents].
  repeat split.
  - apply keys_set_present. apply get_in_keys. eauto.
  - intros i a Gi. destruct (String.eqb_spec i aid) as [->|N].
    + rewrite get_set_same. exists agent'. split; [reflexivity|]. congruence.
    + rewrite get_set_other by exact N. exists a. split; [exact Gi | apply same_body_refl].
Qed.

Lemma apply_entries_reassigned (entries : list (string * JSON)) (w : World.t) :
  reassigned w (fst (Brain.apply_entries w entries)).
Proof.
  revert w. induction entries as [|[aid act] r IH]; intro w; [apply reassigned_refl|].
  simpl. pose proof (apply_entry_reassigned w aid act) as R.
  destruct (Brain.apply_entry w aid act) as [w' [|e]]; simpl in R |- *.
  - apply (reassigned_trans w w'); [exact R | apply IH].
  - exact R.
Qed.

Lemma parse_reassigned (text : string) (w : World.t) :
  reassigned w (fst (Brain._parse text w)).
Proof.
  unfold Brain._parse.
  destruct (Brain.search_braces text) as [m|]; [|apply reassigned_refl].
  destruct (json_loads m) as [[| | | | | |members]|]; try apply reassigned_refl.
  apply apply_entries_reassigned.
Qed.

(** X9: whatever the service sends back, a call of [decide] leaves the
    zones, the graph, the tick counter and the agent ids with their order
    as they were, and changes no agent's identity, home, position, zone,
    health, alive flag, death reason, thought or needs: a reply can only
    set goal, target, path, cursor and wait counter. *)
Theorem decide_only_reassigns (r : Brain.reply) (b : Brain.t) :
  reassigned (Brain.world b) (Brain.world (fst (fst (Brain.decide r b)))).
Proof.
  unfold Brain.decide. destruct (Brain.busy b); [apply reassigned_refl|].
  unfold Brain.attempt. destruct (Brain._ask r) as [text|e].
  - cbn [Brain.world Brain.set_raw Brain.set_busy].
    pose proof (parse_reassigned text (Brain.world b)) as R.
    destruct (Brain._parse text (Brain.world b)) as [w' [|e]]; exact R.
  - apply reassigned_refl.
Qed.

Lemma apply_entries_app (pre rest : list (string * JSON)) (w : World.t) :
  Brain.apply_entries w (pre ++ rest)
  = match Brain.apply_entries w pre with
    | (w1, Py.Done) => Brain.apply_entries w1 rest
    | (w1, Py.Raised e) => (w1, Py.Raised e)
    end.
Proof.
  revert w. induction pre as [|[aid act] pre IH]; intro w; [reflexivity|].
  simpl. destruct (Brain.apply_entry w aid act) as [w' [|e]]; [apply IH | reflexivity].
Qed.

(** X10: an entry for a living agent whose value is not an object raises
    inside [_parse]; the entries before it stay applied, the entries after
    it are never looked at, and [decide] stores the text of the exception
    as the raw response and ends the round not busy. *)
Theorem bad_entry_stops_the_round (b : Brain.t) (text m : string)
  (pre post : list (string * JSON)) (aid : string) (v : JSON)
  (w1 : World.t) (a : Agent.t) :
  Brain.busy b = false ->
  Brain.search_braces text = Some m ->
  json_loads m = Some (JObj (pre ++ (aid, v) :: post)) ->
  Brain.apply_entries (Brain.world b) pre = (w1, Py.Done) ->
  Dict.get aid (World.agents w1) = Some a ->
  Agent.alive a = true ->
  (forall members, v <> JObj members) ->
  let err := ("'" ++ JSON_type_name v ++ "' object has no attribute 'get'")%string in
  Brain._parse text (Brain.world b) = (w1, Py.Raised err)
  /\ Brain.decide (Brain.Http 200 text) b
     = (Brain.mk w1 err false,
        [Brain.Asked (Brain._prompt b); Brain.Parsed text], Py.Done).
Proof.
  intros B S J P G A NO err.
  assert (Brain._parse text (Brain.world b) = (w1, Py.Raised err)) as E.
  { unfold Brain._parse. rewrite S, J, apply_entries_app, P. simpl.
    unfold Brain.apply_entry. rewrite G, A. simpl negb. cbv iota.
    destruct v; try reflexivity. now elim (NO members). }
  split; [exact E|].
  unfold Brain.decide, Brain.attempt. rewrite B. simpl Brain._ask. cbv iota.
  cbn [Brain.world Brain.set_raw Brain.set_busy]. rewrite E. reflexivity.
Qed.

(** X11: a reply all of whose entries name ids the world does not have, or
    agents that are dead, changes nothing and raises nothing, whatever the
    values of the entries are. *)
Theorem entries_for_absent_agents_change_nothing (w : World.t)
  (entries : list (string * JSON)) :
  (forall aid act, In (aid, act) entries ->
     match Dict.get aid (World.agents w) with
     | None => True
     | Some a => Agent.alive a = false
     end) ->
  Brain.apply_entries w entries = (w, Py.Done)
  /\ forall text m,
       Brain.search_braces text = Some m ->
       json_loads m = Some (JObj entries) ->
       Brain._parse text w = (w, Py.Done).
Proof.
  intro Ab.
  assert (Brain.apply_entries w entries = (w, Py.Done)) as E.
  { induction entries as [|[aid act] r IH]; [reflexivity|].
    simpl. pose proof (Ab aid act (or_introl eq_refl)) as Ab0.
    assert (Brain.apply_entry w aid act = (w, Py.Done)) as ->.
    { destruct (Dict.get aid (World.agents w)) as [a|] eqn:G.
      - now apply (apply_entry_dead w aid act a).
      - now apply apply_entry_unknown. }
    apply IH. intros aid' act' I. apply (Ab aid' act'). now right. }
  split; [exact E|]. intros text m S J. unfold Brain._parse. now rewrite S, J.
Qed.

End Replies.

(** * How many neighbours a zone has *)

(** * How many neighbours a zone has *)

Section Degrees.
Context `{PyLib}.

Lemma init_no_self (zs : list Zone.t) (a : string) :
  ~ In a (PathGraph.neighbours (PathGraph.adj (PathGraph.__init__ zs)) a).
Proof.
  intro I. apply (init_neighbours zs) in I as [(pa & _ & N)|(pa & _ & N)];
    apply nearest_In in N as [N _]; congruence.
Qed.

Lemma init_degree (zs : list Zone.t) (a : string) :
  let g := PathGraph.__init__ zs in
  In a (Dict.keys (PathGraph.pos g)) ->
  (Nat.min 4 (List.length (Dict.keys (PathGraph.pos g)) - 1)
   <= List.length (PathGraph.neighbours (PathGraph.adj g) a))%nat
  /\ (S (List.length (PathGraph.neighbours (PathGraph.adj g) a))
      <= List.length (Dict.keys (PathGraph.pos g)))%nat.
Proof.
  cbn zeta. intro K. destruct (init_keys zs) as [ND _].
  set (g := PathGraph.__init__ zs) in *.
  destruct (proj1 (get_in_keys a (PathGraph.pos g)) K) as [pa G].
  pose proof (get_in_items _ _ _ G) as Ia. split.
  - unfold Dict.keys at 1. rewrite length_map.
    rewrite <- (nearest_count (PathGraph.pos g) a pa ND K).
    apply NoDup_incl_length; [now apply nearest_NoDup|].
    intros b Ib. apply (init_neighbours zs a b). left. eauto.
  - change (S (List.length (PathGraph.neighbours (PathGraph.adj g) a)))
      with (List.length (a :: PathGraph.neighbours (PathGraph.adj g) a)).
    apply NoDup_incl_length.
    + constructor; [apply init_no_self | apply init_neighbours_NoDup].
    + intros b [<-|Ib]; [exact K|]. now apply (init_neighbours_keys zs a b).
Qed.

(** X12: in the graph built from a zone list with [n] distinct names, no
    zone is its own neighbour, and every zone has at least [min(4, n-1)]
    and at most [n-1] neighbours. *)
Theorem zone_degree_bounds (zs : list Zone.t) (a : string) :
  let g := PathGraph.__init__ zs in
  let n := List.length (Dict.keys (PathGraph.pos g)) in
  In a (map Zone.name zs) ->
  ~ In a (PathGraph.neighbours (PathGraph.adj g) a)
  /\ (Nat.min 4 (n - 1) <= List.length (PathGraph.neighbours (PathGraph.adj g) a))%nat
  /\ (List.length (PathGraph.neighbours (PathGraph.adj g) a) <= n - 1)%nat.
Proof.
  cbn zeta. intro I. apply (proj2 (init_keys zs)) in I.
  destruct (init_degree zs a I) as [L U].
  split; [apply init_no_self|]. split; [exact L | lia].
Qed.

Lemma init_small_complete (zs : list Zone.t) (a b : string) :
  let g := PathGraph.__init__ zs in
  (List.length (Dict.keys (PathGraph.pos g)) <= 5)%nat ->
  In a (Dict.keys (PathGraph.pos g)) -> In b (Dict.keys (PathGraph.pos g)) ->
  a <> b ->
  In b (PathGraph.neighbours (PathGraph.adj g) a).
Proof.
  cbn zeta. intros Five Ka Kb N. destruct (init_keys zs) as [ND _].
  destruct (init_degree zs a Ka) as [L U].
  assert (incl (Dict.keys (PathGraph.pos (PathGraph.__init__ zs)))
               (a :: PathGraph.neighbours (PathGraph.adj (PathGraph.__init__ zs)) a)) as Inc.
  { apply NoDup_length_incl.
    - constructor; [apply init_no_self | apply init_neighbours_NoDup].
    - cbn [List.length]. lia.
    - intros c [<-|Ic]; [exact Ka|]. now apply (init_neighbours_keys zs a c). }
  destruct (Inc b Kb) as [E|I]; [congruence | exact I].
Qed.

(** X13: in a graph built from at most five distinct zone names every two
    different zones are neighbours, and [find] between them is the direct
    path of their two centres. *)
Theorem small_graph_routes_are_direct (zs : list Zone.t) (a b : string)
  (ca cb : PathGraph.point) :
  let g := PathGraph.__init__ zs in
  (List.length (Dict.keys (PathGraph.pos g)) <= 5)%nat ->
  Dict.get a (PathGraph.pos g) = Some ca ->
  Dict.get b (PathGraph.pos g) = Some cb ->
  a <> b ->
  In b (PathGraph.neighbours (PathGraph.adj g) a)
  /\ PathGraph.find g a b = Py.Ok [ca; cb].
Proof.
  cbn zeta. intros Five Ga Gb N.
  assert (In b (PathGraph.neighbours (PathGraph.adj (PathGraph.__init__ zs)) a)) as Ib.
  { apply init_small_complete; try assumption; apply get_in_keys; eauto. }
  split; [exact Ib|].
  unfold PathGraph.find. apply String.eqb_neq in N as Nb. rewrite Nb.
  pose proof (bfs_from_start (PathGraph.adj (PathGraph.__init__ zs)) a b) as B.
  assert (route (PathGraph.adj (PathGraph.__init__ zs)) a b [a; b]) as R
    by (repeat split; assumption).
  destruct (PathGraph.bfs _ _ _ _ _) as [p| |].
  - destruct B as [(C & Hd & L) Min]. specialize (Min _ R). simpl in Min.
    destruct p as [|x [|y [|z p]]]; simpl in *; try discriminate; try lia.
    + congruence.
    + injection Hd as ->. subst y. now rewrite Ga, Gb.
  - exfalso. apply B. now exists [a; b].
  - contradiction.
Qed.

End Degrees.

(** * First matches, the cursor and the initial world *)

(** * First matches *)

Lemma find_first {A : Type} (p : A -> bool) (l : list A) :
  match List.find p l with
  | Some x =>
      exists before after,
        l = before ++ x :: after /\ p x = true
        /\ forall y, In y before -> p y = false
  | None => forall y, In y l -> p y = false
  end.
Proof.
  induction l as [|x l IH]; simpl; [intros y []|].
  destruct (p x) eqn:P.
  - exists [], l. repeat split; [exact P | intros y []].
  - destruct (List.find p l) as [z|].
    + destruct IH as (before & after & -> & Pz & B).
      exists (x :: before), after. repeat split; [exact Pz|].
      intros y [<-|I]; [exact P | now apply B].
    + intros y [<-|I]; [exact P | now apply IH].
Qed.

(** X14: [zone_by_type] gives the first zone of the world's list that has
    the type, and nothing exactly when no zone has it. *)
Theorem zone_by_type_is_first_match (w : World.t) (zt : ZoneType) :
  match World.zone_by_type w zt with
  | Some z =>
      exists before after,
        World.zones w = before ++ z :: after /\ Zone.type z = zt
        /\ forall y, In y before -> Zone.type y <> zt
  | None => forall y, In y (World.zones w) -> Zone.type y <> zt
  end.
Proof.
  unfold World.zone_by_type.
  pose proof (find_first (fun z => ZoneType_eqb (Zone.type z) zt) (World.zones w)) as F.
  destruct (List.find _ _) as [z|].
  - destruct F as (before & after & E & P & B). exists before, after.
    split; [exact E|]. split; [now apply ZoneType_eqb_eq|].
    intros y I T. specialize (B y I). apply ZoneType_eqb_eq in T. congruence.
  - intros y I T. specialize (F y I). apply ZoneType_eqb_eq in T. congruence.
Qed.

Section TickDetails.
Context `{PyLib}.

Lemma tick_zone (a : Agent.t) :
  Agent.alive a = true ->
  Agent.zones (Agent.tick a) = Agent.zones a
  /\ Agent.zone (Agent.tick a)
     = List.find
         (fun z => collidepoint (Zone.rect z) (fst (Agent.pos (Agent.tick a)))
                     (snd (Agent.pos (Agent.tick a))))
         (Agent.zones a).
Proof.
  intro A. destruct (tick_fields a A) as (_ & _ & _ & _ & _ & _ & _ & ->).
  rewrite tick_alive_eq by exact A. cbn zeta.
  assert (Agent.zones (Agent._move (checked a)) = Agent.zones a) as Z.
  { unfold Agent._move.
    assert (Agent.zones (checked a) = Agent.zones a) as Zc.
    { unfold checked. destruct (health_check_cases (fed a)) as [[_ ->]|[_ ->]];
        unfold fed, Agent._zone_effect; destruct (Agent.zone (Agent._decay a)); reflexivity. }
    destruct (nth_error _ _) as [[tx ty]|]; [|exact Zc].
    destruct (Py.ltb _ _); [|exact Zc].
    destruct (_ <=? _)%nat; exact Zc. }
  generalize dependent (Agent._move (checked a)). intros b Z.
  destruct (Goal_eqb _ IDLE); simpl; rewrite Z; split; reflexivity.
Qed.

(** X15: after a tick of a living agent its zone is the first zone of its
    list that contains the position it has moved to, and no zone at all
    exactly when none contains it. *)
Theorem tick_detects_first_zone_at_new_position (a : Agent.t) :
  Agent.alive a = true ->
  match Agent.zone (Agent.tick a) with
  | Some z =>
      exists before after,
        Agent.zones a = before ++ z :: after
        /\ collidepoint (Zone.rect z) (fst (Agent.pos (Agent.tick a)))
             (snd (Agent.pos (Agent.tick a))) = true
        /\ forall y, In y before ->
             collidepoint (Zone.rect y) (fst (Agent.pos (Agent.tick a)))
               (snd (Agent.pos (Agent.tick a))) = false
  | None =>
      forall y, In y (Agent.zones a) ->
        collidepoint (Zone.rect y) (fst (Agent.pos (Agent.tick a)))
          (snd (Agent.pos (Agent.tick a))) = false
  end.
Proof.
  intro A. destruct (tick_zone a A) as [_ ->].
  apply (find_first
           (fun z => collidepoint (Zone.rect z) (fst (Agent.pos (Agent.tick a)))
                       (snd (Agent.pos (Agent.tick a))))).
Qed.

(** A tick in which the agent neither dies nor could reach the end of
    its path. *)
Lemma tick_on_the_way (a : Agent.t) :
  Agent.alive (Agent.tick a) = true ->
  (S (Agent.path_i a) < List.length (Agent.path a))%nat ->
  Agent.path (Agent.tick a) = Agent.path a
  /\ Agent.goal (Agent.tick a) = Agent.goal a
  /\ (Agent.path_i a <= Agent.path_i (Agent.tick a) <= Agent.path_i a + 1)%nat.
Proof.
  intros A' L.
  destruct (Agent.alive a) eqn:A; [|rewrite tick_dead in A' by exact A; congruence].
  destruct (tick_fields a A) as (_ & _ & Ea & _).
  destruct (fed_fields a) as (_ & _ & Fp & Fi & _ & Fg & _).
  assert (checked a = Agent.set_health (Agent.health (checked a)) (fed a)) as Ec.
  { pose proof (health_check_cases (fed a)) as C. cbn zeta in C.
    fold (checked a) in C. destruct C as [[_ E]|[_ E]].
    - rewrite Ea, E in A'. discriminate.
    - rewrite E. reflexivity. }
  rewrite tick_alive_eq by exact A. cbn zeta.
  assert (Agent.path (Agent._move (checked a)) = Agent.path a
          /\ Agent.goal (Agent._move (checked a)) = Agent.goal a
          /\ (Agent.path_i a <= Agent.path_i (Agent._move (checked a))
              <= Agent.path_i a + 1)%nat) as M.
  { unfold Agent._move. rewrite Ec.
    cbn [Agent.path Agent.path_i Agent.pos Agent.set_health].
    rewrite Fp, Fi.
    destruct (nth_error (Agent.path a) (Agent.path_i a)) as [[tx ty]|];
      [|cbn [Agent.path Agent.path_i Agent.goal Agent.set_health];
        rewrite Fp, Fi, Fg; repeat split; lia].
    destruct (Py.ltb _ _);
      [|cbn [Agent.path Agent.path_i Agent.goal Agent.set_health Agent.set_pos];
        rewrite Fp, Fi, Fg; repeat split; lia].
    cbn [Agent.path Agent.path_i Agent.set_path_i Agent.set_pos Agent.set_health].
    rewrite Fp.
    replace (List.length (Agent.path a) <=? Agent.path_i a + 1)%nat with false
      by (symmetry; apply Nat.leb_gt; lia).
    cbn [Agent.path Agent.path_i Agent.goal Agent.set_path_i Agent.set_pos
         Agent.set_health].
    rewrite Fp, Fg. repeat split; lia. }
  generalize dependent (Agent._move (checked a)). intros b M.
  destruct (Goal_eqb _ IDLE); exact M.
Qed.

Lemma alive_before (n : nat) (a : Agent.t) :
  Agent.alive (ticks (S n) a) = true -> Agent.alive (ticks n a) = true.
Proof.
  rewrite ticks_S. intro A. destruct (Agent.alive (ticks n a)) eqn:B; [reflexivity|].
  rewrite tick_dead in A by exact B. congruence.
Qed.

(** X16: a tick moves the cursor forward by at most one waypoint and
    changes neither path nor goal before the end of the path is in reach:
    an agent that is alive after [n] ticks and had more than [n] waypoints
    left still holds its path and its goal, with the cursor at most [n]
    further. *)
Theorem route_takes_a_tick_per_waypoint (n : nat) (a : Agent.t) :
  Agent.alive (ticks n a) = true ->
  (n + Agent.path_i a < List.length (Agent.path a))%nat ->
  Agent.path (ticks n a) = Agent.path a
  /\ Agent.goal (ticks n a) = Agent.goal a
  /\ (Agent.path_i a <= Agent.path_i (ticks n a) <= Agent.path_i a + n)%nat.
Proof.
  induction n as [|n IH]; intros A L; [simpl; repeat split; lia|].
  destruct (IH (alive_before n a A)) as (Ep & Eg & Ei); [lia|].
  rewrite ticks_S in A |- *.
  destruct (tick_on_the_way (ticks n a) A) as (Ep' & Eg' & Ei'); [rewrite Ep; lia|].
  rewrite Ep', Eg', Ep, Eg. repeat split; lia.
Qed.

Lemma tick_idle (a : Agent.t) :
  Agent.alive a = true -> Agent.goal a = IDLE -> Agent.path a = [] ->
  Agent.goal (Agent.tick a) = IDLE
  /\ Agent.path (Agent.tick a) = []
  /\ Agent.wait (Agent.tick a) = (Agent.wait a + 1)%nat.
Proof.
  intros A G P.
  destruct (fed_fields a) as (_ & _ & Fp & _ & _ & Fg & Fw & _).
  destruct (health_check_frame (fed a)) as (_ & _ & _ & Cg & Cw).
  fold (checked a) in Cg, Cw.
  assert (Agent.path (checked a) = []) as Cp.
  { unfold checked. destruct (health_check_cases (fed a)) as [[_ ->]|[_ ->]];
      [reflexivity | simpl; congruence]. }
  rewrite tick_alive_eq by exact A. cbn zeta.
  rewrite (move_no_path (checked a) Cp).
  assert (Agent.goal (checked a) = IDLE) as Eg by congruence.
  assert (Agent.wait (checked a) = Agent.wait a) as Ew by congruence.
  generalize dependent (checked a). intros b _ _ Cp Eg Ew.
  cbn [Agent.goal Agent._detect_zone Agent.set_zone]. rewrite Eg. simpl.
  repeat split; congruence.
Qed.

(** X17: an idle agent without a path stays idle, and while it lives its
    wait counter counts the ticks. *)
Theorem idle_agent_counts_its_ticks (n : nat) (a : Agent.t) :
  Agent.alive (ticks n a) = true ->
  Agent.goal a = IDLE -> Agent.path a = [] ->
  Agent.goal (ticks n a) = IDLE
  /\ Agent.path (ticks n a) = []
  /\ Agent.wait (ticks n a) = (Agent.wait a + n)%nat.
Proof.
  intros A G P. induction n as [|n IH]; [simpl; repeat split; [assumption.. | lia]|].
  pose proof (alive_before n a A) as An.
  destruct (IH An) as (Eg & Ep & Ew).
  rewrite ticks_S.
  destruct (tick_idle (ticks n a) An Eg Ep) as (Eg' & Ep' & Ew').
  repeat split; [assumption.. | lia].
Qed.

(** X18: the world that [World()] builds, whatever the random draws within
    their intervals are: it has the three agents A, B and C in this order,
    each alive, idle, without path or target, with full health, standing in
    its own home, with needs and health in range, keeping the path
    discipline, and living in the world of its graph. *)
Theorem initial_world_is_well_formed (na nb nc : Needs) :
  needs_in_range na -> needs_in_range nb -> needs_in_range nc ->
  let w := World.__init__ na nb nc in
  Dict.keys (World.agents w) = ["A"; "B"; "C"]
  /\ World.tick_count w = 0%Z
  /\ forall i a,
       Dict.get i (World.agents w) = Some a ->
       Agent.id a = i
       /\ Agent.alive a = true /\ Agent.goal a = IDLE
       /\ Agent.path a = [] /\ Agent.target a = None
       /\ Agent.zone a = Some (Agent.home a)
       /\ Zone.type (Agent.home a) = HOME
       /\ Agent.pos a = (inject_Z (fst (Zone.center (Agent.home a))),
                         inject_Z (snd (Zone.center (Agent.home a))))
       /\ in_range a /\ path_discipline a
       /\ at_home_in (World.zones w) a.
Proof.
  intros Ra Rb Rc. cbn zeta.
  set (g := PathGraph.__init__ World._make_zones).
  assert (World.__init__ na nb nc
          = World.mk World._make_zones g
              [ ("A", Agent.set_zones World._make_zones
                        (Agent.__init__ "A" "Alice" World.BLUE
                           (Zone.mk "home_a" HOME (mkRect 50 70 130 130) World.ZONE_HOME)
                           g na));
                ("B", Agent.set_zones World._make_zones
                        (Agent.__init__ "B" "Bob" World.GREEN
                           (Zone.mk "home_b" HOME (mkRect 50 260 130 130) World.ZONE_HOME)
                           g nb));
                ("C", Agent.set_zones World._make_zones
                        (Agent.__init__ "C" "Charlie" World.ORANGE
                           (Zone.mk "home_c" HOME (mkRect 50 450 130 130) World.ZONE_HOME)
                           g nc)) ]
              0) as ->
    by reflexivity.
  split; [reflexivity|]. split; [reflexivity|].
  assert (health_in_range 100.0%Q) as Hh by (split; unfold Qle; simpl; lia).
  intros i a G. cbn [World.agents Dict.get] in G.
  destruct (String.eqb_spec i "A") as [->|_];
    [|destruct (String.eqb_spec i "B") as [->|_];
      [|destruct (String.eqb_spec i "C") as [->|_]; [|discriminate]]];
    injection G as <-;
    (split; [reflexivity|]); (split; [reflexivity|]); (split; [reflexivity|]);
    (split; [reflexivity|]); (split; [reflexivity|]); (split; [reflexivity|]);
    (split; [reflexivity|]); (split; [reflexivity|]);
    (split; [split; assumption|]);
    (split; [split; [intro N; now elim N | now left]|]);
    (split; [reflexivity|]); split; simpl; auto 10.
Qed.

End TickDetails.

(** * The further properties on concrete data *)

(** * The further properties on concrete data *)

Lemma world_zone_names_differ : NoDup (map Zone.name World._make_zones).
Proof.
  vm_compute. repeat constructor; simpl; intuition discriminate.
Defined.

Lemma alice_at_home : at_home_in (H := Ref.lib) World._make_zones Demo.alice.
Proof.
  split; [by_computation|]. split; vm_compute; auto 10.
Defined.

Lemma path_discipline_is_kept_witness :
  path_discipline
    (run (H := Ref.lib)
       [Assign GO_CAFE (Some Demo.cafe); Tick; Tick; Assign IDLE None] Demo.alice).
Proof.
  assert (path_discipline Demo.alice) as D.
  { split; [intro N; vm_compute in N; congruence | left; by_computation]. }
  exact (path_discipline_is_kept (H := Ref.lib)
           [Assign GO_CAFE (Some Demo.cafe); Tick; Tick; Assign IDLE None]
           Demo.alice D).
Defined.




Lemma assign_routes_from_current_zone_witness :
  exists cs,
    Agent.assign (H := Ref.lib) GO_CAFE (Some Demo.cafe) Demo.alice
    = (Agent.set_path_i 0
         (Agent.set_path cs (retargeted GO_CAFE (Some Demo.cafe) Demo.alice)),
       Py.Done)
    /\ cs <> []
    /\ hd_error cs
       = Some (Zone.center match Agent.zone Demo.alice with
                           | Some z0 => z0
                           | None => Agent.home Demo.alice
                           end)
    /\ last cs (Zone.center Demo.cafe) = Zone.center Demo.cafe.
Proof.
  assert (In Demo.cafe World._make_zones) as I by (vm_compute; auto 10).
  assert (Agent.alive Demo.alice = true) as A by by_computation.
  assert (GO_CAFE <> IDLE) as G by discriminate.
  assert (~ (Agent.goal Demo.alice = GO_CAFE
             /\ Agent.target Demo.alice = Some Demo.cafe
             /\ Agent.path Demo.alice <> [])) as NS.
  { intros (E & _). vm_compute in E. discriminate. }
  exact (assign_routes_from_current_zone (H := Ref.lib) World._make_zones GO_CAFE
           Demo.cafe Demo.alice world_zone_names_differ alice_at_home I A G
           alice_outside_cafe NS).
Defined.

Lemma bad_entry_stops_the_round_witness :
  Brain.raw (fst (fst (Brain.decide (H := Ref.lib)
                         (Brain.Http 200 Replies.bad_second_entry) Demo.brain0)))
  = "'int' object has no attribute 'get'"
  /\ Agent.goal
       (Demo.agent_named
          (Brain.world (fst (fst (Brain.decide (H := Ref.lib)
                                    (Brain.Http 200 Replies.bad_second_entry)
                                    Demo.brain0)))) "A" Demo.alice) = GO_CAFE
  /\ Agent.goal
       (Demo.agent_named
          (Brain.world (fst (fst (Brain.decide (H := Ref.lib)
                                    (Brain.Http 200 Replies.bad_second_entry)
                                    Demo.brain0)))) "C" Demo.alice) = IDLE.
Proof.
  set (pre := [("A", JObj [("goal", JStr "go_cafe")])]).
  set (post := [("C", JObj [("goal", JStr "go_park")])]).
  set (w1 := fst (Brain.apply_entries (H := Ref.lib) Demo.world0 pre)).
  assert (Brain.busy Demo.brain0 = false) as B by by_computation.
  assert (Brain.search_braces Replies.bad_second_entry = Some Replies.bad_second_entry)
    as S by by_computation.
  assert (json_loads (PyLib := Ref.lib) Replies.bad_second_entry
          = Some (JObj (pre ++ ("B", JInt 5) :: post))) as J by by_computation.
  assert (Brain.apply_entries (H := Ref.lib) (Brain.world Demo.brain0) pre = (w1, Py.Done))
    as P by by_computation.
  assert (Dict.get "B" (World.agents w1)
          = Some (Demo.agent_named Demo.world0 "B" Demo.alice)) as G by by_computation.
  assert (Agent.alive (Demo.agent_named Demo.world0 "B" Demo.alice) = true) as A
    by by_computation.
  assert (forall members, JInt 5 <> JObj members) as NO by discriminate.
  pose proof (bad_entry_stops_the_round (H := Ref.lib) Demo.brain0
                Replies.bad_second_entry Replies.bad_second_entry pre post "B"
                (JInt 5) w1 (Demo.agent_named Demo.world0 "B" Demo.alice)
                B S J P G A NO) as W.
  cbv zeta in W. destruct W as [_ W]. rewrite W.
  repeat split; by_computation.
Defined.

Lemma entries_for_absent_agents_change_nothing_witness :
  Brain._parse (H := Ref.lib) Replies.unknown_agent Demo.world0
  = (Demo.world0, Py.Done).
Proof.
  assert (forall aid act,
            In (aid, act) [("Z", JObj [("goal", JStr "go_work")])] ->
            match Dict.get aid (World.agents Demo.world0) with
            | None => True
            | Some a => Agent.alive a = false
            end) as Ab.
  { intros aid act [E|[]]. injection E as <- <-. vm_compute. exact I. }
  pose proof (entries_for_absent_agents_change_nothing (H := Ref.lib) Demo.world0
                [("Z", JObj [("goal", JStr "go_work")])] Ab) as W.
  apply (proj2 W Replies.unknown_agent Replies.unknown_agent); by_computation.
Defined.

Lemma zone_degree_bounds_witness :
  ~ In "road"
      (PathGraph.neighbours
         (PathGraph.adj (PathGraph.__init__ (H := Ref.lib) World._make_zones)) "road").
Proof.
  assert (In "road" (map Zone.name World._make_zones)) as I by (vm_compute; auto 10).
  pose proof (zone_degree_bounds (H := Ref.lib) World._make_zones "road" I) as W.
  exact (proj1 W).
Defined.

Lemma small_graph_routes_are_direct_witness :
  PathGraph.find (H := Ref.lib) (PathGraph.__init__ (H := Ref.lib) Replies.three_zones) "west" "east"
  = Py.Ok [(5, 5)%Z; (305, 5)%Z].
Proof.
  assert (List.length
            (Dict.keys (PathGraph.pos (PathGraph.__init__ (H := Ref.lib)
                                         Replies.three_zones))) <= 5)%nat as F
    by (vm_compute; lia).
  assert (Dict.get "west" (PathGraph.pos (PathGraph.__init__ (H := Ref.lib)
                                            Replies.three_zones))
          = Some (5, 5)%Z) as Ga by by_computation.
  assert (Dict.get "east" (PathGraph.pos (PathGraph.__init__ (H := Ref.lib)
                                            Replies.three_zones))
          = Some (305, 5)%Z) as Gb by by_computation.
  assert ("west" <> "east") as N by discriminate.
  pose proof (small_graph_routes_are_direct (H := Ref.lib) Replies.three_zones
                "west" "east" (5, 5)%Z (305, 5)%Z F Ga Gb N) as W.
  exact (proj2 W).
Defined.

Lemma route_takes_a_tick_per_waypoint_witness :
  Agent.path (ticks (H := Ref.lib) 1
                (fst (Agent.assign (H := Ref.lib) GO_CAFE (Some Demo.cafe) Demo.alice)))
  = Agent.path (fst (Agent.assign (H := Ref.lib) GO_CAFE (Some Demo.cafe) Demo.alice)).
Proof.
  assert (Agent.alive (ticks (H := Ref.lib) 1
                         (fst (Agent.assign (H := Ref.lib) GO_CAFE (Some Demo.cafe) Demo.alice)))
          = true) as A by by_computation.
  assert (1 + Agent.path_i (fst (Agent.assign (H := Ref.lib) GO_CAFE (Some Demo.cafe) Demo.alice))
          < List.length
              (Agent.path (fst (Agent.assign (H := Ref.lib) GO_CAFE (Some Demo.cafe) Demo.alice))))%nat
    as L by (vm_compute; lia).
  pose proof (route_takes_a_tick_per_waypoint (H := Ref.lib) 1
                (fst (Agent.assign (H := Ref.lib) GO_CAFE (Some Demo.cafe) Demo.alice)) A L) as W.
  exact (proj1 W).
Defined.

Lemma idle_agent_counts_its_ticks_witness :
  Agent.wait (ticks (H := Ref.lib) 3 Demo.alice) = (Agent.wait Demo.alice + 3)%nat.
Proof.
  assert (Agent.alive (ticks (H := Ref.lib) 3 Demo.alice) = true) as A by by_computation.
  assert (Agent.goal Demo.alice = IDLE) as G by by_computation.
  assert (Agent.path Demo.alice = []) as P by by_computation.
  pose proof (idle_agent_counts_its_ticks (H := Ref.lib) 3 Demo.alice A G P) as W.
  exact (proj2 (proj2 W)).
Defined.

Lemma needs0_in_range : needs_in_range Demo.needs0.
Proof. intros []; split; by_computation. Defined.

Lemma initial_world_is_well_formed_witness :
  Dict.keys (World.agents (World.__init__ (H := Ref.lib) Demo.needs0 Demo.needs0
                             Demo.needs0))
  = ["A"; "B"; "C"].
Proof.
  pose proof (initial_world_is_well_formed (H := Ref.lib) Demo.needs0 Demo.needs0
                Demo.needs0 needs0_in_range needs0_in_range needs0_in_range) as W.
  exact (proj1 W).
Defined.

Lemma find_result_shape_witness :
  PathGraph.find (H := Ref.lib)
    (PathGraph.__init__ (H := Ref.lib) World._make_zones) "nowhere" "cafe"
  = Py.Exn (PathGraph.key_error (H := Ref.lib) "nowhere").
Proof.
  assert (Dict.get "nowhere"
            (PathGraph.pos (PathGraph.__init__ (H := Ref.lib) World._make_zones))
          = None) as G by by_computation.
  pose proof (find_result_shape (H := Ref.lib) (PathGraph.__init__ (H := Ref.lib) World._make_zones)
                "nowhere" "cafe") as W.
  exact (proj2 (proj2 W) G).
Defined.

Lemma tick_detects_first_zone_at_new_position_witness :
  match Agent.zone (Agent.tick (H := Ref.lib) Demo.alice) with
  | Some z =>
      exists before after,
        Agent.zones Demo.alice = before ++ z :: after
        /\ collidepoint (PyLib := Ref.lib) (Zone.rect z)
             (fst (Agent.pos (Agent.tick (H := Ref.lib) Demo.alice)))
             (snd (Agent.pos (Agent.tick (H := Ref.lib) Demo.alice))) = true
        /\ forall y, In y before ->
             collidepoint (PyLib := Ref.lib) (Zone.rect y)
               (fst (Agent.pos (Agent.tick (H := Ref.lib) Demo.alice)))
               (snd (Agent.pos (Agent.tick (H := Ref.lib) Demo.alice))) = false
  | None =>
      forall y, In y (Agent.zones Demo.alice) ->
        collidepoint (PyLib := Ref.lib) (Zone.rect y)
          (fst (Agent.pos (Agent.tick (H := Ref.lib) Demo.alice)))
          (snd (Agent.pos (Agent.tick (H := Ref.lib) Demo.alice))) = false
  end.
Proof.
  assert (Agent.alive Demo.alice = true) as A by by_computation.
  exact (tick_detects_first_zone_at_new_position (H := Ref.lib) Demo.alice A).
Defined.
